(** * Coffee terminal assistant: a shallow embedding of [coffee/main.py] and
    [coffee/context_manager.py], and the properties of its response parser,
    command executor, plan executor, session state and context store.

    Python values are modelled as they are at run time: a [str] is a list of
    Unicode code points, a decoded JSON document is a [json] tree, a [dict]
    is an insertion-ordered association list with unique keys, and an
    operation that can raise returns a [result].  Library calls ([json],
    [re], [os], [subprocess], the console, the completion endpoint) are
    modelled by the definitions of Parts 1-6; the functions of the
    repository follow in Parts 7 and 8, each under the name it has in the
    source; Part 9 states and proves their properties and Part 10
    evaluates them on a sample session. *)

From Stdlib Require Import List ZArith NArith Lia Bool String Ascii.
Import ListNotations.

Set Implicit Arguments.

Local Open Scope N_scope.

(* ================================================================== *)
(** * Part 1. Python strings *)
(* ================================================================== *)

(** A Python [str]: a sequence of code points. *)
Definition str := list N.

(** An ASCII literal seen as a [str]. *)
Definition u (s : string) : str := map N_of_ascii (list_ascii_of_string s).

Definition DQ : N := 34.        (* the double quote *)
Definition NL : N := 10.

(** [q s] is the literal [s] between double quotes. *)
Definition q (s : string) : str := DQ :: u s ++ [DQ].

Fixpoint str_eqb (a b : str) : bool :=
  match a, b with
  | [], [] => true
  | x :: a', y :: b' => N.eqb x y && str_eqb a' b'
  | _, _ => false
  end.

(** [s.startswith(p)] *)
Fixpoint startswith (p s : str) : bool :=
  match p, s with
  | [], _ => true
  | x :: p', y :: s' => N.eqb x y && startswith p' s'
  | _ :: _, [] => false
  end.

(** [p in s] for two strings: substring test. *)
Fixpoint str_contains (p s : str) : bool :=
  startswith p s ||
  match s with
  | [] => false
  | _ :: s' => str_contains p s'
  end.

(** [str.isspace] on one code point; this is also the class [\s] of [re]
    for [str] patterns. *)
Definition py_isspace (c : N) : bool :=
  ((9 <=? c) && (c <=? 13)) || ((28 <=? c) && (c <=? 32)) ||
  (c =? 133) || (c =? 160) || (c =? 5760) ||
  ((8192 <=? c) && (c <=? 8202)) || (c =? 8232) || (c =? 8233) ||
  (c =? 8239) || (c =? 8287) || (c =? 12288).

Fixpoint lstrip (s : str) : str :=
  match s with
  | c :: s' => if py_isspace c then lstrip s' else s
  | [] => []
  end.

(** [s.strip()] *)
Definition strip (s : str) : str := rev (lstrip (rev (lstrip s))).

(** [s.split(" ", 1)]: at most one split, at the first space. *)
Fixpoint split_space_1 (s : str) : list str :=
  match s with
  | [] => [[]]
  | c :: s' =>
      if c =? 32 then [[]; s']
      else match split_space_1 s' with
           | h :: t => (c :: h) :: t
           | [] => [[c]]
           end
  end.

(** The last [n] elements: the slice [l[-n:]] for [n > 0]. *)
Definition lastn (A : Type) (n : nat) (l : list A) : list A :=
  skipn (List.length l - n)%nat l.

(** [s.lower()] restricted to what the shell compares against: the ASCII
    letters are folded, other code points are kept. *)
Definition ascii_lower (c : N) : N :=
  if (65 <=? c) && (c <=? 90) then c + 32 else c.

(* ================================================================== *)
(** * Part 2. Exceptions and results *)
(* ================================================================== *)

(** The exception classes the program meets.  All of them derive from
    [Exception]; [JSONDecodeError], [UnicodeError] derive from
    [ValueError], [FileNotFoundError] and the other file-system errors from
    [OSError]; [RecursionError] is raised when calls nest too deep,
    [MarkupError] by the console of [rich] on markup that it cannot read.
    Asynchronous interrupts ([KeyboardInterrupt]) are events of
    the input stream of the shell, not values of this type. *)
Inductive exn_kind :=
| JSONDecodeError | ValueError | UnicodeError
| TypeError | AttributeError | KeyError | IndexError
| FileNotFoundError | NotADirectoryError | IsADirectoryError
| FileExistsError | OSError
| TimeoutExpired | APIError | RecursionError | MarkupError.

Record exn := Exn { exn_kind_of : exn_kind; exn_msg : str }.

Inductive result (A : Type) :=
| Ok (a : A)
| Raise (e : exn).
Arguments Ok {A} a.
Arguments Raise {A} e.

Definition bind (A B : Type) (m : result A) (k : A -> result B) : result B :=
  match m with
  | Ok a => k a
  | Raise e => Raise e
  end.

Declare Scope py_scope.
Delimit Scope py_scope with py.
Notation "x <- m ;; k" := (bind m (fun x => k))
  (at level 100, m at next level, right associativity) : py_scope.
Open Scope py_scope.

(** An error raised by a library call.  The text that the library gives
    the error is not modelled: the message is empty. *)
Definition raise (A : Type) (k : exn_kind) : result A := Raise (Exn k []).

Definition is_kind (k : exn_kind) (e : exn) : bool :=
  match k, exn_kind_of e with
  | JSONDecodeError, JSONDecodeError | ValueError, ValueError
  | UnicodeError, UnicodeError | TypeError, TypeError
  | AttributeError, AttributeError | KeyError, KeyError
  | IndexError, IndexError | FileNotFoundError, FileNotFoundError
  | NotADirectoryError, NotADirectoryError
  | IsADirectoryError, IsADirectoryError
  | FileExistsError, FileExistsError | OSError, OSError
  | TimeoutExpired, TimeoutExpired | APIError, APIError
  | RecursionError, RecursionError | MarkupError, MarkupError => true
  | _, _ => false
  end.

(* ================================================================== *)
(** * Part 3. JSON documents and [json.loads] *)
(* ================================================================== *)

(** A Python [float] as the decimal it was read from: [FDec m e] is
    [m * 10^e]. *)
Inductive pyfloat :=
| FDec (m e : Z)
| FNaN
| FInf (negative : bool).

#[warnings="-register-all"]
Inductive json :=
| JNull
| JBool (b : bool)
| JInt (z : Z)
| JFloat (f : pyfloat)
| JStr (s : str)
| JArr (l : list json)
| JObj (kv : list (str * json)).

(** ** Dictionaries: insertion order, unique keys *)

Fixpoint dict_get (A : Type) (d : list (str * A)) (k : str) : option A :=
  match d with
  | [] => None
  | (k', v) :: d' => if str_eqb k' k then Some v else dict_get d' k
  end.

Definition dict_has (A : Type) (d : list (str * A)) (k : str) : bool :=
  match dict_get d k with Some _ => true | None => false end.

(** [d[k] = v] *)
Fixpoint dict_set (A : Type) (d : list (str * A)) (k : str) (v : A)
  : list (str * A) :=
  match d with
  | [] => [(k, v)]
  | (k', v') :: d' =>
      if str_eqb k' k then (k', v) :: d' else (k', v') :: dict_set d' k v
  end.

(** [dict(pairs)] *)
Definition dict_of_pairs (A : Type) (pairs : list (str * A))
  : list (str * A) :=
  fold_left (fun d kv => dict_set d (fst kv) (snd kv)) pairs [].

(** ** The scanner of [json.loads] *)

Definition json_ws (c : N) : bool :=
  (c =? 32) || (c =? 9) || (c =? 10) || (c =? 13).

Fixpoint skip_ws (s : str) : str :=
  match s with
  | c :: s' => if json_ws c then skip_ws s' else s
  | [] => []
  end.

Definition is_digit (c : N) : bool := (48 <=? c) && (c <=? 57).

Definition hexval (c : N) : option N :=
  if is_digit c then Some (c - 48)
  else if (97 <=? c) && (c <=? 102) then Some (c - 87)
  else if (65 <=? c) && (c <=? 70) then Some (c - 55)
  else None.

Definition hex4 (a b c d : N) : option N :=
  match hexval a, hexval b, hexval c, hexval d with
  | Some x, Some y, Some z, Some w => Some (((x * 16 + y) * 16 + z) * 16 + w)
  | _, _, _, _ => None
  end.

Definition is_high_surrogate (c : N) : bool := (55296 <=? c) && (c <=? 56319).
Definition is_low_surrogate (c : N) : bool := (56320 <=? c) && (c <=? 57343).
Definition is_surrogate (c : N) : bool := (55296 <=? c) && (c <=? 57343).
Definition join_surrogates (hi lo : N) : N :=
  65536 + (hi - 55296) * 1024 + (lo - 56320).

Definition simple_escape (c : N) : option N :=
  if c =? 34 then Some 34            (* quote *)
  else if c =? 92 then Some 92       (* backslash *)
  else if c =? 47 then Some 47       (* slash *)
  else if c =? 98 then Some 8        (* b *)
  else if c =? 102 then Some 12      (* f *)
  else if c =? 110 then Some 10      (* n *)
  else if c =? 114 then Some 13      (* r *)
  else if c =? 116 then Some 9       (* t *)
  else None.

(** [scanstring]: the text after an opening quote, up to the closing one
    (strict mode: a control character inside a string is an error). *)
Fixpoint scanstring (s : str) (acc : str) : option (str * str) :=
  match s with
  | [] => None
  | c :: s1 =>
      if c =? 34 then Some (rev acc, s1)
      else if c =? 92 then
        match s1 with
        | [] => None
        | e :: s2 =>
            if e =? 117 then
              match s2 with
              | h1 :: h2 :: h3 :: h4 :: s3 =>
                  match hex4 h1 h2 h3 h4 with
                  | None => None
                  | Some hi =>
                      if is_high_surrogate hi then
                        match s3 with
                        | b :: l0 :: l1 :: l2 :: l3 :: l4 :: s4 =>
                            if (b =? 92) && (l0 =? 117) then
                              match hex4 l1 l2 l3 l4 with
                              | None => None
                              | Some lo =>
                                  if is_low_surrogate lo
                                  then scanstring s4 (join_surrogates hi lo :: acc)
                                  else scanstring s3 (hi :: acc)
                              end
                            else scanstring s3 (hi :: acc)
                        | _ => scanstring s3 (hi :: acc)
                        end
                      else scanstring s3 (hi :: acc)
                  end
              | _ => None
              end
            else
              match simple_escape e with
              | Some x => scanstring s2 (x :: acc)
              | None => None
              end
        end
      else if c <? 32 then None
      else scanstring s1 (c :: acc)
  end.

Fixpoint take_digits (s : str) : str * str :=
  match s with
  | c :: s' =>
      if is_digit c then let (d, r) := take_digits s' in (c :: d, r)
      else ([], s)
  | [] => ([], [])
  end.

Definition digits_value (d : str) : Z :=
  fold_left (fun acc c => (acc * 10 + Z.of_N (c - 48))%Z) d 0%Z.

(** The integer part of a number: [0] or a digit [1..9] and more digits. *)
Definition scan_int_part (s : str) : option (str * str) :=
  match s with
  | c :: s' =>
      if c =? 48 then Some ([c], s')
      else if is_digit c then Some (take_digits s)
      else None
  | [] => None
  end.

Definition scan_frac (s : str) : str * str :=
  match s with
  | c :: d :: s' =>
      if (c =? 46) && is_digit d then take_digits (d :: s') else ([], s)
  | _ => ([], s)
  end.

(** The exponent: its value, when there is one, and the rest. *)
Definition scan_exp (s : str) : option Z * str :=
  match s with
  | c :: s1 =>
      if (c =? 101) || (c =? 69) then
        match s1 with
        | sg :: d :: s2 =>
            if ((sg =? 43) || (sg =? 45)) && is_digit d then
              let (ds, r) := take_digits (d :: s2) in
              (Some (if sg =? 45 then (- digits_value ds)%Z else digits_value ds), r)
            else if is_digit sg then
              let (ds, r) := take_digits s1 in (Some (digits_value ds), r)
            else (None, s)
        | [d] =>
            if is_digit d then (Some (digits_value [d]), []) else (None, s)
        | [] => (None, s)
        end
      else (None, s)
  | [] => (None, s)
  end.

Definition scan_number (s : str) : option (json * str) :=
  let (neg, s0) := match s with
                   | c :: s' => if c =? 45 then (true, s') else (false, s)
                   | [] => (false, s)
                   end in
  match scan_int_part s0 with
  | None => None
  | Some (ip, r1) =>
      let (fp, r2) := scan_frac r1 in
      let (ex, r3) := scan_exp r2 in
      let sign := (if neg then -1 else 1)%Z in
      match fp, ex with
      | [], None => Some (JInt (sign * digits_value ip), r3)
      | _, _ =>
          let e := match ex with Some z => z | None => 0%Z end in
          Some (JFloat (FDec (sign * digits_value (ip ++ fp))
                             (e - Z.of_nat (List.length fp))), r3)
      end
  end.

Inductive presult :=
| POk (v : json) (rest : str)
| PErr
| PFuel.

(** [scan_once] with the object and array loops of the decoder.
    [parse_members] starts after the opening quote of a key,
    [parse_elems] at the first character of an element. *)
Fixpoint parse_value (fuel : nat) (s : str) : presult :=
  match fuel with
  | O => PFuel
  | S f =>
      match s with
      | [] => PErr
      | c :: s1 =>
          if c =? 34 then
            match scanstring s1 [] with
            | Some (t, r) => POk (JStr t) r
            | None => PErr
            end
          else if c =? 123 then
            match skip_ws s1 with
            | c2 :: r =>
                if c2 =? 125 then POk (JObj []) r
                else if c2 =? 34 then parse_members f r []
                else PErr
            | [] => PErr
            end
          else if c =? 91 then
            match skip_ws s1 with
            | c2 :: r =>
                if c2 =? 93 then POk (JArr []) r
                else parse_elems f (c2 :: r) []
            | [] => PErr
            end
          else if startswith (u "null") s then POk JNull (skipn 4 s)
          else if startswith (u "true") s then POk (JBool true) (skipn 4 s)
          else if startswith (u "false") s then POk (JBool false) (skipn 5 s)
          else
            match scan_number s with
            | Some (v, r) => POk v r
            | None =>
                if startswith (u "NaN") s then POk (JFloat FNaN) (skipn 3 s)
                else if startswith (u "Infinity") s
                then POk (JFloat (FInf false)) (skipn 8 s)
                else if startswith (u "-Infinity") s
                then POk (JFloat (FInf true)) (skipn 9 s)
                else PErr
            end
      end
  end
with parse_members (fuel : nat) (s : str) (acc : list (str * json))
  : presult :=
  match fuel with
  | O => PFuel
  | S f =>
      match scanstring s [] with
      | None => PErr
      | Some (key, r) =>
          match skip_ws r with
          | c :: r1 =>
              if c =? 58 then
                match parse_value f (skip_ws r1) with
                | POk v r2 =>
                    match skip_ws r2 with
                    | c3 :: r3 =>
                        if c3 =? 125
                        then POk (JObj (dict_of_pairs (rev ((key, v) :: acc)))) r3
                        else if c3 =? 44 then
                          match skip_ws r3 with
                          | c4 :: r4 =>
                              if c4 =? 34
                              then parse_members f r4 ((key, v) :: acc)
                              else PErr
                          | [] => PErr
                          end
                        else PErr
                    | [] => PErr
                    end
                | PErr => PErr
                | PFuel => PFuel
                end
              else PErr
          | [] => PErr
          end
      end
  end
with parse_elems (fuel : nat) (s : str) (acc : list json) : presult :=
  match fuel with
  | O => PFuel
  | S f =>
      match parse_value f s with
      | POk v r =>
          match skip_ws r with
          | c :: r1 =>
              if c =? 93 then POk (JArr (rev (v :: acc))) r1
              else if c =? 44 then parse_elems f (skip_ws r1) (v :: acc)
              else PErr
          | [] => PErr
          end
      | PErr => PErr
      | PFuel => PFuel
      end
  end.

(** [json.loads(s)] for a [str]: optional white space, one value, optional
    white space, end of text.  The fuel bounds the number of nested calls,
    each of which follows the consumption of a character; twice the length
    of the text is enough (lemma [json_loads_fuel]).  The limits of the
    interpreter (depth of nesting, length of an integer literal) are not
    modelled: the decoder raises [JSONDecodeError] only. *)
Definition json_loads (s : str) : result json :=
  match s with
  | 65279%N :: _ => raise json JSONDecodeError      (* a leading BOM *)
  | _ =>
      match parse_value (2 * List.length s + 2)%nat (skip_ws s) with
      | POk v r =>
          match skip_ws r with
          | [] => Ok v
          | _ :: _ => raise json JSONDecodeError
          end
      | PErr | PFuel => raise json JSONDecodeError
      end
  end.

(** ** Python operations on decoded values *)

(** A float is zero when its mantissa is, or when the decimal is so small
    that it rounds to zero (at most [2^-1075], half of the smallest
    subnormal). *)
Definition float_is_zero (f : pyfloat) : bool :=
  match f with
  | FDec m e =>
      (m =? 0)%Z ||
      ((e <? 0)%Z && (Z.abs m * 2 ^ 1075 <=? 10 ^ (- e))%Z)
  | FNaN | FInf _ => false
  end.

(** [bool(v)] *)
Definition py_truthy (v : json) : bool :=
  match v with
  | JNull => false
  | JBool b => b
  | JInt z => negb (z =? 0)%Z
  | JFloat f => negb (float_is_zero f)
  | JStr s => match s with [] => false | _ => true end
  | JArr l => match l with [] => false | _ => true end
  | JObj d => match d with [] => false | _ => true end
  end.

Definition is_jstr (k : str) (v : json) : bool :=
  match v with JStr s => str_eqb s k | _ => false end.

(** [k in v] for a string [k]: key of a dict, element of a list,
    substring of a string; other values are not iterable. *)
Definition py_in (k : str) (v : json) : result bool :=
  match v with
  | JObj d => Ok (dict_has d k)
  | JArr l => Ok (existsb (is_jstr k) l)
  | JStr s => Ok (str_contains k s)
  | _ => raise bool TypeError
  end.

(** [v.get(k, default)]: only a dict has the method. *)
Definition py_get (v : json) (k : str) (default : json) : result json :=
  match v with
  | JObj d => Ok (match dict_get d k with Some x => x | None => default end)
  | _ => raise json AttributeError
  end.

(** [v[k]] for a string [k]. *)
Definition py_getitem (v : json) (k : str) : result json :=
  match v with
  | JObj d => match dict_get d k with
              | Some x => Ok x
              | None => raise json KeyError
              end
  | _ => raise json TypeError
  end.

(** [len(v)] *)
Definition py_len (v : json) : result nat :=
  match v with
  | JObj d => Ok (List.length d)
  | JArr l => Ok (List.length l)
  | JStr s => Ok (List.length s)
  | _ => raise nat TypeError
  end.

(** [iter(v)]: the elements of a list, the keys of a dict, the characters
    of a string. *)
Definition py_iter (v : json) : result (list json) :=
  match v with
  | JArr l => Ok l
  | JObj d => Ok (map (fun kv => JStr (fst kv)) d)
  | JStr s => Ok (map (fun c => JStr [c]) s)
  | _ => raise (list json) TypeError
  end.

(* ================================================================== *)
(** * Part 4. The regular expressions of the program *)
(* ================================================================== *)

(** The patterns of the program are sequences of single characters,
    character classes, starred classes (greedy or lazy) and one capturing
    group.  The matcher is the backtracking matcher of [re]: a greedy star
    tries the longest repetition first, a lazy star the shortest, and
    [re.search] takes the leftmost start that matches. *)
Inductive atom :=
| Chr (p : N -> bool)
| StarG (p : N -> bool)
| StarL (p : N -> bool)
| GOpen
| GClose.

Section Matcher.
Variable R : Type.

Fixpoint star_greedy (p : N -> bool) (k : str -> option R) (s : str)
  : option R :=
  match s with
  | c :: s' =>
      if p c then
        match star_greedy p k s' with
        | Some r => Some r
        | None => k s
        end
      else k s
  | [] => k []
  end.

Fixpoint star_lazy (p : N -> bool) (k : str -> option R) (s : str)
  : option R :=
  match k s with
  | Some r => Some r
  | None =>
      match s with
      | c :: s' => if p c then star_lazy p k s' else None
      | [] => None
      end
  end.
End Matcher.

(** [match_here r go gc s]: match [r] at the start of [s]; [go] and [gc]
    are the texts that remained when the group opened and closed. *)
Fixpoint match_here (r : list atom) (go gc : str) (s : str)
  : option (str * str) :=
  match r with
  | [] => Some (go, gc)
  | Chr p :: r' =>
      match s with
      | c :: s' => if p c then match_here r' go gc s' else None
      | [] => None
      end
  | StarG p :: r' => star_greedy p (match_here r' go gc) s
  | StarL p :: r' => star_lazy p (match_here r' go gc) s
  | GOpen :: r' => match_here r' s gc s
  | GClose :: r' => match_here r' go s s
  end.

Definition group_text (g : str * str) : str :=
  firstn (List.length (fst g) - List.length (snd g))%nat (fst g).

(** [re.search(r, s)]: [m.group(1)] of the first match, if any. *)
Fixpoint re_search (r : list atom) (s : str) : option str :=
  match match_here r [] [] s with
  | Some g => Some (group_text g)
  | None =>
      match s with
      | _ :: s' => re_search r s'
      | [] => None
      end
  end.

Definition any_char (_ : N) : bool := true.

Definition lit (s : str) : list atom := map (fun c => Chr (N.eqb c)) s.

(** A lower-case ASCII letter under [re.IGNORECASE]: the letter, its
    capital, and the code points whose lower case it is (the long s for
    [s], the Kelvin sign for [k]). *)
Definition ci (c : N) (x : N) : bool :=
  (x =? c) || (x =? c - 32) ||
  ((c =? 115) && (x =? 383)) || ((c =? 107) && (x =? 8490)).

Definition lit_ci (s : str) : list atom :=
  map (fun c => Chr (if (97 <=? c) && (c <=? 122) then ci c else N.eqb c)) s.

Definition FENCE : str := [96; 96; 96].
Definition LBRACE : N := 123.
Definition RBRACE : N := 125.

(** [```json\s*(\{[\s\S]*?\})\s*```] with [re.IGNORECASE] ([main.py]). *)
Definition RE_FENCED_JSON_I : list atom :=
  lit_ci (FENCE ++ u "json") ++
  [StarG py_isspace; GOpen; Chr (N.eqb LBRACE); StarL any_char;
   Chr (N.eqb RBRACE); GClose; StarG py_isspace] ++ lit FENCE.

(** [(\{[\s\S]*\})] ([main.py]). *)
Definition RE_BRACES : list atom :=
  [GOpen; Chr (N.eqb LBRACE); StarG any_char; Chr (N.eqb RBRACE); GClose].

(** [```json\s*(\{.*?\})\s*```] with [re.DOTALL] ([context_manager.py]). *)
Definition RE_FENCED_JSON : list atom :=
  lit (FENCE ++ u "json") ++
  [StarG py_isspace; GOpen; Chr (N.eqb LBRACE); StarL any_char;
   Chr (N.eqb RBRACE); GClose; StarG py_isspace] ++ lit FENCE.

(** [```\s*(\{.*?\})\s*```] with [re.DOTALL] ([context_manager.py]). *)
Definition RE_FENCED : list atom :=
  lit FENCE ++
  [StarG py_isspace; GOpen; Chr (N.eqb LBRACE); StarL any_char;
   Chr (N.eqb RBRACE); GClose; StarG py_isspace] ++ lit FENCE.

(** [(\{[\s\S]*?"command"[\s\S]*?\})] ([context_manager.py]). *)
Definition RE_COMMAND_OBJECT : list atom :=
  [GOpen; Chr (N.eqb LBRACE); StarL any_char] ++ lit (q "command") ++
  [StarL any_char; Chr (N.eqb RBRACE); GClose].

(* ================================================================== *)
(** * Part 5. Paths and the file system *)
(* ================================================================== *)

Definition SLASH : N := 47.

(** ** [os.path] (POSIX flavour) *)

(** [os.path.isabs] *)
Definition isabs (p : str) : bool := startswith [SLASH] p.

Definition endswith_slash (p : str) : bool :=
  match rev p with
  | c :: _ => c =? SLASH
  | [] => false
  end.

(** [os.path.join(a, b)] *)
Definition path_join (a b : str) : str :=
  if isabs b then b
  else match a with
       | [] => b
       | _ => if endswith_slash a then a ++ b else a ++ [SLASH] ++ b
       end.

(** [s.rstrip("/")] *)
Definition rstrip_slash (s : str) : str :=
  rev ((fix drop (l : str) : str :=
          match l with
          | c :: l' => if c =? SLASH then drop l' else l
          | [] => []
          end) (rev s)).

(** The text up to and including the last slash: [p[:p.rfind("/") + 1]]. *)
Fixpoint head_to_last_slash (p : str) : str :=
  match p with
  | [] => []
  | c :: p' =>
      match head_to_last_slash p' with
      | [] => if c =? SLASH then [c] else []
      | h => c :: h
      end
  end.

(** [os.path.dirname] *)
Definition dirname (p : str) : str :=
  let head := head_to_last_slash p in
  if forallb (N.eqb SLASH) head then head else rstrip_slash head.

(** ** A file system

    A canonical path is the list of its components from the root.  The
    file system holds the directories and the text files that exist, the
    working directory of the process and the home directory of the user.
    Paths are resolved lexically: there are no symbolic links and no
    permissions, and a file holds text that decodes. *)
Definition cpath := list str.

Record fs := {
  fs_dirs : list cpath;
  fs_files : list (cpath * str);
  fs_cwd : cpath;
  fs_home : str
}.

Fixpoint cpath_eqb (a b : cpath) : bool :=
  match a, b with
  | [], [] => true
  | x :: a', y :: b' => str_eqb x y && cpath_eqb a' b'
  | _, _ => false
  end.

Definition is_dir_c (f : fs) (c : cpath) : bool :=
  existsb (cpath_eqb c) (fs_dirs f).

Fixpoint file_get (l : list (cpath * str)) (c : cpath) : option str :=
  match l with
  | [] => None
  | (c', t) :: l' => if cpath_eqb c' c then Some t else file_get l' c
  end.

Fixpoint file_set (l : list (cpath * str)) (c : cpath) (t : str)
  : list (cpath * str) :=
  match l with
  | [] => [(c, t)]
  | (c', t') :: l' =>
      if cpath_eqb c' c then (c', t) :: l' else (c', t') :: file_set l' c t
  end.

Definition is_file_c (f : fs) (c : cpath) : bool :=
  match file_get (fs_files f) c with Some _ => true | None => false end.

(** The components of a path text, split at the slashes. *)
Fixpoint split_slash (p : str) : list str :=
  match p with
  | [] => [[]]
  | c :: p' =>
      if c =? SLASH then [] :: split_slash p'
      else match split_slash p' with
           | h :: t => (c :: h) :: t
           | [] => [[c]]
           end
  end.

Definition DOT : str := [46].
Definition DOTDOT : str := [46; 46].

(** Walk the components from a canonical start. *)
Fixpoint walk (start : cpath) (comps : list str) : cpath :=
  match comps with
  | [] => start
  | c :: cs =>
      if str_eqb c [] || str_eqb c DOT then walk start cs
      else if str_eqb c DOTDOT then walk (removelast start) cs
      else walk (start ++ [c]) cs
  end.

(** The canonical path a text denotes for the process; the empty text
    denotes nothing.  Paths are read lexically: there are no symbolic
    links, and [..] cancels the component before it whether or not that
    component exists. *)
Definition resolve (f : fs) (p : str) : option cpath :=
  match p with
  | [] => None
  | _ => Some (walk (if isabs p then [] else fs_cwd f) (split_slash p))
  end.

(** The text of a canonical path, as [os.getcwd] returns it. *)
Definition render (c : cpath) : str :=
  match c with
  | [] => [SLASH]
  | _ => flat_map (fun x => SLASH :: x) c
  end.

(** [os.path.isdir] *)
Definition isdir (f : fs) (p : str) : bool :=
  match resolve f p with
  | Some c => is_dir_c f c
  | None => false
  end.

(** [os.chdir] *)
Definition os_chdir (f : fs) (p : str) : result fs :=
  match resolve f p with
  | None => raise fs FileNotFoundError
  | Some c =>
      if is_dir_c f c then
        Ok {| fs_dirs := fs_dirs f; fs_files := fs_files f;
              fs_cwd := c; fs_home := fs_home f |}
      else if is_file_c f c then raise fs NotADirectoryError
      else raise fs FileNotFoundError
  end.

(** [os.getcwd]: fails when the working directory has been removed. *)
Definition os_getcwd (f : fs) : result str :=
  if is_dir_c f (fs_cwd f) then Ok (render (fs_cwd f))
  else raise str FileNotFoundError.

(** The prefixes of a canonical path, the root first, the path last. *)
Fixpoint prefixes (c : cpath) : list cpath :=
  match c with
  | [] => [[]]
  | x :: c' => [] :: map (cons x) (prefixes c')
  end.

Definition add_dir (ds : list cpath) (c : cpath) : list cpath :=
  if existsb (cpath_eqb c) ds then ds else ds ++ [c].

(** [os.makedirs(p, exist_ok=True)] *)
Definition os_makedirs (f : fs) (p : str) : result fs :=
  match resolve f p with
  | None => raise fs FileNotFoundError
  | Some c =>
      if is_file_c f c then raise fs FileExistsError
      else if existsb (is_file_c f) (prefixes c)
      then raise fs NotADirectoryError
      else Ok {| fs_dirs := fold_left add_dir (prefixes c) (fs_dirs f);
                 fs_files := fs_files f;
                 fs_cwd := fs_cwd f; fs_home := fs_home f |}
  end.

(** [open(p, "w", encoding="utf-8")]: the file is created or truncated. *)
Definition open_w (f : fs) (p : str) : result (cpath * fs) :=
  match resolve f p with
  | None => raise (cpath * fs) FileNotFoundError
  | Some c =>
      if endswith_slash p || is_dir_c f c
      then raise (cpath * fs) IsADirectoryError
      else if is_file_c f (removelast c)
      then raise (cpath * fs) NotADirectoryError
      else if negb (is_dir_c f (removelast c))
      then raise (cpath * fs) FileNotFoundError
      else Ok (c, {| fs_dirs := fs_dirs f;
                     fs_files := file_set (fs_files f) c [];
                     fs_cwd := fs_cwd f; fs_home := fs_home f |})
  end.

(** [f.write(text)] on a file opened for writing: the text is encoded, so
    a lone surrogate is an error. *)
Definition file_write (f : fs) (c : cpath) (text : str) : result fs :=
  if existsb is_surrogate text then raise fs UnicodeError
  else Ok {| fs_dirs := fs_dirs f;
             fs_files := file_set (fs_files f) c text;
             fs_cwd := fs_cwd f; fs_home := fs_home f |}.

(** The newline translation of a text file opened for reading. *)
Fixpoint universal_newlines (s : str) : str :=
  match s with
  | [] => []
  | c :: s' =>
      if c =? 13 then
        match s' with
        | d :: s'' => if d =? 10 then 10 :: universal_newlines s''
                      else 10 :: universal_newlines s'
        | [] => [10]
        end
      else c :: universal_newlines s'
  end.

(** [open(p, "r", encoding="utf-8").read()] *)
Definition read_text (f : fs) (p : str) : result str :=
  match resolve f p with
  | None => raise str FileNotFoundError
  | Some c =>
      if is_dir_c f c then raise str IsADirectoryError
      else match file_get (fs_files f) c with
           | Some t =>
               if endswith_slash p then raise str NotADirectoryError
               else Ok (universal_newlines t)
           | None => raise str FileNotFoundError
           end
  end.

(* ================================================================== *)
(** * Part 6. The state of a session *)
(* ================================================================== *)

(** The context file [~/.coffee_context.json], by what [json.load] makes
    of it: absent, not decodable ([JSONDecodeError]), or the decoded
    document.  [json.dump] writes a document that decodes to itself.  A
    file that is not UTF-8 text is outside the model. *)
Inductive ctx_file :=
| FileMissing
| FileUndecodable
| FileJson (v : json).

(** Everything the program reads and changes.  [w_def_messages] and
    [w_def_chat] are the two list objects held by the module constant
    [DEFAULT_CONTEXT]; [w_confirm] and [w_model] are the answers the user
    and the completion endpoint are going to give, [w_sent] the message
    lists sent to the endpoint so far. *)
Record world := {
  w_fs : fs;
  w_cwd : str;                    (* CURRENT_WORKING_DIRECTORY *)
  w_file : ctx_file;
  w_def_messages : list json;
  w_def_chat : list json;
  w_console : list str;           (* the lines printed, oldest first *)
  w_confirm : list bool;
  w_model : list (result str);
  w_sent : list (list json);
  w_time : pyfloat                (* what [time.time()] returns *)
}.

Definition set_fs (w : world) (f : fs) : world :=
  {| w_fs := f; w_cwd := w_cwd w; w_file := w_file w;
     w_def_messages := w_def_messages w; w_def_chat := w_def_chat w;
     w_console := w_console w; w_confirm := w_confirm w;
     w_model := w_model w; w_sent := w_sent w; w_time := w_time w |}.

Definition set_cwd (w : world) (c : str) : world :=
  {| w_fs := w_fs w; w_cwd := c; w_file := w_file w;
     w_def_messages := w_def_messages w; w_def_chat := w_def_chat w;
     w_console := w_console w; w_confirm := w_confirm w;
     w_model := w_model w; w_sent := w_sent w; w_time := w_time w |}.

Definition set_file (w : world) (c : ctx_file) : world :=
  {| w_fs := w_fs w; w_cwd := w_cwd w; w_file := c;
     w_def_messages := w_def_messages w; w_def_chat := w_def_chat w;
     w_console := w_console w; w_confirm := w_confirm w;
     w_model := w_model w; w_sent := w_sent w; w_time := w_time w |}.

Definition set_def_messages (w : world) (l : list json) : world :=
  {| w_fs := w_fs w; w_cwd := w_cwd w; w_file := w_file w;
     w_def_messages := l; w_def_chat := w_def_chat w;
     w_console := w_console w; w_confirm := w_confirm w;
     w_model := w_model w; w_sent := w_sent w; w_time := w_time w |}.

Definition set_def_chat (w : world) (l : list json) : world :=
  {| w_fs := w_fs w; w_cwd := w_cwd w; w_file := w_file w;
     w_def_messages := w_def_messages w; w_def_chat := l;
     w_console := w_console w; w_confirm := w_confirm w;
     w_model := w_model w; w_sent := w_sent w; w_time := w_time w |}.

Definition set_console (w : world) (l : list str) : world :=
  {| w_fs := w_fs w; w_cwd := w_cwd w; w_file := w_file w;
     w_def_messages := w_def_messages w; w_def_chat := w_def_chat w;
     w_console := l; w_confirm := w_confirm w;
     w_model := w_model w; w_sent := w_sent w; w_time := w_time w |}.

Definition set_confirm (w : world) (l : list bool) : world :=
  {| w_fs := w_fs w; w_cwd := w_cwd w; w_file := w_file w;
     w_def_messages := w_def_messages w; w_def_chat := w_def_chat w;
     w_console := w_console w; w_confirm := l;
     w_model := w_model w; w_sent := w_sent w; w_time := w_time w |}.

Definition set_model (w : world) (l : list (result str))
  (sent : list (list json)) : world :=
  {| w_fs := w_fs w; w_cwd := w_cwd w; w_file := w_file w;
     w_def_messages := w_def_messages w; w_def_chat := w_def_chat w;
     w_console := w_console w; w_confirm := w_confirm w;
     w_model := l; w_sent := sent; w_time := w_time w |}.

(** ** Computations: state and exceptions

    A statement may change the world and then either yield a value or
    raise; what it changed before raising stays changed. *)
Definition M (A : Type) : Type := world -> result A * world.

Definition ret (A : Type) (a : A) : M A := fun w => (Ok a, w).

Definition mbind (A B : Type) (m : M A) (k : A -> M B) : M B :=
  fun w =>
    match m w with
    | (Ok a, w') => k a w'
    | (Raise e, w') => (Raise e, w')
    end.

Definition throw (A : Type) (e : exn) : M A := fun w => (Raise e, w).

(** A pure operation that may raise. *)
Definition lift (A : Type) (r : result A) : M A := fun w => (r, w).

(** [try: m  except Exception as e: h e] *)
Definition try_except (A : Type) (m : M A) (h : exn -> M A) : M A :=
  fun w =>
    match m w with
    | (Ok a, w') => (Ok a, w')
    | (Raise e, w') => h e w'
    end.

Declare Scope m_scope.
Delimit Scope m_scope with m.
Notation "x <~ m ;; k" := (mbind m (fun x => k))
  (at level 100, m at next level, right associativity) : m_scope.
Notation "m ;;; k" := (mbind m (fun _ => k))
  (at level 100, right associativity) : m_scope.
Open Scope m_scope.

(** [console.print(line)], on a line whose markup the console accepts;
    the check that the console makes first is [rich_print] below. *)
Definition print (line : str) : M unit :=
  fun w => (Ok tt, set_console w (w_console w ++ [line])).

(** [typer.confirm(..., default=d)]: the next answer of the user, the
    default when the user has no more to say, that is, presses Enter.  An
    input stream that is closed is outside the model. *)
Definition confirm (default : bool) : M bool :=
  fun w =>
    match w_confirm w with
    | b :: rest => (Ok b, set_confirm w rest)
    | [] => (Ok default, w)
    end.

(** [client.chat.completions.create(messages=...)] followed by
    [.choices[0].message.content]: the request is recorded, the next reply
    of the endpoint is returned or its failure raised. *)
Definition chat_completion (messages : list json) : M str :=
  fun w =>
    match w_model w with
    | r :: rest => (r, set_model w rest (w_sent w ++ [messages]))
    | [] => (raise str APIError, set_model w [] (w_sent w ++ [messages]))
    end.

Fixpoint digits_of_nat (fuel n : nat) (acc : str) : str :=
  match fuel with
  | O => acc
  | S f =>
      let d := N.of_nat (Nat.modulo n 10) + 48 in
      match Nat.div n 10 with
      | O => d :: acc
      | n' => digits_of_nat f n' (d :: acc)
      end
  end.

(** [str(n)] for a natural number. *)
Definition str_of_nat (n : nat) : str := digits_of_nat (S n) n [].

Definition message (role : str) (content : json) : json :=
  JObj [(u "role", JStr role); (u "content", content)].

(** ** The console of [rich]

    [console.print] reads its text as console markup before it shows it:
    [rich.markup.render] scans the text for tags, keeps a stack of the
    tags that are open, and raises [MarkupError] on a closing tag that
    closes nothing.  [print] above is the console on a text that [render]
    accepts; [rich_print] is the console with the check.  The scan is the
    one of [RE_TAGS.finditer], written as a machine over the characters:
    a tag is a bracket, one of [a-z#/@], then the text up to the first
    closing bracket, provided no opening bracket comes before it; a run of
    backslashes before the bracket escapes the tag when its length is
    odd.  How [Style.normalize] rewrites a style name and whether the
    parameters of an [@] tag evaluate are left to the environment. *)
Definition LBRACKET : N := 91.
Definition RBRACKET : N := 93.
Definition BACKSLASH : N := 92.
Definition EQUALS : N := 61.
Definition AT_SIGN : N := 64.

(** The class [[a-z#/@]]. *)
Definition tag_start (c : N) : bool :=
  ((97 <=? c) && (c <=? 122)) || (c =? 35) || (c =? 47) || (c =? AT_SIGN).

(** Where the scan is: in plain text after [bs] backslashes; just after an
    opening bracket at index [pos] that [bs0] backslashes precede; or in
    the text of a tag, of which [text_rev] is read (in reverse) and that
    ends with [bs] backslashes. *)
Inductive scan_state :=
| InText (bs : nat)
| AfterBracket (bs0 pos : nat)
| InTag (bs0 pos : nat) (text_rev : str) (bs : nat).

(** A tag: its name and the parameters after the equals sign, if any. *)
Definition Tag : Type := (str * option str)%type.

(** [tag_text.partition("=")] *)
Fixpoint tag_of (text : str) : Tag :=
  match text with
  | [] => ([], None)
  | c :: text' =>
      if c =? EQUALS then ([], Some text')
      else let (name, parameters) := tag_of text' in (c :: name, parameters)
  end.

(** [tag.markup] *)
Definition tag_markup (t : Tag) : str :=
  match snd t with
  | None => LBRACKET :: fst t ++ [RBRACKET]
  | Some p => LBRACKET :: fst t ++ EQUALS :: p ++ [RBRACKET]
  end.

(** [pop_style]: take out the open tag nearest to the top whose name is
    [name]. *)
Fixpoint pop_style (name : str) (stack : list Tag)
  : option (Tag * list Tag) :=
  match stack with
  | [] => None
  | t :: rest =>
      if str_eqb (fst t) name then Some (t, rest)
      else match pop_style name rest with
           | Some (o, rest') => Some (o, t :: rest')
           | None => None
           end
  end.

Section Rich.

Variable style_normalize : str -> str.
Variable handler_error : str -> option str.

(** What [render] does with the tag found at index [pos]: a closing tag
    pops the stack, an opening tag is pushed under its normalized name. *)
Definition apply_tag (pos : nat) (t : Tag) (stack : list Tag)
  : result (list Tag) :=
  match fst t with
  | 47 :: name =>
      popped <-
        match strip name with
        | [] =>
            match stack with
            | o :: rest => Ok (o, rest)
            | [] =>
                Raise (Exn MarkupError
                         (u "closing tag '[/]' at position "
                          ++ str_of_nat pos ++ u " has nothing to close"))
            end
        | style_name =>
            match pop_style (style_normalize style_name) stack with
            | Some x => Ok x
            | None =>
                Raise (Exn MarkupError
                         (u "closing tag '" ++ tag_markup t
                          ++ u "' at position " ++ str_of_nat pos
                          ++ u " doesn't match any open tag"))
            end
        end ;;
      let '(open_tag, rest) := popped in
      if startswith [AT_SIGN] (fst open_tag) then
        match snd open_tag with
        | Some (c :: p) =>
            match handler_error (c :: p) with
            | Some msg => Raise (Exn MarkupError msg)
            | None => Ok rest
            end
        | _ => Ok rest
        end
      else Ok rest
  | name => Ok ((style_normalize name, snd t) :: stack)
  end.

(** One character [c] at index [i]. *)
Definition scan_step (i : nat) (c : N) (st : scan_state)
  (stack : list Tag) : result (scan_state * list Tag) :=
  let fresh :=
    if c =? BACKSLASH then InText 1
    else if c =? LBRACKET then AfterBracket 0 i
    else InText 0 in
  match st with
  | InText bs =>
      Ok (if c =? BACKSLASH then InText (S bs)
          else if c =? LBRACKET then AfterBracket bs i
          else InText 0, stack)
  | AfterBracket bs0 pos =>
      Ok (if tag_start c then InTag bs0 pos [c] 0 else fresh, stack)
  | InTag bs0 pos text_rev bs =>
      if c =? RBRACKET then
        if Nat.odd bs0 then Ok (InText 0, stack)
        else
          stack' <- apply_tag pos (tag_of (rev text_rev)) stack ;;
          Ok (InText 0, stack')
      else if c =? LBRACKET then Ok (AfterBracket bs i, stack)
      else if c =? BACKSLASH then Ok (InTag bs0 pos (c :: text_rev) (S bs), stack)
      else Ok (InTag bs0 pos (c :: text_rev) 0, stack)
  end.

Fixpoint markup_scan (s : str) (i : nat) (st : scan_state)
  (stack : list Tag) : result (scan_state * list Tag) :=
  match s with
  | [] => Ok (st, stack)
  | c :: s' =>
      match scan_step i c st stack with
      | Ok (st', stack') => markup_scan s' (S i) st' stack'
      | Raise e => Raise e
      end
  end.

(** [rich.markup.render(markup)], for what it raises. *)
Definition markup_render (markup : str) : result unit :=
  match markup_scan markup 0 (InText 0) [] with
  | Ok _ => Ok tt
  | Raise e => Raise e
  end.

(** [console.print(line)] with its check of the markup. *)
Definition rich_print (line : str) : M unit :=
  fun w =>
    match markup_render line with
    | Ok _ => print line w
    | Raise e => (Raise e, w)
    end.

End Rich.

(* ================================================================== *)
(** * Part 7. [context_manager.py] *)
(* ================================================================== *)

(** A value held by the dictionary that [load_context] returns: a value of
    its own, or one of the two list objects of [DEFAULT_CONTEXT], which the
    shallow [copy()] and the backfilling assignment both share with the
    module constant. *)
Inductive slot :=
| Own (v : json)
| DefMessages
| DefChat.

(** What [load_context] returns: a dictionary, or a decoded document that
    is not one. *)
Inductive loaded :=
| LDict (d : list (str * slot))
| LOther (v : json).

Definition K_MESSAGES : str := u "messages".
Definition K_CHAT : str := u "chat_history".

(** [DEFAULT_CONTEXT.copy()] *)
Definition DEFAULT_CONTEXT_copy : loaded :=
  LDict [(K_MESSAGES, DefMessages); (K_CHAT, DefChat)].

Definition deref (w : world) (s : slot) : json :=
  match s with
  | Own v => v
  | DefMessages => JArr (w_def_messages w)
  | DefChat => JArr (w_def_chat w)
  end.

(** The document a loaded context denotes, as [json.dump] writes it. *)
Definition dump (w : world) (c : loaded) : json :=
  match c with
  | LDict d => JObj (map (fun kv => (fst kv, deref w (snd kv))) d)
  | LOther v => v
  end.

Definition of_json (v : json) : loaded :=
  match v with
  | JObj d => LDict (map (fun kv => (fst kv, Own (snd kv))) d)
  | _ => LOther v
  end.

(** [if k not in data: data[k] = v] *)
Definition backfill (k : str) (v : slot) (data : loaded) : result loaded :=
  match data with
  | LDict d => if dict_has d k then Ok data else Ok (LDict (dict_set d k v))
  | LOther x =>
      b <- py_in k x ;;
      if b then Ok data else raise loaded TypeError
  end.

Definition load_context : M loaded :=
  fun w =>
    match w_file w with
    | FileMissing => (Ok DEFAULT_CONTEXT_copy, w)
    | FileUndecodable => (Ok DEFAULT_CONTEXT_copy, w)
    | FileJson data =>
        (d1 <- backfill K_MESSAGES DefMessages (of_json data) ;;
         backfill K_CHAT DefChat d1, w)
    end.

Definition save_context (context : loaded) : M unit :=
  fun w => (Ok tt, set_file w (FileJson (dump w context))).

Definition is_json_command (content : json) : result bool :=
  match content with
  | JStr s =>
      match json_loads s with
      | Ok data =>
          Ok (match data with
              | JObj d => dict_has d (u "command")
              | _ => false
              end)
      | Raise e =>
          if is_kind JSONDecodeError e then
            Ok (existsb
                  (fun r => match re_search r s with
                            | Some _ => true
                            | None => false
                            end)
                  [RE_FENCED_JSON; RE_FENCED; RE_COMMAND_OBJECT])
          else Raise e
      end
  | _ => raise bool TypeError
  end.

(** [context[k]] *)
Definition ctx_getitem (c : loaded) (k : str) : result slot :=
  match c with
  | LDict d => match dict_get d k with
               | Some s => Ok s
               | None => raise slot KeyError
               end
  | LOther _ => raise slot TypeError
  end.

(** [context[k] = v] *)
Definition ctx_setitem (c : loaded) (k : str) (v : slot) : result loaded :=
  match c with
  | LDict d => Ok (LDict (dict_set d k v))
  | LOther _ => raise loaded TypeError
  end.

(** [context[k].append(x)]: the list is changed in place, so a shared
    default list changes for every holder. *)
Definition ctx_append (c : loaded) (k : str) (x : json) : M loaded :=
  fun w =>
    match ctx_getitem c k with
    | Raise e => (Raise e, w)
    | Ok (Own (JArr l)) => (ctx_setitem c k (Own (JArr (l ++ [x]))), w)
    | Ok (Own _) => (raise loaded AttributeError, w)
    | Ok DefMessages => (Ok c, set_def_messages w (w_def_messages w ++ [x]))
    | Ok DefChat => (Ok c, set_def_chat w (w_def_chat w ++ [x]))
    end.

(** [context[k] = context[k][-n:]]: the slice is a new list. *)
Definition ctx_keep_last (c : loaded) (k : str) (n : nat) : M loaded :=
  fun w =>
    match ctx_getitem c k with
    | Raise e => (Raise e, w)
    | Ok s =>
        match deref w s with
        | JArr l => (ctx_setitem c k (Own (JArr (lastn n l))), w)
        | JStr t => (ctx_setitem c k (Own (JStr (lastn n t))), w)
        | _ => (raise loaded TypeError, w)
        end
    end.

Definition add_message (role : str) (content : json) : M unit :=
  skip <~ lift (is_json_command content) ;;
  if (skip : bool) then ret tt
  else
    context <~ load_context ;;
    context <~ ctx_append context K_CHAT (message role content) ;;
    context <~ ctx_keep_last context K_CHAT 10 ;;
    save_context context.

(** [ctx.get("chat_history", [])] *)
Definition get_chat_history : M json :=
  ctx <~ load_context ;;
  fun w =>
    match ctx with
    | LDict d => (Ok (match dict_get d K_CHAT with
                      | Some s => deref w s
                      | None => JArr []
                      end), w)
    | LOther _ => (raise json AttributeError, w)
    end.

Definition get_messages : M json := get_chat_history.

(** [load_context().get("messages", [])] *)
Definition get_recent_commands : M json :=
  ctx <~ load_context ;;
  fun w =>
    match ctx with
    | LDict d => (Ok (match dict_get d K_MESSAGES with
                      | Some s => deref w s
                      | None => JArr []
                      end), w)
    | LOther _ => (raise json AttributeError, w)
    end.

(** The dictionary [add_system_command] appends. *)
Definition command_entry (user_query : str) (command explanation : json)
  (timestamp : pyfloat) : json :=
  JObj [(u "user_query", JStr user_query);
        (u "command", command);
        (u "explanation", explanation);
        (u "timestamp", JFloat timestamp)].

Definition now : M pyfloat := fun w => (Ok (w_time w), w).

Definition add_system_command (user_query : str) (command_data : json)
  : M unit :=
  context <~ load_context ;;
  command <~ lift (py_get command_data (u "command") JNull) ;;
  explanation <~ lift (py_get command_data (u "explanation") JNull) ;;
  timestamp <~ now ;;
  context <~ ctx_append context K_MESSAGES
               (command_entry user_query command explanation timestamp) ;;
  context <~ ctx_keep_last context K_MESSAGES 5 ;;
  save_context context.

(** [add_chat_message]: another name for [add_message]. *)
Definition add_chat_message (role : str) (content : json) : M unit :=
  add_message role content.

(** [clear_messages]: saves a shallow copy of [DEFAULT_CONTEXT]. *)
Definition clear_messages : M unit := save_context DEFAULT_CONTEXT_copy.

(** [len(ctx.get("messages", [])) + len(ctx.get("chat_history", []))] *)
Definition get_message_count : M nat :=
  ctx <~ load_context ;;
  fun w =>
    match ctx with
    | LDict d =>
        let get k := match dict_get d k with
                     | Some s => deref w s
                     | None => JArr []
                     end in
        (n1 <- py_len (get K_MESSAGES) ;;
         n2 <- py_len (get K_CHAT) ;;
         Ok (n1 + n2)%nat, w)
    | LOther _ => (raise nat AttributeError, w)
    end.

(* ================================================================== *)
(** * Part 8. [main.py] *)
(* ================================================================== *)

(** [ExecutionResult]: the dictionary [run_shell_command] returns. *)
Record ExecutionResult := {
  r_command : str;
  r_stdout : str;
  r_stderr : str;
  r_return_code : Z;
  r_summary : str
}.

(** What [subprocess.run] does: the process completes with its captured
    output and return code, or the call raises. *)
Inductive proc_result :=
| Completed (stdout stderr : str) (returncode : Z)
| Failed (e : exn).

(** How the body of a [for] loop ends: it reaches its end (or
    [continue]), or it leaves the loop with [break]. *)
Inductive flow := Next | Break.

Definition CHECK : N := 9989.       (* U+2705 *)
Definition CROSS : N := 10060.      (* U+274C *)
Definition CLIPBOARD : N := 128203. (* U+1F4CB *)
Definition COFFEE : N := 9749.      (* U+2615 *)

Definition nonempty (s : str) : bool :=
  match s with [] => false | _ => true end.

(** [s.split(" ", 1)[1]] *)
Definition split_second (s : str) : result str :=
  match split_space_1 s with
  | _ :: x :: _ => Ok x
  | _ => raise str IndexError
  end.

(** A value used where the code calls a [str] method on it. *)
Definition as_str (v : json) : result str :=
  match v with
  | JStr s => Ok s
  | _ => raise str AttributeError
  end.

(** A value passed to [os.path] or written to a text file. *)
Definition as_text (v : json) : result str :=
  match v with
  | JStr s => Ok s
  | _ => raise str TypeError
  end.

(** ** A sample environment

    A small file system, a session over it and an operating system that
    runs three commands; the examples at the end of the file are evaluated
    in it. *)
Module Sample.

Definition sample_fs : fs :=
  {| fs_dirs := [[]; [u "tmp"]; [u "home"]; [u "home"; u "me"]];
     fs_files := [([u "tmp"; u "old.txt"], u "previous content")];
     fs_cwd := [u "home"; u "me"];
     fs_home := u "/home/me" |}.

Definition sample_world : world :=
  {| w_fs := sample_fs; w_cwd := u "/home/me"; w_file := FileMissing;
     w_def_messages := []; w_def_chat := [];
     w_console := []; w_confirm := []; w_model := []; w_sent := [];
     w_time := FDec 17300000005 (-1) |}.

(** [false] fails with code 1, [sleep 100] runs out of time, any other
    command prints [out] and succeeds. *)
Definition sample_run (powershell : bool) (cmd : str) (timeout : Z)
  (cwd : str) (f : fs) : proc_result * fs :=
  if str_eqb cmd (u "false") then (Completed [] (u "boom") 1%Z, f)
  else if str_eqb cmd (u "sleep 100")
  then (Failed (Exn TimeoutExpired (u "timed out")), f)
  else (Completed (u "out") [] 0%Z, f).


(** A console whose style names are in normal form as written and whose
    [@] tags carry no parameter that fails to evaluate. *)
Definition sample_normalize (style : str) : str := style.
Definition sample_handler (parameters : str) : option str := None.

Definition sample_repr (v : json) : str := u "<value>".
Definition sample_summary_prompt (a b c d e : str) : str := a ++ b ++ c.
Definition sample_troubleshooting_prompt (a b c : str) : str := a ++ b ++ c.

Definition command_step (c : string) : json :=
  JObj [(u "command", JStr (u c))].
Definition write_step (p : str) (c : string) : json :=
  JObj [(u "write_file",
         JObj [(u "path", JStr p); (u "content", JStr (u c))])].
Definition read_step (p : str) : json :=
  JObj [(u "read_file", JObj [(u "path", JStr p)])].

(** Ten chat turns and five recorded commands. *)
Definition ten_turns : list json :=
  map (fun n => message (u "user") (JStr (str_of_nat n))) (seq 1 10).

Definition five_commands : list json :=
  map (fun n => command_entry (str_of_nat n) (JStr (u "ls")) JNull (FDec 0 0))
      (seq 1 5).

End Sample.

Section Main.

(** The environment of the program: the platform name, whether the API
    key is set, the text Python shows for a value that is not a string,
    the prompt texts, and the operating system running a command. *)
Variable OS_TYPE : str.
Variable GROQ_API_KEY : bool.
Variable py_repr : json -> str.
Variable SYSTEM_PROMPT : str.
Variable SUMMARY_PROMPT : str -> str -> str -> str -> str -> str.
Variable TROUBLESHOOTING_PROMPT : str -> str -> str -> str.
Variable subprocess_run : bool -> str -> Z -> str -> fs -> proc_result * fs.

(** A value interpolated in an f-string. *)
Definition fmt (v : json) : str :=
  match v with
  | JStr s => s
  | _ => py_repr v
  end.

Definition _extract_json_from_text (text : str) : option json :=
  match text with
  | [] => None
  | _ =>
      match json_loads text with
      | Ok v => Some v
      | Raise _ =>
          match
            match re_search RE_FENCED_JSON_I text with
            | Some g => match json_loads g with
                        | Ok v => Some v
                        | Raise _ => None
                        end
            | None => None
            end
          with
          | Some v => Some v
          | None =>
              match re_search RE_BRACES text with
              | Some g => match json_loads g with
                          | Ok v => Some v
                          | Raise _ => None
                          end
              | None => None
              end
          end
      end
  end.

Definition get_ai_summary (command stdout stderr : str) (return_code : Z)
  (user_message : str) : M str :=
  if negb (nonempty stdout) && negb (nonempty stderr)
  then ret (u "The command finished with no visible output.")
  else
    let status := if (return_code =? 0)%Z then u "succeeded"
                  else u "failed" in
    let summary_prompt :=
      SUMMARY_PROMPT
        (if nonempty user_message then user_message
         else u "No specific request provided")
        command status (firstn 2000 stdout) (firstn 2000 stderr) in
    try_except
      (reply <~ chat_completion
                  [message (u "system")
                     (JStr (u "You explain terminal results in plain, concise sentences. Always user-friendly, no meta labels."));
                   message (u "user") (JStr summary_prompt)] ;;
       ret (strip reply))
      (fun e => ret (u "(Could not generate result: " ++ exn_msg e ++ u ")")).

Definition windows : bool := str_contains (u "windows") OS_TYPE.

(** The rewriting of [touch NAME] on Windows. *)
Definition rewrite_touch (cmd : str) : result str :=
  if windows && startswith (u "touch ") cmd then
    filename <- split_second cmd ;;
    Ok (u "New-Item " ++ filename ++ u " -ItemType File")
  else Ok cmd.

Definition subprocess (cmd : str) (timeout : Z) : M (str * str * Z) :=
  fun w =>
    let (r, f) := subprocess_run windows cmd timeout (w_cwd w) (w_fs w) in
    (match r with
     | Completed out err rc => Ok (out, err, rc)
     | Failed e => Raise e
     end, set_fs w f).

Definition run_shell_command (cmd : str) (timeout : Z) (user_message : str)
  : M ExecutionResult :=
  print (u "[cyan]Running:[/cyan] " ++ cmd) ;;;
  let cmd_after := match rewrite_touch cmd with
                   | Ok c => c
                   | Raise _ => cmd
                   end in
  try_except
    (cmd <~ lift (rewrite_touch cmd) ;;
     proc <~ subprocess cmd timeout ;;
     let '(stdout, stderr, return_code) := proc in
     (if nonempty stdout
      then print (NL :: u "[green]Output:[/green]" ++ NL :: strip stdout)
      else ret tt) ;;;
     (if nonempty stderr
      then print (NL :: u "[red]Error:[/red]" ++ NL :: strip stderr)
      else ret tt) ;;;
     summary <~ get_ai_summary cmd stdout stderr return_code user_message ;;
     print (NL :: u "[yellow]" ++ summary ++ u "[/yellow]" ++ [NL]) ;;;
     ret {| r_command := cmd; r_stdout := stdout; r_stderr := stderr;
            r_return_code := return_code; r_summary := summary |})
    (fun e =>
       if is_kind TimeoutExpired e then
         let msg := u "The command took too long and was stopped." in
         print (u "[red]" ++ msg ++ u "[/red]") ;;;
         ret {| r_command := cmd_after; r_stdout := []; r_stderr := msg;
                r_return_code := (-1)%Z; r_summary := msg |}
       else
         print (u "[red]Failed to execute: " ++ exn_msg e ++ u "[/red]") ;;;
         ret {| r_command := cmd_after; r_stdout := [];
                r_stderr := exn_msg e;
                r_return_code := (-1)%Z; r_summary := exn_msg e |}).

(** [run_shell_command] over the console [pr]: the same statements, with
    [pr] for [console.print]. *)
Definition run_shell_command_with (pr : str -> M unit) (cmd : str)
  (timeout : Z) (user_message : str) : M ExecutionResult :=
  pr (u "[cyan]Running:[/cyan] " ++ cmd) ;;;
  let cmd_after := match rewrite_touch cmd with
                   | Ok c => c
                   | Raise _ => cmd
                   end in
  try_except
    (cmd <~ lift (rewrite_touch cmd) ;;
     proc <~ subprocess cmd timeout ;;
     let '(stdout, stderr, return_code) := proc in
     (if nonempty stdout
      then pr (NL :: u "[green]Output:[/green]" ++ NL :: strip stdout)
      else ret tt) ;;;
     (if nonempty stderr
      then pr (NL :: u "[red]Error:[/red]" ++ NL :: strip stderr)
      else ret tt) ;;;
     summary <~ get_ai_summary cmd stdout stderr return_code user_message ;;
     pr (NL :: u "[yellow]" ++ summary ++ u "[/yellow]" ++ [NL]) ;;;
     ret {| r_command := cmd; r_stdout := stdout; r_stderr := stderr;
            r_return_code := return_code; r_summary := summary |})
    (fun e =>
       if is_kind TimeoutExpired e then
         let msg := u "The command took too long and was stopped." in
         pr (u "[red]" ++ msg ++ u "[/red]") ;;;
         ret {| r_command := cmd_after; r_stdout := []; r_stderr := msg;
                r_return_code := (-1)%Z; r_summary := msg |}
       else
         pr (u "[red]Failed to execute: " ++ exn_msg e ++ u "[/red]") ;;;
         ret {| r_command := cmd_after; r_stdout := [];
                r_stderr := exn_msg e;
                r_return_code := (-1)%Z; r_summary := exn_msg e |}).

(** ** Changing directory

    The [try] statement that handles a command of the form [cd DIR]; the
    source has it three times ([execute_plan], [process_ai_response],
    [coffee_shell]), the last one without the line that announces the
    new directory. *)

(** [os.chdir(target_dir); CURRENT_WORKING_DIRECTORY = os.getcwd()] *)
Definition chdir_and_record (target_dir : str) : M unit :=
  fun w =>
    match os_chdir (w_fs w) target_dir with
    | Raise e => (Raise e, w)
    | Ok f =>
        match os_getcwd f with
        | Raise e => (Raise e, set_fs w f)
        | Ok c => (Ok tt, set_cwd (set_fs w f) c)
        end
    end.

Definition cd_target (w : world) (arg : str) : str :=
  let target_dir :=
    if str_eqb arg (u "~") then fs_home (w_fs w) else arg in
  if isabs target_dir then target_dir
  else path_join (w_cwd w) target_dir.

Definition handle_cd (announce : bool) (cmd : str) : M unit :=
  fun w =>
    match split_second cmd with
    | Raise e =>
        print (u "[red]Error changing directory: " ++ exn_msg e
               ++ u "[/red]") w
    | Ok arg =>
        let target_dir := cd_target w arg in
        try_except
          (chdir_and_record target_dir ;;;
           if announce then
             fun w' => print (u "[green]Changed directory to: "
                              ++ w_cwd w' ++ u "[/green]") w'
           else ret tt)
          (fun e =>
             if is_kind FileNotFoundError e
             then print (u "[red]Error: Directory not found: "
                         ++ target_dir ++ u "[/red]")
             else print (u "[red]Error changing directory: "
                         ++ exn_msg e ++ u "[/red]")) w
    end.

(** ** [execute_plan] *)

Definition step_header (idx total : nat) : str :=
  u "[bold cyan]Step " ++ str_of_nat idx ++ u "/" ++ str_of_nat total
  ++ u ":[/bold cyan] ".

Definition step_failed_notice (idx : nat) : str :=
  u "[red]Step " ++ str_of_nat idx ++ u " failed, stopping execution.[/red]".

(** The path a file step works on: joined to the working directory
    unless absolute.  A path that is not a string makes [os.path.isabs]
    raise, and is left as it is. *)
Definition step_path (w : world) (path : json) : json :=
  match path with
  | JStr p => JStr (if isabs p then p else path_join (w_cwd w) p)
  | _ => path
  end.

(** The body of the [try] of a file-writing step, for the path already
    joined. *)
Definition write_file_body (path' content : json) : M unit :=
  p <~ lift (as_text path') ;;
  (fun w => match os_makedirs (w_fs w) (dirname p) with
            | Ok f => (Ok tt, set_fs w f)
            | Raise e => (Raise e, w)
            end) ;;;
  c <~ (fun w => match open_w (w_fs w) p with
                 | Ok (c, f) => (Ok c, set_fs w f)
                 | Raise e => (Raise e, w)
                 end) ;;
  text <~ lift (as_text content) ;;
  (fun w => match file_write (w_fs w) c text with
            | Ok f => (Ok tt, set_fs w f)
            | Raise e => (Raise e, w)
            end) ;;;
  print (u "[green]" ++ [CHECK] ++ u " File " ++ p
         ++ u " written successfully ("
         ++ str_of_nat (List.length text) ++ u " characters).[/green]"
         ++ [NL]).

Definition write_failed_notice (path' : json) (e : exn) : str :=
  u "[red]" ++ [CROSS] ++ u " Failed to write file " ++ fmt path'
  ++ u ": " ++ exn_msg e ++ u "[/red]" ++ [NL].

Definition write_file_step (path content : json) : M flow :=
  fun w =>
    let path' := step_path w path in
    try_except
      (write_file_body path' content ;;; ret Next)
      (fun e => print (write_failed_notice path' e) ;;; ret Break) w.

(** The body of the [try] of a file-reading step; it yields the content
    read, which the step only measures. *)
Definition read_file_body (path' : json) : M str :=
  p <~ lift (as_text path') ;;
  content <~ (fun w => (read_text (w_fs w) p, w)) ;;
  print (u "[green]" ++ [CHECK] ++ u " File " ++ p
         ++ u " read successfully ("
         ++ str_of_nat (List.length content)
         ++ u " characters).[/green]" ++ [NL]) ;;;
  ret content.

Definition read_failed_notice (path' : json) (e : exn) : str :=
  u "[red]" ++ [CROSS] ++ u " Failed to read file " ++ fmt path'
  ++ u ": " ++ exn_msg e ++ u "[/red]" ++ [NL].

Definition read_file_step (path : json) : M flow :=
  fun w =>
    let path' := step_path w path in
    try_except
      (read_file_body path' ;;; ret Next)
      (fun e => print (read_failed_notice path' e) ;;; ret Break) w.

(** The body of the loop of [execute_plan] for step [idx] of [total]. *)
Definition plan_step (total : nat) (user_message : str) (idx : nat)
  (step : json) : M flow :=
  explanation <~ lift (py_get step (u "explanation")
                         (JStr (u "Step " ++ str_of_nat idx))) ;;
  is_command <~ lift (py_in (u "command") step) ;;
  if (is_command : bool) then
    cmd <~ lift (py_getitem step (u "command")) ;;
    print (step_header idx total ++ fmt explanation) ;;;
    cmd <~ lift (as_str cmd) ;;
    if startswith (u "cd ") cmd then
      handle_cd true cmd ;;;
      ret Next
    else
      result <~ run_shell_command cmd 60 user_message ;;
      if negb (r_return_code result =? 0)%Z then
        print (step_failed_notice idx) ;;;
        ret Break
      else ret Next
  else
    is_write <~ lift (py_in (u "write_file") step) ;;
    if (is_write : bool) then
      wf <~ lift (py_getitem step (u "write_file")) ;;
      path <~ lift (py_get wf (u "path") JNull) ;;
      content <~ lift (py_get wf (u "content") (JStr [])) ;;
      print (step_header idx total ++ u "Writing file " ++ fmt path) ;;;
      print (u "[dim]" ++ fmt explanation ++ u "[/dim]") ;;;
      write_file_step path content
    else
      is_read <~ lift (py_in (u "read_file") step) ;;
      if (is_read : bool) then
        rf <~ lift (py_getitem step (u "read_file")) ;;
        path <~ lift (py_get rf (u "path") JNull) ;;
        print (step_header idx total ++ u "Reading file " ++ fmt path) ;;;
        print (u "[dim]" ++ fmt explanation ++ u "[/dim]") ;;;
        read_file_step path
      else ret Next.

(** [for idx, step in enumerate(steps, start=idx): ...]; the result
    tells whether the loop was left by [break]. *)
Fixpoint run_steps (total : nat) (user_message : str) (idx : nat)
  (steps : list json) : M flow :=
  match steps with
  | [] => ret Next
  | step :: rest =>
      fl <~ plan_step total user_message idx step ;;
      match fl with
      | Next => run_steps total user_message (S idx) rest
      | Break => ret Break
      end
  end.

Definition FLOW_COMPLETED : str :=
  NL :: u "[bold green]" ++ [CHECK] ++ u " Flow completed.[/bold green]"
  ++ [NL].

Definition execute_plan (plan : json) (user_message : str) : M unit :=
  steps <~ lift (py_get plan (u "plan") (JArr [])) ;;
  if negb (py_truthy steps) then
    print (u "[red]No valid plan generated.[/red]")
  else
    total <~ lift (py_len steps) ;;
    print (u "[cyan]Executing " ++ str_of_nat total ++ u " steps...[/cyan]"
           ++ [NL]) ;;;
    items <~ lift (py_iter steps) ;;
    run_steps total user_message 1 items ;;;
    print FLOW_COMPLETED.

(** ** [call_groq] *)

Definition call_groq (prompt : str) : M (option str) :=
  if negb GROQ_API_KEY then
    print (u "[red]GROQ_API_KEY not set.[/red]") ;;;
    ret None
  else
    history <~ get_messages ;;
    history <~ lift (py_iter history) ;;
    let messages :=
      [message (u "system") (JStr SYSTEM_PROMPT)] ++ history
      ++ [message (u "user") (JStr prompt)] in
    try_except
      (reply <~ chat_completion messages ;;
       let ai_reply := strip reply in
       add_message (u "user") (JStr prompt) ;;;
       ret (Some ai_reply))
      (fun e =>
         print (u "[red]Groq API Error: " ++ exn_msg e ++ u "[/red]") ;;;
         ret None).

(** ** [plan_tasks]

    The prompt is an f-string: the request of the user and the directory
    of the session between literal parts, the doubled braces of the source
    being single braces in the text. *)
Definition PLANNING_PART_0 : str := NL :: u "The user wants to: " ++ [DQ].

Definition PLANNING_PART_1 : str :=
  DQ :: NL :: u "The current working directory is: " ++ [DQ].

Definition PLANNING_PART_2 : str :=
  DQ :: [NL; NL]
  ++ u "Create a step-by-step plan in JSON format to achieve this." ++ [NL]
  ++ u "Each step should be one of:" ++ [NL]
  ++ u "- {" ++ q "command" ++ u ": " ++ q "..." ++ u ", "
  ++ q "explanation" ++ u ": " ++ q "..." ++ u "}" ++ [NL]
  ++ u "- {" ++ q "write_file" ++ u ": {" ++ q "path" ++ u ": " ++ q "..."
  ++ u ", " ++ q "content" ++ u ": " ++ q "..." ++ u "}, "
  ++ q "explanation" ++ u ": " ++ q "..." ++ u "}" ++ [NL]
  ++ u "- {" ++ q "read_file" ++ u ": {" ++ q "path" ++ u ": " ++ q "..."
  ++ u "}, " ++ q "explanation" ++ u ": " ++ q "..." ++ u "}" ++ [NL; NL]
  ++ u "Make sure steps are clear, sequential, and safe. Use `cd` to change directories when necessary."
  ++ [NL].

Definition planning_text (user_request cwd : str) : str :=
  PLANNING_PART_0 ++ user_request ++ PLANNING_PART_1 ++ cwd
  ++ PLANNING_PART_2.

(** [_extract_json_from_text(call_groq(planning_prompt))]; without a
    reply there is no text and no plan. *)
Definition plan_tasks (user_request : str) : M (option json) :=
  fun w =>
    (response <~ call_groq (planning_text user_request (w_cwd w)) ;;
     ret (match response with
          | Some text => _extract_json_from_text text
          | None => None
          end)) w.

(** ** [process_ai_response] and [troubleshoot_and_retry] *)

(** The preview text of the content of a file to write:
    [c[:100] + "..." if len(c) > 100 else c]. *)
Definition content_preview (content : json) : result json :=
  n <- py_len content ;;
  if (100 <? n)%nat then
    match content with
    | JStr s => Ok (JStr (firstn 100 s ++ u "..."))
    | _ => raise json TypeError
    end
  else Ok content.

(** The body of the loop that previews the steps of a plan. *)
Definition preview_step (i : nat) (step : json) : M unit :=
  let no_explanation := JStr (u "No explanation") in
  is_command <~ lift (py_in (u "command") step) ;;
  if (is_command : bool) then
    c <~ lift (py_get step (u "command") (JStr (u "N/A"))) ;;
    print (u "  " ++ str_of_nat i ++ u ". [bold]Command:[/bold] " ++ fmt c) ;;;
    e <~ lift (py_get step (u "explanation") no_explanation) ;;
    print (u "     [dim]" ++ fmt e ++ u "[/dim]")
  else
    is_write <~ lift (py_in (u "write_file") step) ;;
    if (is_write : bool) then
      wf <~ lift (py_getitem step (u "write_file")) ;;
      path <~ lift (py_get wf (u "path") (JStr (u "N/A"))) ;;
      content <~ lift (py_get wf (u "content") (JStr [])) ;;
      preview <~ lift (content_preview content) ;;
      print (u "  " ++ str_of_nat i ++ u ". [bold]Write file:[/bold] "
             ++ fmt path) ;;;
      e <~ lift (py_get step (u "explanation") no_explanation) ;;
      print (u "     [dim]" ++ fmt e ++ u "[/dim]") ;;;
      print (u "     [dim]Content preview: " ++ fmt preview ++ u "[/dim]")
    else
      is_read <~ lift (py_in (u "read_file") step) ;;
      if (is_read : bool) then
        rf <~ lift (py_getitem step (u "read_file")) ;;
        path <~ lift (py_get rf (u "path") (JStr (u "N/A"))) ;;
        print (u "  " ++ str_of_nat i ++ u ". [bold]Read file:[/bold] "
               ++ fmt path) ;;;
        e <~ lift (py_get step (u "explanation") no_explanation) ;;
        print (u "     [dim]" ++ fmt e ++ u "[/dim]")
      else
        print (u "  " ++ str_of_nat i ++ u ". [bold]Unknown step:[/bold] "
               ++ py_repr step).

Fixpoint preview_steps (i : nat) (steps : list json) : M unit :=
  match steps with
  | [] => ret tt
  | step :: rest => preview_step i step ;;; preview_steps (S i) rest
  end.

(** The branch of [process_ai_response] for a reply with a [plan]. *)
Definition plan_branch (action : json) (user_query : str) : M unit :=
  plan_steps <~ lift (py_get action (u "plan") (JArr [])) ;;
  n <~ lift (py_len plan_steps) ;;
  print (u "[cyan]" ++ [CLIPBOARD] ++ u " Plan detected with "
         ++ str_of_nat n ++ u " steps:[/cyan]") ;;;
  items <~ lift (py_iter plan_steps) ;;
  preview_steps 1 items ;;;
  yes <~ confirm true ;;
  if (yes : bool) then
    execute_plan action user_query ;;;
    add_message (u "assistant")
      (JStr (u "Executed plan with " ++ str_of_nat n ++ u " steps for: "
             ++ user_query))
  else print (u "[yellow]Plan execution cancelled.[/yellow]").

Definition troubleshoot_and_retry (recur : str -> str -> M unit)
  (failed_result : ExecutionResult) (user_query : str) : M unit :=
  print (NL :: u "[bold yellow]The command failed. Attempting to troubleshoot...[/bold yellow]") ;;;
  let prompt := TROUBLESHOOTING_PROMPT (r_command failed_result)
                  user_query (r_stderr failed_result) in
  ai_suggestion <~ call_groq prompt ;;
  match ai_suggestion with
  | Some (c :: s) =>
      print (NL :: u "[bold cyan]I have a suggestion for a fix:[/bold cyan]") ;;;
      recur (c :: s) user_query
  | _ =>
      print (u "[red]Sorry, I couldn't figure out how to fix the command.[/red]")
  end.

(** The branch of [process_ai_response] for a reply with a [command]
    and no [plan]. *)
Definition command_branch (recur : str -> str -> M unit) (action : json)
  (user_query : str) : M unit :=
  cmd <~ lift (py_get action (u "command") JNull) ;;
  explanation <~ lift (py_get action (u "explanation") (JStr [])) ;;
  (if py_truthy explanation
   then print (u "[cyan]" ++ fmt explanation ++ u "[/cyan]")
   else ret tt) ;;;
  cmd <~ lift (as_str cmd) ;;
  if startswith (u "cd ") cmd then handle_cd true cmd
  else
    yes <~ confirm false ;;
    if (yes : bool) then
      result <~ run_shell_command cmd 60 user_query ;;
      add_system_command user_query
        (JObj [(u "command", JStr cmd); (u "explanation", explanation)]) ;;;
      add_message (u "assistant") (JStr (r_summary result)) ;;;
      if negb (r_return_code result =? 0)%Z
      then troubleshoot_and_retry recur result user_query
      else ret tt
    else print (u "[yellow]Command not executed.[/yellow]").

(** The branch for a reply whose [done] is set. *)
Definition done_branch (action : json) : M unit :=
  explanation <~ lift (py_get action (u "explanation")
                         (JStr (u "Task completed"))) ;;
  print (u "[green]" ++ [CHECK] ++ u " " ++ fmt explanation ++ u "[/green]") ;;;
  add_message (u "assistant") explanation.

(** What is done with a reply that is plain text, and with a decoded
    reply of no recognised shape. *)
Definition plain_text_branch (ai_out : str) : M unit :=
  print (u "[yellow]" ++ ai_out ++ u "[/yellow]") ;;;
  add_message (u "assistant") (JStr ai_out).

Definition unrecognized_branch (action : json) (ai_out : str) : M unit :=
  print (u "[red]Unrecognized response format: " ++ fmt action
         ++ u "[/red]") ;;;
  print (u "[yellow]" ++ ai_out ++ u "[/yellow]") ;;;
  add_message (u "assistant") (JStr ai_out).

(** [depth] is the number of nested calls the interpreter still allows;
    the only recursion is through [troubleshoot_and_retry]. *)
Fixpoint process_ai_response (depth : nat) (ai_out : str) (user_query : str)
  : M unit :=
  match depth with
  | O => throw unit (Exn RecursionError [])
  | S d =>
      match _extract_json_from_text ai_out with
      | None => plain_text_branch ai_out
      | Some action =>
          if negb (py_truthy action) then plain_text_branch ai_out
          else
            has_plan <~ lift (py_in (u "plan") action) ;;
            if (has_plan : bool) then plan_branch action user_query
            else
              has_command <~ lift (py_in (u "command") action) ;;
              if (has_command : bool)
              then command_branch (process_ai_response d) action user_query
              else
                has_done <~ lift (py_in (u "done") action) ;;
                is_done <~ (if (has_done : bool)
                            then flag <~ lift (py_get action (u "done")
                                                 JNull) ;;
                                 ret (py_truthy flag)
                            else ret false) ;;
                if (is_done : bool) then done_branch action
                else unrecognized_branch action ai_out
      end
  end.

(** ** [coffee_shell] *)

(** What [console.input] yields: a line, or an interrupt
    ([KeyboardInterrupt], [EOFError]). *)
Inductive input :=
| Line (text : str)
| Interrupt.

Definition lower_in (s : str) (words : list str) : bool :=
  existsb (str_eqb (map ascii_lower s)) words.

(** One turn of the loop for the line read; [Break] leaves the loop.  The
    prompt shown by [console.input] and the clearing of the screen are
    display only and leave the state as it is. *)
Definition shell_turn (depth : nat) (line : str) : M flow :=
  let query := strip line in
  if negb (nonempty query) then ret Next
  else if lower_in query [u "exit"; u "quit"] then ret Break
  else if lower_in query [u "clear"; u "cls"] then ret Next
  else if startswith [SLASH] query then
    let command_to_run := strip (tl query) in
    (if nonempty command_to_run then
       yes <~ confirm false ;;
       if (yes : bool)
       then run_shell_command command_to_run 60 query ;;; ret tt
       else ret tt
     else ret tt) ;;;
    ret Next
  else if startswith (u "cd ") query then
    handle_cd false query ;;;
    ret Next
  else
    ai_response <~ call_groq query ;;
    match ai_response with
    | Some (c :: s) => process_ai_response depth (c :: s) query ;;; ret Next
    | _ => ret Next
    end.

Definition GOODBYE : str :=
  NL :: u "[bold cyan]" ++ [COFFEE] ++ u " Goodbye![/bold cyan]" ++ [NL].

(** The loop of the shell over the inputs to come; an exception raised by
    a turn is printed and the loop goes on. *)
Fixpoint shell_loop (depth : nat) (inputs : list input) : M unit :=
  match inputs with
  | [] => ret tt
  | Interrupt :: _ => ret tt
  | Line text :: rest =>
      fl <~ try_except (shell_turn depth text)
              (fun e =>
                 print (u "[red]Unexpected error: " ++ exn_msg e
                        ++ u "[/red]") ;;;
                 ret Next) ;;
      match fl with
      | Next => shell_loop depth rest
      | Break => ret tt
      end
  end.

Definition coffee_shell (depth : nat) (inputs : list input) : M unit :=
  print (NL :: u "[bold cyan]" ++ [COFFEE] ++ u " Coffee Terminal "
         ++ [8212] ++ u " Interactive Shell[/bold cyan]" ++ [NL]) ;;;
  print (u "[dim]Type a request or prefix with '/' to run a direct command.[/dim]") ;;;
  print (u "[dim]Type 'exit' or 'quit' to leave." ++ [NL] ++ u "[/dim]") ;;;
  shell_loop depth inputs ;;;
  print GOODBYE.


(** ** [reset]

    The command that clears the memory: it saves a context with two new
    empty lists. *)
Definition reset : M unit :=
  save_context (LDict [(K_MESSAGES, Own (JArr [])); (K_CHAT, Own (JArr []))]) ;;;
  print (u "[yellow]Conversation memory cleared.[/yellow]").

(** ** The text of the troubleshooting prompt

    [TROUBLESHOOTING_PROMPT.format(command=..., user_message=...,
    stderr=...)]: the literal parts of the module constant between its
    three fields, the doubled braces of the template being single braces
    in the text. *)
Definition TROUBLESHOOTING_PART_0 : str :=
  NL :: u "A user tried to run the command: `".

Definition TROUBLESHOOTING_PART_1 : str :=
  u "` to accomplish the following task: " ++ [DQ].

Definition TROUBLESHOOTING_PART_2 : str :=
  DQ :: u "." ++ [NL; NL]
  ++ u "The command failed with the following error:" ++ [NL]
  ++ u "---" ++ [NL].

Definition TROUBLESHOOTING_PART_3 : str :=
  NL :: u "---" ++ [NL; NL]
  ++ u "Please analyze the error and suggest a corrected command." ++ [NL]
  ++ u "Respond in the following JSON format:" ++ [NL]
  ++ u "{" ++ [NL]
  ++ u "  " ++ q "command" ++ u ": " ++ q "CORRECTED SHELL COMMAND"
  ++ u "," ++ [NL]
  ++ u "  " ++ q "explanation" ++ u ": "
  ++ q "short explanation of what was wrong and how you fixed it" ++ [NL]
  ++ u "}" ++ [NL]
  ++ u "If you cannot suggest a fix, respond with a plain text message explaining the issue."
  ++ [NL].

Definition troubleshooting_text (command user_message stderr : str) : str :=
  TROUBLESHOOTING_PART_0 ++ command ++ TROUBLESHOOTING_PART_1
  ++ user_message ++ TROUBLESHOOTING_PART_2 ++ stderr
  ++ TROUBLESHOOTING_PART_3.

(** ** Vocabulary of the properties *)

(** The command the executor runs and reports: the command given, or its
    rewriting on Windows. *)
Definition effective_command (cmd : str) : str :=
  match rewrite_touch cmd with
  | Ok c => c
  | Raise _ => cmd
  end.

(** Whether a decoded object has a [done] entry that is set. *)
Definition done_is_set (d : list (str * json)) : bool :=
  match dict_get d (u "done") with
  | Some v => py_truthy v
  | None => false
  end.

(** The list the context file holds under a key, when the file holds an
    object with a list there. *)
Definition persisted (k : str) (w : world) : option (list json) :=
  match w_file w with
  | FileJson (JObj d) =>
      match dict_get d k with
      | Some (JArr l) => Some l
      | _ => None
      end
  | _ => None
  end.

(** A text matches one of the three patterns of [is_json_command]. *)
Definition matches_command_pattern (s : str) : bool :=
  existsb (fun r => match re_search r s with
                    | Some _ => true
                    | None => false
                    end)
    [RE_FENCED_JSON; RE_FENCED; RE_COMMAND_OBJECT].

(** A slot under a key of a loaded context is a value of the file or the
    default list of that key. *)
Definition slot_for (k : str) (s : slot) : Prop :=
  (exists v, s = Own v) \/
  (k = K_MESSAGES /\ s = DefMessages) \/ (k = K_CHAT /\ s = DefChat).

(** ** The shape of a plan step *)

Definition explanation_of (idx : nat) (d : list (str * json)) : json :=
  match dict_get d (u "explanation") with
  | Some e => e
  | None => JStr (u "Step " ++ str_of_nat idx)
  end.

(** A step that runs a command: an object whose [command] is a string. *)
Definition command_of (step : json) : option str :=
  match step with
  | JObj d => match dict_get d (u "command") with
              | Some (JStr c) => Some c
              | _ => None
              end
  | _ => None
  end.

(** A step that writes a file: an object without [command] whose
    [write_file] is an object; its path and content. *)
Definition write_of (step : json) : option (json * json) :=
  match step with
  | JObj d =>
      match dict_get d (u "command"), dict_get d (u "write_file") with
      | None, Some (JObj wf) =>
          Some (match dict_get wf (u "path") with
                | Some p => p
                | None => JNull
                end,
                match dict_get wf (u "content") with
                | Some c => c
                | None => JStr []
                end)
      | _, _ => None
      end
  | _ => None
  end.

(** A step that reads a file: an object without [command] and
    [write_file] whose [read_file] is an object; its path. *)
Definition read_of (step : json) : option json :=
  match step with
  | JObj d =>
      match dict_get d (u "command"), dict_get d (u "write_file"),
            dict_get d (u "read_file") with
      | None, None, Some (JObj rf) =>
          Some (match dict_get rf (u "path") with
                | Some p => p
                | None => JNull
                end)
      | _, _, _ => None
      end
  | _ => None
  end.

Definition step_explanation (idx : nat) (step : json) : json :=
  match step with
  | JObj d => explanation_of idx d
  | _ => JNull
  end.

Definition printed (w : world) (lines : list str) : world :=
  set_console w (w_console w ++ lines).

(** Step [idx] of [total] fails in [w], leaving [w'] with [notice] as the
    last line printed: a command that is not a [cd] and for which the
    executor reports a return code other than 0, or a file step whose
    [try] body raises. *)
Inductive step_fails (total : nat) (user_message : str) (idx : nat)
  (step : json) (w : world) : world -> str -> Prop :=
| command_fails (cmd : str) (res : ExecutionResult) (w2 : world) :
    command_of step = Some cmd ->
    startswith (u "cd ") cmd = false ->
    run_shell_command cmd 60 user_message
      (printed w [step_header idx total ++ fmt (step_explanation idx step)])
    = (Ok res, w2) ->
    r_return_code res <> 0%Z ->
    step_fails total user_message idx step w
      (printed w2 [step_failed_notice idx]) (step_failed_notice idx)
| write_fails (path content : json) (e : exn) (w2 : world) :
    write_of step = Some (path, content) ->
    write_file_body (step_path w path) content
      (printed w [step_header idx total ++ u "Writing file " ++ fmt path;
                  u "[dim]" ++ fmt (step_explanation idx step) ++ u "[/dim]"])
    = (Raise e, w2) ->
    step_fails total user_message idx step w
      (printed w2 [write_failed_notice (step_path w path) e])
      (write_failed_notice (step_path w path) e)
| read_fails (path : json) (e : exn) (w2 : world) :
    read_of step = Some path ->
    read_file_body (step_path w path)
      (printed w [step_header idx total ++ u "Reading file " ++ fmt path;
                  u "[dim]" ++ fmt (step_explanation idx step) ++ u "[/dim]"])
    = (Raise e, w2) ->
    step_fails total user_message idx step w
      (printed w2 [read_failed_notice (step_path w path) e])
      (read_failed_notice (step_path w path) e).

(** The plan object for a list of steps. *)
Definition plan_of (steps : list json) : json :=
  JObj [(u "plan", JArr steps)].

(** ** Changing directory *)

(** The line printed when a change of directory fails. *)
Definition cd_error_notice (target_dir : str) (e : exn) : str :=
  if is_kind FileNotFoundError e
  then u "[red]Error: Directory not found: " ++ target_dir ++ u "[/red]"
  else u "[red]Error changing directory: " ++ exn_msg e ++ u "[/red]".

(** Whether the change of directory asked by [cmd] succeeds in [w]. *)
Definition cd_succeeds (w : world) (cmd : str) : bool :=
  match split_second cmd with
  | Ok arg =>
      match os_chdir (w_fs w) (cd_target w arg) with
      | Ok _ => true
      | Raise _ => false
      end
  | Raise _ => false
  end.

(** The session state after an attempt to change directory: an absolute
    path of an existing directory when the change succeeded, the former
    state when it failed. *)
Definition session_state_ok (succeeded : bool) (w w' : world) : Prop :=
  if succeeded
  then isabs (w_cwd w') = true /\ isdir (w_fs w') (w_cwd w') = true
  else w_cwd w' = w_cwd w.

(** A component of a canonical path: not empty, not [.] or [..], and
    without a slash. *)
Definition clean (x : str) : bool :=
  negb (str_eqb x []) && negb (str_eqb x DOT) && negb (str_eqb x DOTDOT)
  && negb (existsb (N.eqb SLASH) x).

(** ** The strategies of the response parser *)

(** The text from the first occurrence of [c0] on. *)
Fixpoint from_first (c0 : N) (s : str) : option str :=
  match s with
  | [] => None
  | c :: s' => if c =? c0 then Some s else from_first c0 s'
  end.

(** The text up to and including the last occurrence of [c0]. *)
Fixpoint upto_last (c0 : N) (s : str) : option str :=
  match s with
  | [] => None
  | c :: s' =>
      match upto_last c0 s' with
      | Some t => Some (c :: t)
      | None => if c =? c0 then Some [c] else None
      end
  end.

(** The text from the first opening brace to the last closing brace after
    it. *)
Definition brace_span (s : str) : option str :=
  match from_first LBRACE s with
  | Some (c :: t) =>
      match upto_last RBRACE t with
      | Some b => Some (c :: b)
      | None => None
      end
  | _ => None
  end.

(** One strategy: decode a candidate text, if there is one. *)
Definition try_loads (candidate : option str) : option json :=
  match candidate with
  | Some s => match json_loads s with
              | Ok v => Some v
              | Raise _ => None
              end
  | None => None
  end.

(** The first strategy that yields a document. *)
Fixpoint first_success (l : list (option json)) : option json :=
  match l with
  | [] => None
  | Some v :: _ => Some v
  | None :: l' => first_success l'
  end.

(** ** Suffixes and patterns without group *)

(** [t] is what remains of [s] after some prefix. *)
Definition suffix (t s : str) : Prop := exists p, s = p ++ t.

Definition is_group (a : atom) : bool :=
  match a with
  | GOpen | GClose => true
  | _ => false
  end.

(** The decoded value is an object, the decoded value is an array. *)
Definition is_object (v : json) : Prop := exists d, v = JObj d.
Definition is_array (v : json) : Prop := exists l, v = JArr l.

(** [w'] differs from [w] in the context store only. *)
Definition store_only (w w' : world) : Prop :=
  w_fs w' = w_fs w /\ w_cwd w' = w_cwd w /\ w_console w' = w_console w /\
  w_confirm w' = w_confirm w /\ w_model w' = w_model w /\
  w_sent w' = w_sent w.

(** [w'] differs from [w] in the lines printed and the answers of the
    user consumed only: no process ran, no file or directory changed, the
    context store is as it was and nothing was sent to the endpoint. *)
Definition nothing_ran (w w' : world) : Prop :=
  w_fs w' = w_fs w /\ w_cwd w' = w_cwd w /\ w_file w' = w_file w /\
  w_def_messages w' = w_def_messages w /\ w_def_chat w' = w_def_chat w /\
  w_model w' = w_model w /\ w_sent w' = w_sent w.

(** A computation that only prints: whatever it yields, it leaves the
    world it started from with lines added to the console. *)
Definition prints_only (A : Type) (m : M A) : Prop :=
  forall w, exists r lines, m w = (r, printed w lines).


(** The console accepts the lines printed between [w] and [w']: none of
    them holds markup that [rich] refuses, so that on each of them
    [console.print] does what [print] does. *)
Definition console_accepts (style_normalize : str -> str)
  (handler_error : str -> option str) (w w' : world) : bool :=
  forallb (fun line =>
             match markup_render style_normalize handler_error line with
             | Ok _ => true
             | Raise _ => false
             end)
    (skipn (List.length (w_console w)) (w_console w')).

(* ================================================================== *)
(** * Part 9. Properties *)
(* ================================================================== *)

(** ** Reasoning on computations *)

Lemma mbind_ok (A B : Type) (m : M A) (k : A -> M B) (w w' : world) (a : A) :
  m w = (Ok a, w') -> mbind m k w = k a w'.
Proof. intros H; unfold mbind; rewrite H; reflexivity. Qed.

Lemma mbind_raise (A B : Type) (m : M A) (k : A -> M B) (w w' : world)
  (e : exn) :
  m w = (Raise e, w') -> mbind m k w = (Raise e, w').
Proof. intros H; unfold mbind; rewrite H; reflexivity. Qed.

Lemma try_ok (A : Type) (m : M A) (h : exn -> M A) (w w' : world) (a : A) :
  m w = (Ok a, w') -> try_except m h w = (Ok a, w').
Proof. intros H; unfold try_except; rewrite H; reflexivity. Qed.

Lemma try_raise (A : Type) (m : M A) (h : exn -> M A) (w w' : world)
  (e : exn) :
  m w = (Raise e, w') -> try_except m h w = h e w'.
Proof. intros H; unfold try_except; rewrite H; reflexivity. Qed.

Lemma print_eq (line : str) (w : world) :
  print line w = (Ok tt, set_console w (w_console w ++ [line])).
Proof. reflexivity. Qed.

Lemma lift_eq (A : Type) (r : result A) (w : world) : lift r w = (r, w).
Proof. reflexivity. Qed.

Lemma ret_eq (A : Type) (a : A) (w : world) : ret a w = (Ok a, w).
Proof. reflexivity. Qed.

(** One statement that succeeds: rewrite the sequence to what follows. *)
Ltac mstep H := erewrite mbind_ok by (exact H).
Ltac mprint := erewrite mbind_ok by (apply print_eq).
Ltac mlift := erewrite mbind_ok by (apply lift_eq).

(** ** The JSON decoder consumes its input and has fuel enough *)

Lemma skip_ws_length (s : str) : (List.length (skip_ws s) <= List.length s)%nat.
Proof.
  induction s as [|c s IH]; [apply le_n|].
  cbn [skip_ws]. destruct (json_ws c); cbn [List.length]; lia.
Qed.

Lemma scanstring_length (n : nat) :
  forall (s acc t r : str),
    (List.length s <= n)%nat ->
    scanstring s acc = Some (t, r) ->
    (List.length r < List.length s)%nat.
Proof.
  induction n as [|n IH]; intros s acc t r L H.
  - destruct s; [discriminate H|cbn in L; lia].
  - destruct s as [|c s1]; [discriminate H|].
    cbn [List.length] in L. cbn [scanstring] in H.
    repeat match type of H with
           | (if ?b then _ else _) = _ => destruct b
           | match ?x with _ => _ end = _ => destruct x
           end;
      try discriminate H;
      try (injection H as <- <-; cbn [List.length]; lia);
      try (apply IH in H; cbn [List.length] in *; lia).
Qed.

Lemma take_digits_length (s d r : str) :
  take_digits s = (d, r) ->
  (List.length d + List.length r = List.length s)%nat.
Proof.
  revert d r; induction s as [|c s IH]; intros d r H.
  - injection H as <- <-. reflexivity.
  - cbn [take_digits] in H. destruct (is_digit c).
    + destruct (take_digits s) as [d' r'] eqn:E. injection H as <- <-.
      specialize (IH _ _ eq_refl). cbn [List.length]. lia.
    + injection H as <- <-. reflexivity.
Qed.

Lemma scan_int_part_length (s ip r : str) :
  scan_int_part s = Some (ip, r) -> (List.length r < List.length s)%nat.
Proof.
  unfold scan_int_part. destruct s as [|c s]; [discriminate|].
  destruct (c =? 48); [intros [= <- <-]; cbn; lia|].
  destruct (is_digit c) eqn:D; [|discriminate].
  cbn [take_digits]. rewrite D.
  destruct (take_digits s) as [d' r'] eqn:E. intros [= <- <-].
  apply take_digits_length in E. cbn [List.length]. lia.
Qed.

Lemma scan_frac_length (s fp r : str) :
  scan_frac s = (fp, r) -> (List.length r <= List.length s)%nat.
Proof.
  unfold scan_frac. destruct s as [|c [|d s]]; try (intros [= <- <-]; lia).
  destruct ((c =? 46) && is_digit d); [|intros [= <- <-]; lia].
  intros H. apply take_digits_length in H. cbn [List.length] in *. lia.
Qed.

Lemma scan_exp_length (s r : str) (ex : option Z) :
  scan_exp s = (ex, r) -> (List.length r <= List.length s)%nat.
Proof.
  unfold scan_exp. destruct s as [|c s1]; [intros [= <- <-]; lia|].
  destruct ((c =? 101) || (c =? 69)); [|intros [= <- <-]; lia].
  destruct s1 as [|sg [|d s2]].
  - intros [= <- <-]; lia.
  - destruct (is_digit sg); intros [= <- <-]; cbn; lia.
  - destruct (((sg =? 43) || (sg =? 45)) && is_digit d).
    + destruct (take_digits (d :: s2)) as [ds r'] eqn:E.
      intros [= <- <-]. apply take_digits_length in E.
      cbn [List.length] in *. lia.
    + destruct (is_digit sg); [|intros [= <- <-]; lia].
      destruct (take_digits (sg :: d :: s2)) as [ds r'] eqn:E.
      intros [= <- <-]. apply take_digits_length in E.
      cbn [List.length] in *. lia.
Qed.

Lemma scan_number_length (s r : str) (v : json) :
  scan_number s = Some (v, r) -> (List.length r < List.length s)%nat.
Proof.
  unfold scan_number.
  set (ns := match s with
             | c :: s' => if c =? 45 then (true, s') else (false, s)
             | [] => (false, s)
             end).
  assert (L0 : (List.length (snd ns) <= List.length s)%nat).
  { unfold ns. destruct s as [|c s']; [apply le_n|].
    destruct (c =? 45); cbn; lia. }
  destruct ns as [neg s0]. cbn [snd] in L0.
  destruct (scan_int_part s0) as [[ip r1]|] eqn:E1; [|discriminate].
  destruct (scan_frac r1) as [fp r2] eqn:E2.
  destruct (scan_exp r2) as [ex r3] eqn:E3.
  apply scan_int_part_length in E1. apply scan_frac_length in E2.
  apply scan_exp_length in E3.
  destruct fp; destruct ex; intros [= <- <-]; lia.
Qed.

Ltac brk H :=
  repeat match type of H with
         | (if ?b then _ else _) = _ => destruct b eqn:?
         | match ?x with _ => _ end = _ => destruct x eqn:?
         end.

Ltac len_facts IHv IHm IHe :=
  repeat match goal with
         | E : skip_ws ?a = _ |- _ =>
             let L := fresh "L" in
             pose proof (skip_ws_length a) as L; rewrite E in L; clear E
         | E : scanstring ?a _ = Some _ |- _ =>
             apply (@scanstring_length (List.length a) _ _ _ _ (le_n _)) in E
         | E : scan_number _ = Some _ |- _ => apply scan_number_length in E
         | E : parse_value _ _ = POk _ _ |- _ => apply IHv in E
         | E : parse_members _ _ _ = POk _ _ |- _ => apply IHm in E
         | E : parse_elems _ _ _ = POk _ _ |- _ => apply IHe in E
         end;
  repeat match goal with
         | H : context [skip_ws ?a] |- _ =>
             lazymatch goal with
             | _ : (List.length (skip_ws a) <= List.length a)%nat |- _ => fail
             | _ => pose proof (skip_ws_length a)
             end
         end.

Lemma parse_length (f : nat) :
  (forall s v r, parse_value f s = POk v r ->
                 (List.length r < List.length s)%nat) /\
  (forall s acc v r, parse_members f s acc = POk v r ->
                     (List.length r < List.length s)%nat) /\
  (forall s acc v r, parse_elems f s acc = POk v r ->
                     (List.length r < List.length s)%nat).
Proof.
  induction f as [|f (IHv & IHm & IHe)].
  - repeat split; intros; discriminate.
  - split; [|split].
    + intros s v r H. destruct s as [|c s1]; [discriminate H|].
      cbn [parse_value] in H. brk H; try discriminate H;
        try (injection H as <- <-); len_facts IHv IHm IHe;
        cbn [List.length] in *; try lia;
        do 8 (try (destruct s1 as [|? s1]; cbn [List.length]; try lia)).
    + intros s acc v r H. cbn [parse_members] in H.
      brk H; try discriminate H;
        try (injection H as <- <-); len_facts IHv IHm IHe;
        cbn [List.length] in *; lia.
    + intros s acc v r H. cbn [parse_elems] in H.
      brk H; try discriminate H;
        try (injection H as <- <-); len_facts IHv IHm IHe;
        cbn [List.length] in *; lia.
Qed.

Lemma parse_fuel (f : nat) :
  (forall s, (2 * List.length s + 1 <= f)%nat -> parse_value f s <> PFuel) /\
  (forall s acc, (2 * List.length s + 2 <= f)%nat ->
                 parse_members f s acc <> PFuel) /\
  (forall s acc, (2 * List.length s + 2 <= f)%nat ->
                 parse_elems f s acc <> PFuel).
Proof.
  induction f as [|f (IHv & IHm & IHe)].
  - repeat split; intros; lia.
  - destruct (parse_length f) as (Lv & Lm & Le).
    split; [|split].
    + intros s L H. destruct s as [|c s1]; [discriminate H|].
      cbn [parse_value] in H. brk H; try discriminate H;
        len_facts Lv Lm Le; cbn [List.length] in *;
        first [ eapply IHm; [|exact H] | eapply IHe; [|exact H] ];
        cbn [List.length] in *; lia.
    + intros s acc L H. cbn [parse_members] in H.
      brk H; try discriminate H;
        len_facts Lv Lm Le; cbn [List.length] in *;
        first [ eapply IHm; [|exact H]
              | match goal with
                | E : parse_value f ?a = PFuel |- _ => eapply IHv; [|exact E]
                end ];
        cbn [List.length] in *; lia.
    + intros s acc L H. cbn [parse_elems] in H.
      brk H; try discriminate H;
        len_facts Lv Lm Le; cbn [List.length] in *;
        first [ eapply IHe; [|exact H]
              | match goal with
                | E : parse_value f ?a = PFuel |- _ => eapply IHv; [|exact E]
                end ];
        cbn [List.length] in *; lia.
Qed.

(** The fuel [json_loads] gives is enough. *)
Lemma json_loads_fuel (s : str) :
  parse_value (2 * List.length s + 2) (skip_ws s) <> PFuel.
Proof.
  apply (proj1 (parse_fuel _)). pose proof (skip_ws_length s). lia.
Qed.

(** ** The command executor *)

Lemma startswith_inv (p s : str) :
  startswith p s = true -> exists r, s = p ++ r.
Proof.
  revert s; induction p as [|x p IH]; intros s H.
  - exists s; reflexivity.
  - destruct s as [|y s]; [discriminate|]. cbn in H.
    apply andb_prop in H as [E H]. apply N.eqb_eq in E; subst y.
    destruct (IH _ H) as [r ->]. exists r; reflexivity.
Qed.

Lemma rewrite_touch_ok (cmd : str) :
  rewrite_touch cmd = Ok (effective_command cmd).
Proof.
  unfold effective_command, rewrite_touch.
  destruct (windows && startswith (u "touch ") cmd) eqn:E; [|reflexivity].
  apply andb_prop in E as [_ E].
  apply startswith_inv in E as [r ->]. reflexivity.
Qed.

Lemma get_ai_summary_total (c out err : str) (rc : Z) (um : str) (w : world) :
  exists s w', get_ai_summary c out err rc um w = (Ok s, w').
Proof.
  unfold get_ai_summary.
  destruct (negb (nonempty out) && negb (nonempty err)).
  - eexists _, _; reflexivity.
  - unfold try_except, mbind, chat_completion.
    destruct (w_model w) as [|[r|e] rest]; eexists _, _; reflexivity.
Qed.

Lemma print_if_total (b : bool) (line : str) (w : world) :
  exists w', (if b then print line else ret tt) w = (Ok tt, w').
Proof. destruct b; eexists; reflexivity. Qed.

(** The command executor on a console that accepts every line it is
    given ([print]).  Whatever [subprocess.run] does for the command,
    [run_shell_command] returns an [ExecutionResult]: when the process
    completes, its captured standard output, standard error and return
    code; when the call times out or the launch fails, an empty output,
    the return code [-1] and a message in [stderr] (a fixed text for a
    timeout, the text of the error otherwise).  What happens on a line
    that the console refuses is the matter of
    [run_shell_command_raises_on_closing_tag]. *)
Theorem run_shell_command_never_raises
  (cmd : str) (timeout : Z) (user_message : str) (w : world) :
  exists res w',
    run_shell_command cmd timeout user_message w = (Ok res, w') /\
    r_command res = effective_command cmd /\
    match fst (subprocess_run windows (effective_command cmd) timeout
                 (w_cwd w) (w_fs w)) with
    | Completed out err rc =>
        r_stdout res = out /\ r_stderr res = err /\ r_return_code res = rc
    | Failed e =>
        r_stdout res = [] /\ (r_return_code res = -1)%Z /\
        (r_return_code res < 0)%Z /\
        r_stderr res =
          (if is_kind TimeoutExpired e
           then u "The command took too long and was stopped."
           else exn_msg e)
    end.
Proof.
  unfold run_shell_command. mprint.
  fold (effective_command cmd).
  set (w1 := set_console w _).
  change (w_cwd w) with (w_cwd w1). change (w_fs w) with (w_fs w1).
  destruct (subprocess_run windows (effective_command cmd) timeout
              (w_cwd w1) (w_fs w1)) as [r f] eqn:Erun; cbn [fst].
  assert (Esub : subprocess (effective_command cmd) timeout w1
                 = (match r with
                    | Completed out err rc => Ok (out, err, rc)
                    | Failed e => Raise e
                    end, set_fs w1 f))
    by (unfold subprocess; rewrite Erun; reflexivity).
  destruct r as [out err rc|e].
  - destruct (print_if_total (nonempty out)
                (NL :: u "[green]Output:[/green]" ++ NL :: strip out)
                (set_fs w1 f)) as [w2 P1].
    destruct (print_if_total (nonempty err)
                (NL :: u "[red]Error:[/red]" ++ NL :: strip err) w2)
      as [w3 P2].
    destruct (get_ai_summary_total (effective_command cmd) out err rc
                user_message w3) as (s & w4 & P3).
    eexists _, _. split.
    { erewrite try_ok; [reflexivity|].
      erewrite mbind_ok
        by (unfold lift; rewrite rewrite_touch_ok; reflexivity).
      mstep Esub. cbv beta iota.
      mstep P1. mstep P2. mstep P3. mprint. reflexivity. }
    cbn; auto.
  - erewrite try_raise.
    2:{ erewrite mbind_ok
          by (unfold lift; rewrite rewrite_touch_ok; reflexivity).
        erewrite mbind_raise by (exact Esub). reflexivity. }
    destruct (is_kind TimeoutExpired e); eexists _, _;
      (split; [reflexivity|]); cbn; repeat split; lia.
Qed.


(** ** Dispatch on the shape of a reply *)

(** C3. A reply decoded to an object is dispatched on its keys in the
    order [plan], [command], [done]: with a [plan] key the plan branch
    runs, whatever else the object holds; without it, a [command] key
    selects the command branch; without both, a [done] entry that is set
    selects the completion branch.  In particular a reply with both a
    [plan] and a [command] key is treated as a plan. *)
Theorem plan_has_priority_over_command
  (depth : nat) (ai_out user_query : str) (d : list (str * json))
  (w : world) :
  _extract_json_from_text ai_out = Some (JObj d) ->
  (dict_has d (u "plan") = true -> dict_has d (u "command") = true ->
   process_ai_response (S depth) ai_out user_query w
   = plan_branch (JObj d) user_query w) /\
  process_ai_response (S depth) ai_out user_query w =
    (if dict_has d (u "plan") then plan_branch (JObj d) user_query
     else if dict_has d (u "command")
     then command_branch (process_ai_response depth) (JObj d) user_query
     else if done_is_set d then done_branch (JObj d)
     else match d with
          | [] => plain_text_branch ai_out
          | _ => unrecognized_branch (JObj d) ai_out
          end) w.
Proof.
  intros Hx.
  assert (Hchain :
    process_ai_response (S depth) ai_out user_query w =
    (if dict_has d (u "plan") then plan_branch (JObj d) user_query
     else if dict_has d (u "command")
     then command_branch (process_ai_response depth) (JObj d) user_query
     else if done_is_set d then done_branch (JObj d)
     else match d with
          | [] => plain_text_branch ai_out
          | _ => unrecognized_branch (JObj d) ai_out
          end) w).
  { cbn [process_ai_response]. rewrite Hx.
    destruct d as [|kv d]; [reflexivity|].
    cbn [py_truthy negb py_in].
    set (d' := kv :: d).
    mlift. destruct (dict_has d' (u "plan")); [reflexivity|].
    mlift. destruct (dict_has d' (u "command")); [reflexivity|].
    mlift. unfold done_is_set, dict_has.
    destruct (dict_get d' (u "done")) as [v|] eqn:Ed.
    - erewrite mbind_ok.
      2:{ erewrite mbind_ok by (unfold lift, py_get; rewrite Ed; reflexivity).
          apply ret_eq. }
      destruct (py_truthy v); reflexivity.
    - erewrite mbind_ok by (apply ret_eq). reflexivity. }
  split; [|exact Hchain].
  intros Hp _. rewrite Hchain, Hp. reflexivity.
Qed.


(** ** Strings and dictionaries *)

Lemma str_eqb_refl (a : str) : str_eqb a a = true.
Proof.
  induction a as [|x a IH]; [reflexivity|].
  cbn. rewrite N.eqb_refl. exact IH.
Qed.

Lemma str_eqb_eq (a b : str) : str_eqb a b = true <-> a = b.
Proof.
  split; [|intros ->; apply str_eqb_refl].
  revert b; induction a as [|x a IH]; intros [|y b] H; try discriminate H.
  - reflexivity.
  - cbn in H. apply andb_prop in H as [E H].
    apply N.eqb_eq in E. f_equal; auto.
Qed.

Lemma dict_get_set_same (A : Type) (d : list (str * A)) (k : str) (v : A) :
  dict_get (dict_set d k v) k = Some v.
Proof.
  induction d as [|[k' v'] d IH]; cbn.
  - rewrite str_eqb_refl. reflexivity.
  - destruct (str_eqb k' k) eqn:E; cbn; rewrite E; auto.
Qed.

Lemma dict_get_set_other (A : Type) (d : list (str * A)) (k k' : str)
  (v : A) :
  str_eqb k k' = false ->
  dict_get (dict_set d k v) k' = dict_get d k'.
Proof.
  intros N. induction d as [|[k0 v0] d IH]; cbn.
  - rewrite N. reflexivity.
  - destruct (str_eqb k0 k) eqn:E; cbn.
    + apply str_eqb_eq in E; subst k0. rewrite N. reflexivity.
    + destruct (str_eqb k0 k'); auto.
Qed.

Lemma dict_get_map (A B : Type) (f : A -> B) (d : list (str * A)) (k : str) :
  dict_get (map (fun kv => (fst kv, f (snd kv))) d) k
  = option_map f (dict_get d k).
Proof.
  induction d as [|[k' v'] d IH]; cbn; [reflexivity|].
  destruct (str_eqb k' k); auto.
Qed.

(** ** The context store *)

Lemma json_loads_raises (s : str) (e : exn) :
  json_loads s = Raise e -> e = Exn JSONDecodeError [].
Proof.
  unfold json_loads, raise. intros H.
  destruct s as [|c s].
  - cbn in H. congruence.
  - destruct c as [|p]; [|destruct (Pos.eq_dec p 65279) as [->|N]].
    + destruct (parse_value _ _) as [v r| |];
        [destruct (skip_ws r)|..]; congruence.
    + congruence.
    + assert (E : forall (X : Type) (a b : X),
                 match N.pos p with 65279 => a | _ => b end = b).
      { intros X a b.
        repeat (destruct p as [p|p|]; try reflexivity; try congruence). }
      rewrite E in H.
      destruct (parse_value _ _) as [v r| |];
        [destruct (skip_ws r)|..]; congruence.
Qed.

Lemma is_json_command_spec (s : str) :
  is_json_command (JStr s) =
    Ok (match json_loads s with
        | Ok (JObj d) => dict_has d (u "command")
        | Ok _ => false
        | Raise _ => matches_command_pattern s
        end).
Proof.
  unfold is_json_command.
  destruct (json_loads s) as [v|e] eqn:E.
  - destruct v; reflexivity.
  - apply json_loads_raises in E; subst e. reflexivity.
Qed.

(** C10, as the code has it.  A message whose content decodes to an
    object with a [command] key, or whose content [json.loads] fails to
    decode and in which [re.search] finds one of the three patterns
    [RE_FENCED_JSON], [RE_FENCED] and [RE_COMMAND_OBJECT], is not
    recorded: [add_message] returns at once and the whole state, the
    context file included, is unchanged. *)
Theorem add_message_skips_json_command (role s : str) (w : world) :
  (exists d, json_loads s = Ok (JObj d) /\ dict_has d (u "command") = true)
  \/ (exists e, json_loads s = Raise e /\ matches_command_pattern s = true) ->
  add_message role (JStr s) w = (Ok tt, w).
Proof.
  intros H. unfold add_message.
  assert (E : is_json_command (JStr s) = Ok true).
  { rewrite is_json_command_spec.
    destruct H as [(d & -> & ->)|(e & -> & ->)]; reflexivity. }
  erewrite mbind_ok by (rewrite lift_eq, E; reflexivity).
  reflexivity.
Qed.


Lemma lastn_length (A : Type) (n : nat) (l : list A) :
  (List.length (lastn n l) <= n)%nat.
Proof. unfold lastn. rewrite length_skipn. lia. Qed.

Lemma lastn_full (A : Type) (n : nat) (l : list A) (x : A) :
  List.length l = n -> n <> O -> lastn n (l ++ [x]) = tl l ++ [x].
Proof.
  intros L N. unfold lastn. rewrite length_app, L. cbn [List.length].
  replace (n + 1 - n)%nat with 1%nat by lia.
  destruct l as [|y l]; [cbn in L; congruence|reflexivity].
Qed.

Lemma lastn_short (A : Type) (n : nat) (l : list A) :
  (List.length l <= n)%nat -> lastn n l = l.
Proof.
  intros L. unfold lastn.
  replace (List.length l - n)%nat with O by lia. reflexivity.
Qed.

Lemma load_context_state (w : world) : snd (load_context w) = w.
Proof. unfold load_context. destruct (w_file w); reflexivity. Qed.

Lemma backfill_dict (k : str) (v : slot) (data : loaded)
  (d : list (str * slot)) :
  backfill k v data = Ok (LDict d) ->
  exists d0, data = LDict d0 /\
             d = (if dict_has d0 k then d0 else dict_set d0 k v).
Proof.
  destruct data as [d0|x]; cbn.
  - intros H. exists d0. split; [reflexivity|].
    destruct (dict_has d0 k); congruence.
  - destruct (py_in k x) as [[|]|e]; cbn; unfold raise; congruence.
Qed.

Lemma load_context_slots (w : world) (d : list (str * slot)) :
  fst (load_context w) = Ok (LDict d) ->
  forall k, k = K_MESSAGES \/ k = K_CHAT ->
  exists s, dict_get d k = Some s /\ slot_for k s.
Proof.
  unfold load_context, slot_for.
  assert (Hdef : forall k, k = K_MESSAGES \/ k = K_CHAT ->
            exists s, dict_get [(K_MESSAGES, DefMessages); (K_CHAT, DefChat)] k
                      = Some s /\
              ((exists v, s = Own v) \/ (k = K_MESSAGES /\ s = DefMessages)
               \/ (k = K_CHAT /\ s = DefChat))).
  { intros k [->| ->]; eexists; (split; [reflexivity|]); auto. }
  destruct (w_file w) as [| |data]; cbn [fst].
  - intros [= <-]. exact Hdef.
  - intros [= <-]. exact Hdef.
  - destruct (backfill K_MESSAGES DefMessages (of_json data)) as [d1|e] eqn:E1;
      cbn [bind]; [|discriminate].
    intros E2. apply backfill_dict in E2 as (d1' & -> & ->).
    apply backfill_dict in E1 as (d0 & E0 & ->).
    assert (Hown : forall k s, dict_get d0 k = Some s -> exists v, s = Own v).
    { destruct data; cbn in E0; try discriminate E0.
      injection E0 as <-. intros k s. rewrite dict_get_map.
      destruct (dict_get kv k); cbn; intros [= <-]; eauto. }
    assert (NE : str_eqb K_MESSAGES K_CHAT = false) by reflexivity.
    assert (NE' : str_eqb K_CHAT K_MESSAGES = false) by reflexivity.
    intros k [->| ->].
    + (* messages *)
      assert (H1 : exists s,
                 dict_get (if dict_has d0 K_MESSAGES then d0
                           else dict_set d0 K_MESSAGES DefMessages) K_MESSAGES
                 = Some s /\
                 ((exists v, s = Own v) \/ s = DefMessages)).
      { unfold dict_has. destruct (dict_get d0 K_MESSAGES) as [s|] eqn:G.
        - exists s. split; [exact G|]. left. eapply Hown; eauto.
        - rewrite dict_get_set_same. eauto. }
      destruct H1 as (s & G & Hs). exists s. split.
      * destruct (dict_has _ K_CHAT); [exact G|].
        rewrite dict_get_set_other by exact NE'. exact G.
      * destruct Hs as [Hs| ->]; auto.
    + (* chat_history *)
      set (d1 := if dict_has d0 K_MESSAGES then d0
                 else dict_set d0 K_MESSAGES DefMessages).
      assert (G1 : dict_get d1 K_CHAT = dict_get d0 K_CHAT).
      { unfold d1. destruct (dict_has d0 K_MESSAGES); [reflexivity|].
        apply dict_get_set_other. exact NE. }
      unfold dict_has. rewrite G1.
      destruct (dict_get d0 K_CHAT) as [s|] eqn:G.
      * exists s. split; [congruence|]. left. eapply Hown; eauto.
      * rewrite dict_get_set_same. eauto 6.
Qed.

(** Appending to the list under a key, keeping the last [n] and saving:
    the file then holds the last [n] of the list with the new entry. *)
Lemma append_trim_save (d : list (str * slot)) (k : str) (n : nat)
  (x : json) (s : slot) (h : list json) (w : world) :
  dict_get d k = Some s -> slot_for k s -> deref w s = JArr h ->
  exists w',
    (c1 <~ ctx_append (LDict d) k x ;;
     c2 <~ ctx_keep_last c1 k n ;;
     save_context c2) w = (Ok tt, w') /\
    persisted k w' = Some (lastn n (h ++ [x])).
Proof.
  intros G Hs Hd.
  assert (Hp : forall w1 d1, dict_get d1 k = Some (Own (JArr (lastn n (h ++ [x])))) ->
            persisted k (snd (save_context (LDict d1) w1))
            = Some (lastn n (h ++ [x]))).
  { intros w1 d1 G1. unfold persisted, save_context; cbn.
    rewrite dict_get_map, G1. reflexivity. }
  destruct Hs as [(v & ->)|[(-> & ->)|(-> & ->)]].
  - cbn in Hd; subst v. eexists. split.
    + erewrite mbind_ok
        by (unfold ctx_append; cbn [ctx_getitem]; rewrite G; reflexivity).
      erewrite mbind_ok
        by (unfold ctx_keep_last; cbn [ctx_getitem];
            rewrite dict_get_set_same; reflexivity).
      reflexivity.
    + apply (Hp w). rewrite dict_get_set_same. reflexivity.
  - cbn in Hd. injection Hd as Hd. eexists. split.
    + erewrite mbind_ok
        by (unfold ctx_append; cbn [ctx_getitem]; rewrite G; reflexivity).
      erewrite mbind_ok
        by (unfold ctx_keep_last; cbn [ctx_getitem]; rewrite G;
            cbn; rewrite Hd; reflexivity).
      reflexivity.
    + apply Hp. rewrite dict_get_set_same. reflexivity.
  - cbn in Hd. injection Hd as Hd. eexists. split.
    + erewrite mbind_ok
        by (unfold ctx_append; cbn [ctx_getitem]; rewrite G; reflexivity).
      erewrite mbind_ok
        by (unfold ctx_keep_last; cbn [ctx_getitem]; rewrite G;
            cbn; rewrite Hd; reflexivity).
      reflexivity.
    + apply Hp. rewrite dict_get_set_same. reflexivity.
Qed.

Lemma history_inv (k : str) (get : M json) (w : world) (v : json) :
  k = K_MESSAGES \/ k = K_CHAT ->
  (forall w0, get w0 =
     (ctx <~ load_context ;;
      fun w1 => match ctx with
                | LDict d => (Ok (match dict_get d k with
                                  | Some s => deref w1 s
                                  | None => JArr []
                                  end), w1)
                | LOther _ => (raise json AttributeError, w1)
                end) w0) ->
  fst (get w) = Ok v ->
  exists d s, load_context w = (Ok (LDict d), w) /\
              dict_get d k = Some s /\ slot_for k s /\ deref w s = v.
Proof.
  intros Hk Hget H. rewrite Hget in H.
  pose proof (load_context_state w) as Hw.
  destruct (load_context w) as [[c|e] w1] eqn:L; cbn in Hw; subst w1.
  - erewrite mbind_ok in H by exact L.
    destruct c as [d|x]; [|discriminate H]. cbn in H.
    destruct (@load_context_slots w d) with (k := k) as (s & G & Hs); auto.
    { rewrite L; reflexivity. }
    rewrite G in H. injection H as H. eauto 10.
  - erewrite mbind_raise in H by exact L. discriminate H.
Qed.

(** C7. The two logs are capped at every append.  When the chat history
    that loads is [h] and a message that is not a JSON command is added,
    the file holds the last 10 of [h] with the message at the end, hence
    at most 10 turns, and from 10 turns the oldest one is dropped.  When
    the command log that loads is [h] and a command is recorded, the file
    holds the last 5 of [h] with the new entry, hence at most 5 entries,
    and from 5 entries the oldest one is dropped. *)
Theorem history_logs_are_capped :
  (forall (role : str) (content : json) (h : list json) (w : world),
     is_json_command content = Ok false ->
     fst (get_chat_history w) = Ok (JArr h) ->
     exists w' kept,
       add_message role content w = (Ok tt, w') /\
       persisted K_CHAT w' = Some kept /\
       kept = lastn 10 (h ++ [message role content]) /\
       (List.length kept <= 10)%nat /\
       (List.length h = 10%nat -> kept = tl h ++ [message role content]))
  /\
  (forall (user_query : str) (data : list (str * json)) (h : list json)
          (w : world),
     fst (get_recent_commands w) = Ok (JArr h) ->
     let entry :=
       command_entry user_query
         (match dict_get data (u "command") with Some c => c | None => JNull end)
         (match dict_get data (u "explanation") with
          | Some e => e
          | None => JNull
          end)
         (w_time w) in
     exists w' kept,
       add_system_command user_query (JObj data) w = (Ok tt, w') /\
       persisted K_MESSAGES w' = Some kept /\
       kept = lastn 5 (h ++ [entry]) /\
       (List.length kept <= 5)%nat /\
       (List.length h = 5%nat -> kept = tl h ++ [entry])).
Proof.
  split.
  - intros role content h w Hc Hh.
    destruct (@history_inv K_CHAT get_chat_history w (JArr h))
      as (d & s & L & G & Hs & Hd); auto.
    destruct (@append_trim_save d K_CHAT 10 (message role content) s h w)
      as (w' & E & P); auto.
    exists w', (lastn 10 (h ++ [message role content])).
    split; [|split; [exact P|split; [reflexivity|split]]].
    + unfold add_message.
      erewrite mbind_ok by (rewrite lift_eq, Hc; reflexivity).
      cbv iota. erewrite mbind_ok by exact L. exact E.
    + apply lastn_length.
    + intros Lh. apply lastn_full; [exact Lh|discriminate].
  - intros user_query data h w Hh entry.
    destruct (@history_inv K_MESSAGES get_recent_commands w (JArr h))
      as (d & s & L & G & Hs & Hd); auto.
    destruct (@append_trim_save d K_MESSAGES 5 entry s h w)
      as (w' & E & P); auto.
    exists w', (lastn 5 (h ++ [entry])).
    split; [|split; [exact P|split; [reflexivity|split]]].
    + unfold add_system_command.
      erewrite mbind_ok by exact L.
      erewrite mbind_ok by apply lift_eq.
      erewrite mbind_ok by apply lift_eq.
      erewrite mbind_ok by reflexivity.
      exact E.
    + apply lastn_length.
    + intros Lh. apply lastn_full; [exact Lh|discriminate].
Qed.


(** ** The plan executor *)

Lemma run_steps_app (total : nat) (um : str) (pre rest : list json) :
  forall (idx : nat) (w : world),
  run_steps total um idx (pre ++ rest) w =
    match run_steps total um idx pre w with
    | (Ok Next, w1) => run_steps total um (idx + List.length pre) rest w1
    | other => other
    end.
Proof.
  induction pre as [|s pre IH]; intros idx w.
  - cbn. rewrite Nat.add_0_r. reflexivity.
  - cbn [app run_steps List.length]. unfold mbind.
    destruct (plan_step total um idx s w) as [[[|]|e] w1]; try reflexivity.
    rewrite IH. replace (idx + S (List.length pre))%nat
      with (S idx + List.length pre)%nat by lia.
    reflexivity.
Qed.

Lemma printed_printed (w : world) (a b : list str) :
  printed (printed w a) b = printed w (a ++ b).
Proof. unfold printed, set_console; cbn. rewrite <- app_assoc. reflexivity. Qed.

Lemma plan_step_command (total : nat) (um : str) (idx : nat) (step : json)
  (cmd : str) (w : world) :
  command_of step = Some cmd ->
  plan_step total um idx step w =
    (if startswith (u "cd ") cmd then handle_cd true cmd ;;; ret Next
     else
       result <~ run_shell_command cmd 60 um ;;
       if negb (r_return_code result =? 0)%Z
       then print (step_failed_notice idx) ;;; ret Break
       else ret Next)
      (printed w [step_header idx total ++ fmt (step_explanation idx step)]).
Proof.
  intros H. destruct step as [| | | | | |d]; try discriminate H.
  unfold command_of in H.
  destruct (dict_get d (u "command")) as [[| | | |c| |]|] eqn:G;
    try discriminate H.
  cbn in H. injection H as ->.
  unfold plan_step. mlift. mlift. cbn [py_in]. unfold dict_has. rewrite G.
  erewrite mbind_ok by (unfold lift, py_getitem; rewrite G; reflexivity).
  mprint. mlift. reflexivity.
Qed.

Lemma plan_step_write (total : nat) (um : str) (idx : nat) (step : json)
  (path content : json) (w : world) :
  write_of step = Some (path, content) ->
  plan_step total um idx step w =
    write_file_step path content
      (printed w [step_header idx total ++ u "Writing file " ++ fmt path;
                  u "[dim]" ++ fmt (step_explanation idx step) ++ u "[/dim]"]).
Proof.
  intros H. destruct step as [| | | | | |d]; try discriminate H.
  unfold write_of in H.
  destruct (dict_get d (u "command")) eqn:G; [discriminate H|].
  destruct (dict_get d (u "write_file")) as [[| | | | | |wf]|] eqn:G2;
    try discriminate H.
  cbn in H. injection H as <- <-.
  unfold plan_step. mlift. mlift. cbn [py_in]. unfold dict_has. rewrite G.
  mlift. rewrite G2.
  erewrite mbind_ok by (unfold lift, py_getitem; rewrite G2; reflexivity).
  mlift. mlift. mprint. mprint. f_equal.
  unfold printed, set_console; cbn. rewrite <- app_assoc. reflexivity.
Qed.

Lemma plan_step_read (total : nat) (um : str) (idx : nat) (step : json)
  (path : json) (w : world) :
  read_of step = Some path ->
  plan_step total um idx step w =
    read_file_step path
      (printed w [step_header idx total ++ u "Reading file " ++ fmt path;
                  u "[dim]" ++ fmt (step_explanation idx step) ++ u "[/dim]"]).
Proof.
  intros H. destruct step as [| | | | | |d]; try discriminate H.
  unfold read_of in H.
  destruct (dict_get d (u "command")) eqn:G; [discriminate H|].
  destruct (dict_get d (u "write_file")) eqn:G2; [discriminate H|].
  destruct (dict_get d (u "read_file")) as [[| | | | | |rf]|] eqn:G3;
    try discriminate H.
  cbn in H. injection H as <-.
  unfold plan_step. mlift. mlift. cbn [py_in]. unfold dict_has. rewrite G.
  mlift. rewrite G2. mlift. rewrite G3.
  erewrite mbind_ok by (unfold lift, py_getitem; rewrite G3; reflexivity).
  mlift. mprint. mprint. f_equal.
  unfold printed, set_console; cbn. rewrite <- app_assoc. reflexivity.
Qed.

Lemma step_fails_breaks (total : nat) (um : str) (idx : nat) (step : json)
  (w w' : world) (notice : str) :
  step_fails total um idx step w w' notice ->
  plan_step total um idx step w = (Ok Break, w') /\
  exists before, w_console w' = before ++ [notice].
Proof.
  intros [cmd res w2 Hc Hcd Hrun Hrc|path content e w2 Hw Hbody
         |path e w2 Hr Hbody].
  - split; [|eexists; reflexivity].
    rewrite (plan_step_command total um idx step w Hc), Hcd.
    mstep Hrun.
    destruct (r_return_code res =? 0)%Z eqn:E;
      [apply Z.eqb_eq in E; contradiction|].
    reflexivity.
  - split; [|eexists; reflexivity].
    rewrite (plan_step_write total um idx step w Hw).
    unfold write_file_step. cbn [w_cwd printed set_console step_path].
    erewrite try_raise.
    2:{ erewrite mbind_raise by (exact Hbody). reflexivity. }
    reflexivity.
  - split; [|eexists; reflexivity].
    rewrite (plan_step_read total um idx step w Hr).
    unfold read_file_step.
    erewrite try_raise.
    2:{ erewrite mbind_raise by (exact Hbody). reflexivity. }
    reflexivity.
Qed.

(** C1. Fail fast.  Take a plan of N steps in which steps 1..k-1 run
    without stopping the plan and step k fails: a shell command for which
    the executor reports a return code other than 0, or a file write or
    read whose I/O raises.  Then [execute_plan] runs steps 1..k in order,
    the failure of step k is the last thing printed before the closing
    line, and the state it ends in is the state step k left: whatever the
    steps k+1..N are, none of them runs. *)
Theorem plan_stops_at_first_failure
  (pre post : list json) (step : json) (user_message : str)
  (w w1 w' : world) (notice : str) :
  let steps := pre ++ step :: post in
  let total := List.length steps in
  let k := S (List.length pre) in
  let started :=
    printed w [u "[cyan]Executing " ++ str_of_nat total
               ++ u " steps...[/cyan]" ++ [NL]] in
  run_steps total user_message 1 pre started = (Ok Next, w1) ->
  step_fails total user_message k step w1 w' notice ->
  run_steps total user_message 1 steps started = (Ok Break, w') /\
  execute_plan (plan_of steps) user_message w
    = (Ok tt, printed w' [FLOW_COMPLETED]) /\
  (exists before, w_console w' = before ++ [notice]).
Proof.
  intros steps total k started Hpre Hfail.
  destruct (step_fails_breaks Hfail) as [Hstep Hnotice].
  assert (Hrun : run_steps total user_message 1 steps started = (Ok Break, w')).
  { unfold steps. rewrite run_steps_app, Hpre.
    cbn [run_steps]. change (1 + List.length pre)%nat with k.
    mstep Hstep. reflexivity. }
  split; [exact Hrun|]. split; [|exact Hnotice].
  unfold execute_plan, plan_of. mlift.
  assert (T : py_truthy (JArr steps) = true)
    by (unfold steps; destruct pre; reflexivity).
  change (match dict_get [(u "plan", JArr steps)] (u "plan") with
          | Some x => x
          | None => JArr []
          end) with (JArr steps).
  rewrite T. cbn [negb]. mlift. mprint. mlift.
  fold total. fold started. mstep Hrun. reflexivity.
Qed.


(** ** Changing directory *)

Lemma os_chdir_inv (f f' : fs) (p : str) :
  os_chdir f p = Ok f' ->
  exists c, resolve f p = Some c /\ is_dir_c f c = true /\
            f' = {| fs_dirs := fs_dirs f; fs_files := fs_files f;
                    fs_cwd := c; fs_home := fs_home f |}.
Proof.
  unfold os_chdir. destruct (resolve f p) as [c|]; [|discriminate].
  destruct (is_dir_c f c) eqn:D.
  - intros [= <-]. eauto.
  - destruct (is_file_c f c); discriminate.
Qed.

Lemma handle_cd_failure (announce : bool) (cmd arg : str) (e : exn)
  (w : world) :
  split_second cmd = Ok arg ->
  os_chdir (w_fs w) (cd_target w arg) = Raise e ->
  handle_cd announce cmd w
  = (Ok tt, printed w [cd_error_notice (cd_target w arg) e]).
Proof.
  intros Hs Hc. unfold handle_cd. rewrite Hs.
  erewrite try_raise.
  2:{ erewrite mbind_raise; [reflexivity|].
      unfold chdir_and_record. rewrite Hc. reflexivity. }
  unfold cd_error_notice. destruct (is_kind FileNotFoundError e); reflexivity.
Qed.

Lemma handle_cd_success (announce : bool) (cmd arg : str) (f : fs)
  (w : world) :
  split_second cmd = Ok arg ->
  os_chdir (w_fs w) (cd_target w arg) = Ok f ->
  exists w',
    handle_cd announce cmd w = (Ok tt, w') /\
    w_fs w' = f /\ w_cwd w' = render (fs_cwd f) /\
    is_dir_c f (fs_cwd f) = true.
Proof.
  intros Hs Hc. unfold handle_cd. rewrite Hs.
  destruct (os_chdir_inv _ _ Hc) as (c & Hr & Hd & ->).
  assert (E : chdir_and_record (cd_target w arg) w
              = (Ok tt, set_cwd (set_fs w {| fs_dirs := fs_dirs (w_fs w);
                                             fs_files := fs_files (w_fs w);
                                             fs_cwd := c;
                                             fs_home := fs_home (w_fs w) |})
                          (render c))).
  { unfold chdir_and_record. rewrite Hc. unfold os_getcwd, is_dir_c.
    cbn [fs_dirs fs_cwd]. unfold is_dir_c in Hd. rewrite Hd. reflexivity. }
  destruct announce.
  - eexists. split.
    + erewrite try_ok; [reflexivity|]. mstep E. reflexivity.
    + cbn. auto.
  - eexists. split.
    + erewrite try_ok; [reflexivity|]. mstep E. reflexivity.
    + cbn. auto.
Qed.

(** C6, what the code does.  In a plan, a step [cd DIR] whose change of
    directory fails prints the error and the loop goes on with the next
    step: the plan is not stopped and the steps that follow run, in the
    directory the session was in. *)
Theorem failed_cd_step_does_not_stop_plan
  (total : nat) (user_message : str) (idx : nat) (step : json)
  (cmd arg : str) (e : exn) (rest : list json) (w : world) :
  command_of step = Some cmd ->
  startswith (u "cd ") cmd = true ->
  split_second cmd = Ok arg ->
  os_chdir (w_fs w) (cd_target w arg) = Raise e ->
  let w' := printed w [step_header idx total
                         ++ fmt (step_explanation idx step);
                       cd_error_notice (cd_target w arg) e] in
  plan_step total user_message idx step w = (Ok Next, w') /\
  w_cwd w' = w_cwd w /\
  run_steps total user_message idx (step :: rest) w
  = run_steps total user_message (S idx) rest w'.
Proof.
  intros Hc Hcd Hs Hch w'.
  assert (Hstep : plan_step total user_message idx step w = (Ok Next, w')).
  { rewrite (plan_step_command total user_message idx step w Hc), Hcd.
    erewrite mbind_ok by (apply handle_cd_failure; eassumption).
    unfold w'. rewrite printed_printed. reflexivity. }
  split; [exact Hstep|]. split; [reflexivity|].
  cbn [run_steps]. mstep Hstep. reflexivity.
Qed.

(** ** Loading the context *)

Lemma load_context_default (w : world) :
  w_file w = FileMissing \/ w_file w = FileUndecodable ->
  load_context w = (Ok DEFAULT_CONTEXT_copy, w) /\
  dump w DEFAULT_CONTEXT_copy
  = JObj [(K_MESSAGES, JArr (w_def_messages w));
          (K_CHAT, JArr (w_def_chat w))].
Proof.
  intros [H|H]; unfold load_context; rewrite H; split; reflexivity.
Qed.

Lemma load_context_object (w : world) (d0 : list (str * json)) :
  w_file w = FileJson (JObj d0) ->
  exists d, load_context w = (Ok (LDict d), w) /\
            (forall k v, dict_get d0 k = Some v ->
                         dict_get d k = Some (Own v)) /\
            dict_has d K_MESSAGES = true /\ dict_has d K_CHAT = true.
Proof.
  intros H. unfold load_context. rewrite H. cbn [of_json].
  set (d1 := map (fun kv => (fst kv, Own (snd kv))) d0).
  assert (H1 : forall k v, dict_get d0 k = Some v ->
                           dict_get d1 k = Some (Own v)).
  { intros k v G. unfold d1. rewrite dict_get_map, G. reflexivity. }
  set (d2 := if dict_has d1 K_MESSAGES then d1
             else dict_set d1 K_MESSAGES DefMessages).
  assert (H2 : (forall k v, dict_get d1 k = Some v -> dict_get d2 k = Some v)
               /\ dict_has d2 K_MESSAGES = true).
  { unfold d2, dict_has.
    destruct (dict_get d1 K_MESSAGES) eqn:G.
    - rewrite G. auto.
    - rewrite dict_get_set_same. split; [|reflexivity].
      intros k v Gk. rewrite dict_get_set_other; [exact Gk|].
      destruct (str_eqb K_MESSAGES k) eqn:E; [|reflexivity].
      apply str_eqb_eq in E; subst k. congruence. }
  destruct H2 as [H2 H2m].
  assert (E1 : backfill K_MESSAGES DefMessages (LDict d1) = Ok (LDict d2))
    by (unfold backfill, d2; destruct (dict_has d1 K_MESSAGES); reflexivity).
  rewrite E1. cbn [bind]. unfold backfill.
  destruct (dict_has d2 K_CHAT) eqn:G.
  - exists d2. split; [reflexivity|].
    split; [intros k v Gk; apply H2, H1, Gk|].
    split; [exact H2m|exact G].
  - exists (dict_set d2 K_CHAT DefChat). repeat split.
    + intros k v Gk. rewrite dict_get_set_other; [auto|].
      destruct (str_eqb K_CHAT k) eqn:E; [|reflexivity].
      apply str_eqb_eq in E; subst k. apply H1, H2 in Gk.
      unfold dict_has in G. rewrite Gk in G. discriminate.
    + unfold dict_has in *. rewrite dict_get_set_other by reflexivity.
      exact H2m.
    + unfold dict_has. rewrite dict_get_set_same. reflexivity.
Qed.

(** C8, where the code departs from it.  A context file that holds valid
    JSON which is not an object, the empty array for one, makes
    [load_context] raise [TypeError]: the defaults are not returned and
    nothing is backfilled. *)
Theorem load_context_raises_on_array (w : world) :
  load_context (set_file w (FileJson (JArr [])))
  = (Raise (Exn TypeError []), set_file w (FileJson (JArr []))).
Proof. reflexivity. Qed.

(** The default lists are shared: after a message is added while the file
    is missing, the list of [DEFAULT_CONTEXT] holds the message, so a later
    load that falls back to the defaults no longer yields empty lists. *)
Lemma default_lists_are_shared (role : str) (content : json) (w : world) :
  is_json_command content = Ok false ->
  w_file w = FileMissing ->
  w_def_chat w = [] ->
  exists w',
    add_message role content w = (Ok tt, w') /\
    w_def_chat w' = [message role content] /\
    fst (get_chat_history (set_file w' FileMissing))
    = Ok (JArr [message role content]).
Proof.
  intros Hc Hf Hd. eexists. split; [|split].
  - unfold add_message.
    erewrite mbind_ok by (rewrite lift_eq, Hc; reflexivity).
    cbv iota.
    erewrite mbind_ok by (unfold load_context; rewrite Hf; reflexivity).
    erewrite mbind_ok by reflexivity.
    erewrite mbind_ok by reflexivity.
    reflexivity.
  - cbn. rewrite Hd. reflexivity.
  - cbn. rewrite Hd. reflexivity.
Qed.


(** ** Paths *)

Lemma split_slash_noslash (x : str) :
  existsb (N.eqb SLASH) x = false -> split_slash x = [x].
Proof.
  induction x as [|c x IH]; [reflexivity|].
  cbn [existsb split_slash]. intros H. apply orb_false_elim in H as [H1 H2].
  rewrite N.eqb_sym, H1, (IH H2). reflexivity.
Qed.

Lemma split_slash_app (x t : str) :
  existsb (N.eqb SLASH) x = false ->
  split_slash (x ++ SLASH :: t) = x :: split_slash t.
Proof.
  induction x as [|c x IH]; [reflexivity|].
  cbn [existsb split_slash app]. intros H.
  apply orb_false_elim in H as [H1 H2].
  rewrite N.eqb_sym, H1, (IH H2). reflexivity.
Qed.

Lemma clean_inv (x : str) :
  clean x = true ->
  str_eqb x [] = false /\ str_eqb x DOT = false /\
  str_eqb x DOTDOT = false /\ existsb (N.eqb SLASH) x = false.
Proof.
  unfold clean. intros H.
  repeat (apply andb_prop in H as [H ?]).
  repeat split; apply negb_true_iff; assumption.
Qed.

Lemma walk_clean (start : cpath) (x : str) (cs : list str) :
  clean x = true -> walk start (x :: cs) = walk (start ++ [x]) cs.
Proof.
  intros H. destruct (clean_inv _ H) as (H1 & H2 & H3 & _).
  cbn [walk]. rewrite H1, H2, H3. reflexivity.
Qed.

Lemma walk_flat (c : cpath) :
  forallb clean c = true ->
  forall start : cpath,
    walk start ([] :: split_slash (tl (flat_map (fun x => SLASH :: x) c)))
    = start ++ c.
Proof.
  induction c as [|x c IH]; intros H start.
  - cbn. rewrite app_nil_r. reflexivity.
  - cbn [forallb] in H. apply andb_prop in H as [Hx Hc].
    destruct (clean_inv _ Hx) as (_ & _ & _ & Hs).
    cbn [flat_map app tl].
    change (walk start ([] :: ?l)) with (walk start l).
    destruct c as [|y c].
    + cbn [flat_map]. rewrite app_nil_r, (split_slash_noslash _ Hs).
      rewrite walk_clean by exact Hx. reflexivity.
    + specialize (IH Hc (start ++ [x])).
      cbn [flat_map app tl] in IH |- *.
      rewrite split_slash_app by exact Hs.
      rewrite walk_clean by exact Hx.
      change (walk (start ++ [x]) ([] :: ?l)) with (walk (start ++ [x]) l) in IH.
      rewrite IH, <- app_assoc. reflexivity.
Qed.

Lemma isabs_render (c : cpath) : isabs (render c) = true.
Proof. destruct c; reflexivity. Qed.

Lemma resolve_render (f : fs) (c : cpath) :
  forallb clean c = true -> resolve f (render c) = Some c.
Proof.
  intros H. unfold resolve.
  assert (E : walk [] (split_slash (render c)) = c).
  { destruct c as [|x c]; [reflexivity|].
    pose proof (walk_flat (x :: c) H []) as W.
    cbn [flat_map app tl] in W. cbn [app] in W.
    unfold render. cbn [flat_map app split_slash].
    rewrite N.eqb_refl.
    exact W. }
  rewrite isabs_render.
  destruct (render c) eqn:R; [destruct c; discriminate R|].
  rewrite E. reflexivity.
Qed.

Lemma forallb_removelast (A : Type) (p : A -> bool) (l : list A) :
  forallb p l = true -> forallb p (removelast l) = true.
Proof.
  induction l as [|x l IH]; [reflexivity|].
  cbn [forallb]. intros H. apply andb_prop in H as [Hx Hl].
  destruct l as [|y l]; [reflexivity|].
  cbn [removelast forallb] in *. rewrite Hx. cbn. auto.
Qed.

Lemma split_slash_components (p : str) :
  forallb (fun x => negb (existsb (N.eqb SLASH) x)) (split_slash p) = true.
Proof.
  induction p as [|c p IH]; [reflexivity|].
  cbn [split_slash]. destruct (c =? SLASH) eqn:E.
  - cbn. exact IH.
  - destruct (split_slash p) as [|h t]; cbn [forallb existsb] in IH |- *.
    + rewrite N.eqb_sym, E. reflexivity.
    + rewrite N.eqb_sym, E. exact IH.
Qed.

Lemma walk_keeps_clean (comps : list str) :
  forallb (fun x => negb (existsb (N.eqb SLASH) x)) comps = true ->
  forall start, forallb clean start = true ->
  forallb clean (walk start comps) = true.
Proof.
  induction comps as [|c cs IH]; intros H start Hs; [exact Hs|].
  cbn [forallb] in H. apply andb_prop in H as [Hc Hcs].
  cbn [walk].
  destruct (str_eqb c [] || str_eqb c DOT) eqn:E1; [auto|].
  destruct (str_eqb c DOTDOT) eqn:E2.
  - apply IH; [exact Hcs|]. apply forallb_removelast, Hs.
  - apply IH; [exact Hcs|]. rewrite forallb_app, Hs. cbn.
    apply orb_false_elim in E1 as [E0 E1].
    unfold clean. rewrite E0, E1, E2, Hc. reflexivity.
Qed.

Lemma resolve_abs_clean (f : fs) (p : str) (c : cpath) :
  isabs p = true -> resolve f p = Some c -> forallb clean c = true.
Proof.
  unfold resolve. intros Ha. destruct p as [|n p]; [discriminate|].
  rewrite Ha. intros [= <-].
  apply walk_keeps_clean;
    [exact (split_slash_components (n :: p))|reflexivity].
Qed.

Lemma isabs_app (a b : str) : isabs a = true -> isabs (a ++ b) = true.
Proof. destruct a; [discriminate|]. cbn. auto. Qed.

Lemma cd_target_abs (w : world) (arg : str) :
  isabs (w_cwd w) = true -> isabs (cd_target w arg) = true.
Proof.
  intros H. unfold cd_target.
  set (t := if str_eqb arg (u "~") then fs_home (w_fs w) else arg).
  destruct (isabs t) eqn:E; [exact E|].
  unfold path_join. rewrite E.
  destruct (w_cwd w) as [|c r] eqn:W; [discriminate H|].
  destruct (endswith_slash (c :: r)); apply isabs_app; exact H.
Qed.

Lemma handle_cd_session (announce : bool) (cmd : str) (w : world) :
  isabs (w_cwd w) = true ->
  exists w', handle_cd announce cmd w = (Ok tt, w') /\
             session_state_ok (cd_succeeds w cmd) w w'.
Proof.
  intros Ha. unfold cd_succeeds.
  destruct (split_second cmd) as [arg|e] eqn:Hs.
  - destruct (os_chdir (w_fs w) (cd_target w arg)) as [f|e] eqn:Hc.
    + destruct (handle_cd_success announce cmd w Hs Hc)
        as (w' & E & Hf & Hw & Hd).
      exists w'. split; [exact E|].
      unfold session_state_ok. rewrite Hw, Hf. split; [apply isabs_render|].
      destruct (os_chdir_inv _ _ Hc) as (c & Hr & _ & ->). cbn [fs_cwd] in *.
      unfold isdir. rewrite resolve_render; [exact Hd|].
      eapply resolve_abs_clean; [|exact Hr].
      apply cd_target_abs, Ha.
    + eexists. split; [apply handle_cd_failure; eassumption|reflexivity].
  - eexists. split; [unfold handle_cd; rewrite Hs; reflexivity|reflexivity].
Qed.

(** C5. The session state is updated in three places: a [cd] step of a
    plan, a [cd] command of a reply, a [cd] line typed in the shell.  In
    each of them, from an absolute session state, the statement ends
    normally; when the change of directory succeeds the session state is
    an absolute path and the directory of that path exists, and when it
    fails the session state is what it was. *)
Theorem session_state_invariant (w : world) :
  isabs (w_cwd w) = true ->
  (forall (total : nat) (um : str) (idx : nat) (step : json) (cmd : str),
     command_of step = Some cmd -> startswith (u "cd ") cmd = true ->
     exists w', plan_step total um idx step w = (Ok Next, w') /\
                session_state_ok (cd_succeeds w cmd) w w')
  /\
  (forall (recur : str -> str -> M unit) (d : list (str * json))
          (cmd user_query : str),
     dict_get d (u "command") = Some (JStr cmd) ->
     startswith (u "cd ") cmd = true ->
     exists w', command_branch recur (JObj d) user_query w = (Ok tt, w') /\
                session_state_ok (cd_succeeds w cmd) w w')
  /\
  (forall (depth : nat) (line : str),
     startswith (u "cd ") (strip line) = true ->
     exists w', shell_turn depth line w = (Ok Next, w') /\
                session_state_ok (cd_succeeds w (strip line)) w w').
Proof.
  intros Ha. split; [|split].
  - intros total um idx step cmd Hc Hcd.
    rewrite (plan_step_command total um idx step w Hc), Hcd.
    destruct (@handle_cd_session true cmd
                (printed w [step_header idx total
                              ++ fmt (step_explanation idx step)]) Ha)
      as (w' & E & S).
    exists w'. split; [|exact S]. mstep E. reflexivity.
  - intros recur d cmd uq G Hcd.
    unfold command_branch.
    erewrite mbind_ok by (unfold lift, py_get; rewrite G; reflexivity).
    mlift.
    set (expl := match dict_get d (u "explanation") with
                 | Some x => x
                 | None => JStr []
                 end).
    destruct (print_if_total (py_truthy expl)
                (u "[cyan]" ++ fmt expl ++ u "[/cyan]") w) as [w1 P].
    assert (W : w_cwd w1 = w_cwd w /\ w_fs w1 = w_fs w).
    { destruct (py_truthy expl); injection P as <-; split; reflexivity. }
    destruct W as [W1 W2].
    assert (Ha1 : isabs (w_cwd w1) = true) by (rewrite W1; exact Ha).
    destruct (@handle_cd_session true cmd w1 Ha1) as (w' & E & S).
    exists w'. split.
    + mstep P. mlift. rewrite Hcd. exact E.
    + unfold cd_succeeds, cd_target, session_state_ok in *.
      rewrite W1, W2 in S. exact S.
  - intros depth line Hcd.
    destruct (@handle_cd_session false (strip line) w Ha) as (w' & E & S).
    exists w'. split; [|exact S].
    unfold shell_turn.
    destruct (startswith_inv _ _ Hcd) as [r Hq].
    set (query := strip line) in *.
    assert (E1 : nonempty query = true) by (rewrite Hq; reflexivity).
    assert (E2 : lower_in query [u "exit"; u "quit"] = false)
      by (rewrite Hq; reflexivity).
    assert (E3 : lower_in query [u "clear"; u "cls"] = false)
      by (rewrite Hq; reflexivity).
    assert (E4 : startswith [SLASH] query = false)
      by (rewrite Hq; reflexivity).
    rewrite E1, E2, E3, E4, Hcd. cbn [negb].
    mstep E. reflexivity.
Qed.


(** ** Files *)

Lemma cpath_eqb_refl (c : cpath) : cpath_eqb c c = true.
Proof.
  induction c as [|x c IH]; [reflexivity|].
  cbn. rewrite str_eqb_refl. exact IH.
Qed.

Lemma file_get_set_same (l : list (cpath * str)) (c : cpath) (t : str) :
  file_get (file_set l c t) c = Some t.
Proof.
  induction l as [|[c' t'] l IH]; cbn.
  - rewrite cpath_eqb_refl. reflexivity.
  - destruct (cpath_eqb c' c) eqn:E; cbn; rewrite E; auto.
Qed.

Lemma universal_newlines_id (t : str) :
  existsb (N.eqb 13) t = false -> universal_newlines t = t.
Proof.
  induction t as [|c t IH]; [reflexivity|].
  cbn [existsb universal_newlines]. intros H.
  apply orb_false_elim in H as [H1 H2].
  rewrite N.eqb_sym, H1, (IH H2). reflexivity.
Qed.

Lemma resolve_cwd (f f' : fs) (p : str) :
  fs_cwd f' = fs_cwd f -> resolve f' p = resolve f p.
Proof. unfold resolve. intros ->. reflexivity. Qed.

Lemma os_makedirs_inv (f f' : fs) (p : str) :
  os_makedirs f p = Ok f' ->
  fs_cwd f' = fs_cwd f /\ fs_files f' = fs_files f.
Proof.
  unfold os_makedirs. destruct (resolve f p) as [c|]; [|discriminate].
  destruct (is_file_c f c); [discriminate|].
  destruct (existsb (is_file_c f) (prefixes c)); [discriminate|].
  intros [= <-]. split; reflexivity.
Qed.

Lemma open_w_inv (f f' : fs) (p : str) (c : cpath) :
  open_w f p = Ok (c, f') ->
  resolve f p = Some c /\ endswith_slash p = false /\ is_dir_c f c = false /\
  f' = {| fs_dirs := fs_dirs f; fs_files := file_set (fs_files f) c [];
          fs_cwd := fs_cwd f; fs_home := fs_home f |}.
Proof.
  unfold open_w. destruct (resolve f p) as [c'|]; [|discriminate].
  destruct (endswith_slash p || is_dir_c f c') eqn:E; [discriminate|].
  destruct (is_file_c f (removelast c')); [discriminate|].
  destruct (negb (is_dir_c f (removelast c'))); [discriminate|].
  intros [= <- <-]. apply orb_false_elim in E as [E1 E2]. auto.
Qed.

Lemma file_write_inv (f f' : fs) (c : cpath) (t : str) :
  file_write f c t = Ok f' ->
  f' = {| fs_dirs := fs_dirs f; fs_files := file_set (fs_files f) c t;
          fs_cwd := fs_cwd f; fs_home := fs_home f |}.
Proof.
  unfold file_write. destruct (existsb is_surrogate t); [discriminate|].
  intros [= <-]. reflexivity.
Qed.

(** What a successful write leaves: the file at the path holds the text
    written, whatever it held before. *)
Lemma write_file_body_inv (p text : str) (w w1 : world) :
  write_file_body (JStr p) (JStr text) w = (Ok tt, w1) ->
  exists c,
    resolve (w_fs w1) p = Some c /\
    file_get (fs_files (w_fs w1)) c = Some text /\
    is_dir_c (w_fs w1) c = false /\ endswith_slash p = false /\
    w_cwd w1 = w_cwd w.
Proof.
  unfold write_file_body. mlift.
  unfold mbind at 1.
  destruct (os_makedirs (w_fs w) (dirname p)) as [f1|e] eqn:E1;
    [|discriminate].
  destruct (os_makedirs_inv _ _ E1) as [C1 _].
  unfold mbind at 1. cbn [w_fs set_fs].
  destruct (open_w f1 p) as [[c f2]|e] eqn:E2; [|discriminate].
  destruct (open_w_inv _ _ E2) as (R & S & D & ->).
  mlift. unfold mbind at 1. cbn [w_fs set_fs].
  destruct (file_write _ c text) as [f3|e] eqn:E3; [|discriminate].
  apply file_write_inv in E3; subst f3. cbn [fs_dirs fs_files fs_cwd fs_home].
  rewrite print_eq. intros [= <-]. exists c.
  cbn [w_fs w_cwd set_console set_fs].
  split; [exact R|]. split; [apply file_get_set_same|].
  split; [exact D|]. split; [exact S|reflexivity].
Qed.

Lemma read_text_after_write (f : fs) (p : str) (c : cpath) (text : str) :
  resolve f p = Some c -> file_get (fs_files f) c = Some text ->
  is_dir_c f c = false -> endswith_slash p = false ->
  read_text f p = Ok (universal_newlines text).
Proof.
  intros R G D S. unfold read_text. rewrite R, D, G, S. reflexivity.
Qed.

(** C9. Round trip.  When a plan step writes a text without carriage
    return to a path and succeeds, the file at that path holds exactly
    that text, whatever it held before, and a step that then reads the
    same path, from the same session state, succeeds and reads back
    exactly the text written; the text [hello] is an instance. *)
Theorem write_then_read_round_trip
  (total : nat) (user_message : str) (idx : nat) (wstep rstep : json)
  (p text : str) (w w1 : world) :
  write_of wstep = Some (JStr p, JStr text) ->
  read_of rstep = Some (JStr p) ->
  existsb (N.eqb 13) text = false ->
  plan_step total user_message idx wstep w = (Ok Next, w1) ->
  let path := if isabs p then p else path_join (w_cwd w1) p in
  (exists c, resolve (w_fs w1) path = Some c /\
             file_get (fs_files (w_fs w1)) c = Some text) /\
  read_text (w_fs w1) path = Ok text /\
  exists w1' w2,
    read_file_body (JStr path) w1' = (Ok text, w2) /\
    plan_step total user_message (S idx) rstep w1 = (Ok Next, w2) /\
    run_steps total user_message idx [wstep; rstep] w = (Ok Next, w2).
Proof.
  intros Hw Hr Hcr Hstep path.
  pose proof Hstep as Hstep0.
  rewrite (plan_step_write total user_message idx wstep w Hw) in Hstep.
  unfold write_file_step in Hstep.
  set (w0 := printed w _) in Hstep.
  unfold try_except in Hstep.
  destruct ((write_file_body (step_path w0 (JStr p)) (JStr text) ;;; ret Next) w0)
    as [[fl|e] wx] eqn:B.
  2:{ unfold mbind at 1 in Hstep. rewrite print_eq in Hstep.
      discriminate Hstep. }
  unfold mbind in B.
  destruct (write_file_body (step_path w0 (JStr p)) (JStr text) w0)
    as [[[]|e] wy] eqn:B1; [|discriminate B].
  rewrite ret_eq in B. injection B as <- <-. injection Hstep as ->.
  cbn [step_path] in B1.
  destruct (write_file_body_inv _ _ _ B1) as (c & R & G & D & Hsl & C).
  change (w_cwd w0) with (w_cwd w) in *.
  assert (P : path = (if isabs p then p else path_join (w_cwd w) p))
    by (unfold path; rewrite C; reflexivity).
  rewrite <- P in *.
  assert (RT : read_text (w_fs w1) path = Ok text).
  { rewrite (read_text_after_write _ _ R G D Hsl), universal_newlines_id;
      auto. }
  split; [eauto|]. split; [exact RT|].
  set (w1' := printed w1
     [step_header (S idx) total ++ u "Reading file " ++ fmt (JStr p);
      u "[dim]" ++ fmt (step_explanation (S idx) rstep) ++ u "[/dim]"]).
  assert (RB : exists w2, read_file_body (JStr path) w1' = (Ok text, w2)).
  { eexists. unfold read_file_body. mlift.
    erewrite mbind_ok by (cbn [w_fs w1' printed set_console]; rewrite RT;
                          reflexivity).
    mprint. reflexivity. }
  destruct RB as [w2 RB]. exists w1', w2. split; [exact RB|].
  assert (RS : plan_step total user_message (S idx) rstep w1 = (Ok Next, w2)).
  { rewrite (plan_step_read total user_message (S idx) rstep w1 Hr).
    fold w1'. unfold read_file_step.
    change (step_path w1' (JStr p)) with (JStr path).
    erewrite try_ok; [reflexivity|]. mstep RB. reflexivity. }
  split; [exact RS|].
  cbn [run_steps]. mstep Hstep0. cbn [run_steps]. mstep RS. reflexivity.
Qed.


(** ** The response parser *)

Lemma star_greedy_last_brace (go s : str) :
  star_greedy any_char
    (match_here [Chr (N.eqb RBRACE); GClose] go []) s
  = option_map (fun b => (go, skipn (List.length b) s)) (upto_last RBRACE s).
Proof.
  induction s as [|c s IH]; [reflexivity|].
  cbn [star_greedy any_char upto_last]. rewrite IH.
  destruct (upto_last RBRACE s) as [b|]; [reflexivity|].
  cbn [option_map match_here]. rewrite N.eqb_sym.
  destruct (c =? RBRACE); reflexivity.
Qed.

Lemma upto_last_prefix (c0 : N) (s b : str) :
  upto_last c0 s = Some b -> firstn (List.length b) s = b.
Proof.
  revert b; induction s as [|c s IH]; intros b; [discriminate|].
  cbn [upto_last]. destruct (upto_last c0 s) as [t|].
  - intros [= <-]. cbn. rewrite (IH t); reflexivity.
  - destruct (c =? c0); [|discriminate]. intros [= <-]. reflexivity.
Qed.

Lemma upto_last_none_tail (c0 c : N) (s : str) :
  upto_last c0 (c :: s) = None -> upto_last c0 s = None.
Proof.
  cbn [upto_last]. destruct (upto_last c0 s); [discriminate|reflexivity].
Qed.

Lemma match_braces (s : str) :
  match_here RE_BRACES [] [] s =
    match s with
    | c :: t =>
        if c =? LBRACE
        then option_map (fun b => (s, skipn (List.length b) t))
               (upto_last RBRACE t)
        else None
    | [] => None
    end.
Proof.
  destruct s as [|c t]; [reflexivity|].
  unfold RE_BRACES. cbn [match_here]. rewrite N.eqb_sym.
  destruct (c =? LBRACE); [|reflexivity].
  apply star_greedy_last_brace.
Qed.

Lemma re_search_braces_none (s : str) :
  upto_last RBRACE s = None -> re_search RE_BRACES s = None.
Proof.
  induction s as [|c s IH]; intros H.
  - reflexivity.
  - cbn [re_search]. rewrite match_braces.
    pose proof (upto_last_none_tail _ _ _ H) as H'.
    rewrite H'. cbn [option_map].
    destruct (c =? LBRACE); apply IH, H'.
Qed.

(** The greedy pattern captures the text from the first opening brace to
    the last closing brace. *)
Lemma re_search_braces (s : str) : re_search RE_BRACES s = brace_span s.
Proof.
  unfold brace_span.
  induction s as [|c s IH]; [reflexivity|].
  cbn [re_search from_first]. rewrite match_braces.
  destruct (c =? LBRACE) eqn:E.
  - destruct (upto_last RBRACE s) as [b|] eqn:U; cbn [option_map].
    + unfold group_text. cbn [fst snd List.length].
      rewrite length_skipn.
      pose proof (upto_last_prefix _ _ U) as P.
      assert (L : (List.length b <= List.length s)%nat).
      { rewrite <- P at 1. rewrite length_firstn. lia. }
      replace (S (List.length s) - (List.length s - List.length b))%nat
        with (S (List.length b)) by lia.
      cbn [firstn]. rewrite P. reflexivity.
    + apply re_search_braces_none, U.
  - exact IH.
Qed.

(** C2, as the code has it.  The response parser tries three candidates in
    order and returns the first that decodes as JSON, none when none of
    them does: the whole text; the group captured by the first match of
    the pattern [RE_FENCED_JSON_I], searched in any letter case; the text
    from the first opening brace to the last closing brace.  The second
    candidate starts at an opening brace that follows a marker [```json]
    and optional white space, and ends at the first closing brace after
    which optional white space and a fence come: it is not confined to
    one fenced block ([labelled_fence_candidate_spans_blocks]).  There is
    no candidate for a fenced block without label and no test for a
    recognised key. *)
Theorem extract_json_tries_three_candidates (text : str) :
  _extract_json_from_text text =
    first_success
      [try_loads (Some text);
       try_loads (re_search RE_FENCED_JSON_I text);
       try_loads (brace_span text)].
Proof.
  rewrite <- re_search_braces.
  unfold _extract_json_from_text, try_loads, first_success.
  destruct text as [|c t]; [reflexivity|].
  destruct (json_loads (c :: t)); [reflexivity|].
  destruct (re_search RE_FENCED_JSON_I (c :: t)) as [g|];
    [destruct (json_loads g); [reflexivity|]|];
    (destruct (re_search RE_BRACES (c :: t)) as [b|];
     [destruct (json_loads b)|]; reflexivity).
Qed.


(** ** More on the context store *)

Lemma lastn_snoc (A : Type) (n : nat) (h : list A) (x : A) :
  n <> O -> lastn n (h ++ [x]) = lastn (n - 1) h ++ [x].
Proof.
  intros N. unfold lastn. rewrite length_app. cbn [List.length].
  rewrite skipn_app.
  replace (List.length h + 1 - n)%nat with (List.length h - (n - 1))%nat by lia.
  replace (List.length h - (n - 1) - List.length h)%nat with O by lia.
  reflexivity.
Qed.

Lemma persisted_inv (k : str) (w : world) (l : list json) :
  persisted k w = Some l ->
  exists d0, w_file w = FileJson (JObj d0) /\ dict_get d0 k = Some (JArr l).
Proof.
  unfold persisted. destruct (w_file w) as [| |[| | | | | |d0]]; try discriminate.
  destruct (dict_get d0 k) as [[| | | | |l'|]|] eqn:G; try discriminate.
  intros [= <-]. eauto.
Qed.

Lemma persisted_chat_loads (w : world) (l : list json) :
  persisted K_CHAT w = Some l -> get_chat_history w = (Ok (JArr l), w).
Proof.
  intros H. destruct (persisted_inv _ _ H) as (d0 & F & G).
  destruct (load_context_object w F) as (d & L & Hk & _).
  unfold get_chat_history. mstep L. cbv beta iota.
  rewrite (Hk _ _ G). reflexivity.
Qed.

Lemma persisted_commands_loads (w : world) (l : list json) :
  persisted K_MESSAGES w = Some l -> get_recent_commands w = (Ok (JArr l), w).
Proof.
  intros H. destruct (persisted_inv _ _ H) as (d0 & F & G).
  destruct (load_context_object w F) as (d & L & Hk & _).
  unfold get_recent_commands. mstep L. cbv beta iota.
  rewrite (Hk _ _ G). reflexivity.
Qed.

(** X1. What [add_message] records is what [get_messages] returns: after
    a message that is not a JSON command is added to a history [h] that
    loads, the history that loads is the last nine turns of [h] followed
    by the new message. *)
Theorem recorded_message_is_returned
  (role : str) (content : json) (h : list json) (w : world) :
  is_json_command content = Ok false ->
  fst (get_chat_history w) = Ok (JArr h) ->
  exists w',
    add_message role content w = (Ok tt, w') /\
    get_messages w'
    = (Ok (JArr (lastn 9 h ++ [message role content])), w').
Proof.
  intros Hc Hh.
  destruct (@history_inv K_CHAT get_chat_history w (JArr h))
    as (d & s & L & G & Hs & Hd); auto.
  destruct (@append_trim_save d K_CHAT 10 (message role content) s h w)
    as (w' & E & P); auto.
  exists w'. split.
  - unfold add_message.
    erewrite mbind_ok by (rewrite lift_eq, Hc; reflexivity).
    cbv iota. erewrite mbind_ok by exact L. exact E.
  - rewrite lastn_snoc in P by discriminate.
    unfold get_messages. apply persisted_chat_loads. exact P.
Qed.

Lemma append_trim_save_frame (d : list (str * slot)) (k : str) (n : nat)
  (x : json) (w w' : world) :
  (c1 <~ ctx_append (LDict d) k x ;;
   c2 <~ ctx_keep_last c1 k n ;;
   save_context c2) w = (Ok tt, w') ->
  forall k' v, str_eqb k k' = false -> dict_get d k' = Some (Own v) ->
  exists d', w_file w' = FileJson (JObj d') /\ dict_get d' k' = Some v.
Proof.
  intros H k' v N G'.
  assert (Hsave : forall (d2 : list (str * slot)) (w1 : world),
            dict_get d2 k' = Some (Own v) ->
            exists d', w_file (snd (save_context (LDict d2) w1))
                       = FileJson (JObj d') /\ dict_get d' k' = Some v).
  { intros d2 w1 G2. eexists. split; [reflexivity|].
    rewrite dict_get_map, G2. reflexivity. }
  unfold mbind at 1 in H. unfold ctx_append in H. cbn [ctx_getitem] in H.
  destruct (dict_get d k) as [s|] eqn:G; [|discriminate H].
  destruct s as [v0| |].
  - destruct v0 as [| | | | |l|]; try discriminate H.
    cbn [ctx_setitem] in H.
    unfold mbind at 1 in H. unfold ctx_keep_last in H.
    cbn [ctx_getitem] in H. rewrite dict_get_set_same in H.
    cbn [deref ctx_setitem] in H.
    replace w' with (snd (save_context
      (LDict (dict_set (dict_set d k (Own (JArr (l ++ [x])))) k
                (Own (JArr (lastn n (l ++ [x])))))) w))
      by (rewrite H; reflexivity).
    apply Hsave. rewrite !dict_get_set_other by exact N. exact G'.
  - unfold mbind at 1 in H. unfold ctx_keep_last in H.
    cbn [ctx_getitem] in H. rewrite G in H.
    cbn [deref ctx_setitem w_def_messages set_def_messages] in H.
    match type of H with
    | save_context ?c ?w1 = _ =>
        replace w' with (snd (save_context c w1)) by (rewrite H; reflexivity)
    end.
    apply Hsave. rewrite dict_get_set_other by exact N. exact G'.
  - unfold mbind at 1 in H. unfold ctx_keep_last in H.
    cbn [ctx_getitem] in H. rewrite G in H.
    cbn [deref ctx_setitem w_def_chat set_def_chat] in H.
    match type of H with
    | save_context ?c ?w1 = _ =>
        replace w' with (snd (save_context c w1)) by (rewrite H; reflexivity)
    end.
    apply Hsave. rewrite dict_get_set_other by exact N. exact G'.
Qed.

(** X2. The two logs do not disturb the rest of the context file.  When
    the file holds an object, [add_message] leaves every entry other than
    [chat_history] as it is, and [add_system_command] leaves every entry
    other than [messages] as it is: the other log and any entry the
    program does not know are kept. *)
Theorem appends_keep_the_other_entries
  (d0 : list (str * json)) (k : str) (v : json) (w w' : world) :
  w_file w = FileJson (JObj d0) ->
  dict_get d0 k = Some v ->
  (forall role content,
     str_eqb K_CHAT k = false ->
     add_message role content w = (Ok tt, w') ->
     exists d', w_file w' = FileJson (JObj d') /\ dict_get d' k = Some v) /\
  (forall user_query data,
     str_eqb K_MESSAGES k = false ->
     add_system_command user_query data w = (Ok tt, w') ->
     exists d', w_file w' = FileJson (JObj d') /\ dict_get d' k = Some v).
Proof.
  intros F G.
  destruct (load_context_object w F) as (d & L & Hk & _).
  split.
  - intros role content N H. unfold add_message in H.
    unfold mbind at 1 in H. rewrite lift_eq in H.
    destruct (is_json_command content) as [[|]|e]; try discriminate H.
    + rewrite ret_eq in H. injection H as <-. eauto.
    + erewrite mbind_ok in H by exact L.
      eapply append_trim_save_frame; eauto.
  - intros user_query data N H. unfold add_system_command in H.
    erewrite mbind_ok in H by exact L.
    unfold mbind at 1 in H. rewrite lift_eq in H.
    destruct (py_get data (u "command") JNull); [|discriminate H].
    unfold mbind at 1 in H. rewrite lift_eq in H.
    destruct (py_get data (u "explanation") JNull); [|discriminate H].
    erewrite mbind_ok in H by reflexivity.
    eapply append_trim_save_frame; eauto.
Qed.

(** X3. [reset] empties both logs whatever the state: after it, the chat
    history and the command log that load are empty and the message count
    is 0. *)
Theorem reset_empties_both_logs (w : world) :
  exists w',
    reset w = (Ok tt, w') /\
    get_chat_history w' = (Ok (JArr []), w') /\
    get_recent_commands w' = (Ok (JArr []), w') /\
    get_message_count w' = (Ok O, w').
Proof.
  eexists. split; [reflexivity|]. repeat split; reflexivity.
Qed.

(** X4. [clear_messages] saves the lists that [DEFAULT_CONTEXT] holds at
    that moment, which are the lists earlier loads handed out: the logs
    that load after it are those lists, so the history is emptied only if
    nothing was appended through a defaulted load.  After a message was
    added while the file was missing, [clear_messages] writes that message
    back. *)
Theorem clear_messages_saves_the_shared_lists (w : world) :
  let w' := snd (clear_messages w) in
  (clear_messages w = (Ok tt, w') /\
   get_chat_history w' = (Ok (JArr (w_def_chat w)), w') /\
   get_recent_commands w' = (Ok (JArr (w_def_messages w)), w') /\
   get_message_count w'
   = (Ok (List.length (w_def_messages w) + List.length (w_def_chat w))%nat,
      w')) /\
  (forall role content,
     is_json_command content = Ok false ->
     w_file w = FileMissing -> w_def_chat w = [] ->
     exists w1 w2,
       add_message role content w = (Ok tt, w1) /\
       clear_messages w1 = (Ok tt, w2) /\
       get_chat_history w2 = (Ok (JArr [message role content]), w2)).
Proof.
  split.
  - repeat split; reflexivity.
  - intros role content Hc Hf Hd.
    destruct (default_lists_are_shared role content w Hc Hf Hd)
      as (w1 & E & D & _).
    exists w1, (snd (clear_messages w1)). split; [exact E|].
    split; [reflexivity|].
    unfold get_chat_history, clear_messages, save_context, load_context.
    cbn. rewrite D. reflexivity.
Qed.


(** ** More on the decoder and the patterns *)

Lemma parse_shape (f : nat) :
  (forall s acc v r, parse_members f s acc = POk v r -> is_object v) /\
  (forall s acc v r, parse_elems f s acc = POk v r -> is_array v).
Proof.
  induction f as [|f (IHm & IHe)].
  - split; intros; discriminate.
  - split.
    + intros s acc v r H. cbn [parse_members] in H.
      brk H; try discriminate H.
      * injection H as <- <-. eexists; reflexivity.
      * eapply IHm; eassumption.
    + intros s acc v r H. cbn [parse_elems] in H.
      brk H; try discriminate H.
      * injection H as <- <-. eexists; reflexivity.
      * eapply IHe; eassumption.
Qed.

Lemma scan_number_shape (s r : str) (v : json) :
  scan_number s = Some (v, r) -> ~ is_object v.
Proof.
  unfold scan_number. intros H [d ->].
  brk H; try discriminate H.
Qed.

(** A value read at a position is an object exactly when the text there
    starts with an opening brace. *)
Lemma parse_value_object (f : nat) (s r : str) (v : json) :
  parse_value f s = POk v r ->
  (is_object v <-> exists t, s = LBRACE :: t).
Proof.
  destruct f as [|f]; [discriminate|].
  destruct s as [|c s1]; [discriminate|].
  cbn [parse_value]. intros H.
  destruct (c =? 34) eqn:E1.
  { apply N.eqb_eq in E1; subst c.
    destruct (scanstring s1 []) as [[t r']|]; [|discriminate H].
    injection H as <- <-. split; [intros [d D]; discriminate D|].
    intros [t' T]; discriminate T. }
  destruct (c =? 123) eqn:E2.
  { apply N.eqb_eq in E2; subst c. split; [eauto|]. intros _.
    brk H; try discriminate H.
    - injection H as <- <-. eexists; reflexivity.
    - eapply (proj1 (parse_shape f)); eassumption. }
  assert (NB : ~ exists t, c :: s1 = LBRACE :: t).
  { intros [t T]. injection T as -> _. discriminate E2. }
  assert (NO : ~ is_object v); [|tauto].
  destruct (c =? 91) eqn:E3.
  { intros [d ->]. brk H; try discriminate H.
    apply (proj2 (parse_shape f)) in H. destruct H as [l D]; discriminate D. }
  intros [d ->].
  destruct (startswith (u "null") (c :: s1)); [discriminate H|].
  destruct (startswith (u "true") (c :: s1)); [discriminate H|].
  destruct (startswith (u "false") (c :: s1)); [discriminate H|].
  destruct (scan_number (c :: s1)) as [[v' r']|] eqn:E4.
  - injection H as -> ->. apply scan_number_shape in E4. apply E4.
    eexists; reflexivity.
  - brk H; discriminate H.
Qed.

Lemma skip_ws_suffix (s : str) : suffix (skip_ws s) s.
Proof.
  induction s as [|c s [p IH]]; [exists []; reflexivity|].
  cbn [skip_ws]. destruct (json_ws c).
  - exists (c :: p). cbn. rewrite <- IH. reflexivity.
  - exists []. reflexivity.
Qed.

Lemma json_loads_inv (s : str) (v : json) :
  json_loads s = Ok v ->
  exists r, parse_value (2 * List.length s + 2) (skip_ws s) = POk v r.
Proof.
  unfold json_loads, raise. intros H.
  assert (E : match parse_value (2 * List.length s + 2) (skip_ws s) with
              | POk v0 r => match skip_ws r with
                            | [] => Ok v0
                            | _ :: _ => Raise (Exn JSONDecodeError [])
                            end
              | _ => Raise (Exn JSONDecodeError [])
              end = Ok v).
  { destruct s as [|c s']; [exact H|].
    destruct c as [|p]; [exact H|].
    destruct (Pos.eq_dec p 65279) as [->|N]; [discriminate H|].
    repeat (destruct p as [p|p|]; try exact H; try congruence). }
  destruct (parse_value _ _) as [v0 r| |]; try discriminate E.
  destruct (skip_ws r); [|discriminate E]. injection E as ->. eauto.
Qed.

(** A text that decodes to an object holds an opening brace; a text that
    starts with one decodes to an object or not at all. *)
Lemma json_loads_object_brace (s : str) (v : json) :
  json_loads s = Ok v -> is_object v -> In LBRACE s.
Proof.
  intros H O. destruct (json_loads_inv _ H) as [r P].
  apply parse_value_object in P. apply P in O. destruct O as [t T].
  destruct (skip_ws_suffix s) as [p E]. rewrite E, T.
  apply in_or_app. right. left. reflexivity.
Qed.

Lemma json_loads_brace_object (t : str) (v : json) :
  json_loads (LBRACE :: t) = Ok v -> is_object v.
Proof.
  intros H. destruct (json_loads_inv _ H) as [r P].
  apply parse_value_object in P. apply P. eexists. reflexivity.
Qed.

Lemma suffix_refl (s : str) : suffix s s.
Proof. exists []; reflexivity. Qed.

Lemma suffix_cons (c : N) (t s : str) : suffix t s -> suffix t (c :: s).
Proof. intros [p ->]. exists (c :: p). reflexivity. Qed.

Lemma suffix_trans (a b c : str) : suffix a b -> suffix b c -> suffix a c.
Proof.
  intros [p ->] [p' ->]. exists (p' ++ p). rewrite app_assoc. reflexivity.
Qed.

Lemma suffix_in (c : N) (t s : str) : suffix t s -> In c t -> In c s.
Proof. intros [p ->] H. apply in_or_app. right. exact H. Qed.

Lemma suffix_length (t s : str) :
  suffix t s -> (List.length t <= List.length s)%nat.
Proof. intros [p ->]. rewrite length_app. lia. Qed.

(** A star hands to what follows some suffix of the text. *)
Lemma star_greedy_suffix (R : Type) (p : N -> bool) (k : str -> option R)
  (s : str) (r : R) :
  star_greedy p k s = Some r -> exists t, suffix t s /\ k t = Some r.
Proof.
  induction s as [|c s IH]; cbn [star_greedy].
  - intros H. exists []. split; [apply suffix_refl|exact H].
  - destruct (p c).
    + destruct (star_greedy p k s) as [r'|] eqn:E.
      * intros [= <-]. destruct (IH eq_refl) as (t & St & Kt).
        exists t. split; [apply suffix_cons, St|exact Kt].
      * intros H. exists (c :: s). split; [apply suffix_refl|exact H].
    + intros H. exists (c :: s). split; [apply suffix_refl|exact H].
Qed.

Lemma star_lazy_suffix (R : Type) (p : N -> bool) (k : str -> option R)
  (s : str) (r : R) :
  star_lazy p k s = Some r -> exists t, suffix t s /\ k t = Some r.
Proof.
  induction s as [|c s IH]; cbn [star_lazy].
  - destruct (k []) eqn:E; [|discriminate].
    intros [= <-]. exists []. split; [apply suffix_refl|exact E].
  - destruct (k (c :: s)) eqn:E.
    + intros [= <-]. exists (c :: s). split; [apply suffix_refl|exact E].
    + destruct (p c); [|discriminate]. intros H.
      destruct (IH H) as (t & St & Kt).
      exists t. split; [apply suffix_cons, St|exact Kt].
Qed.

(** Atoms before the rest of a pattern: the rest matches at some suffix of
    the text, with the same group marks when the atoms have no group. *)
Lemma match_here_prefix (pre rest : list atom) :
  forall go gc s g,
    match_here (pre ++ rest) go gc s = Some g ->
    exists t go' gc',
      suffix t s /\ match_here rest go' gc' t = Some g /\
      (forallb (fun a => negb (is_group a)) pre = true ->
       go' = go /\ gc' = gc).
Proof.
  induction pre as [|a pre IH]; intros go gc s g H.
  - exists s, go, gc. split; [apply suffix_refl|auto].
  - destruct a as [p|p|p| |]; cbn [app match_here] in H.
    + destruct s as [|c s]; [discriminate H|].
      destruct (p c); [|discriminate H].
      destruct (IH _ _ _ _ H) as (t & go' & gc' & St & Mt & G).
      exists t, go', gc'. split; [apply suffix_cons, St|]. split; [exact Mt|].
      cbn [forallb is_group negb andb]. exact G.
    + apply star_greedy_suffix in H as (t1 & S1 & H).
      destruct (IH _ _ _ _ H) as (t & go' & gc' & St & Mt & G).
      exists t, go', gc'. split; [eapply suffix_trans; eassumption|].
      split; [exact Mt|]. cbn [forallb is_group negb andb]. exact G.
    + apply star_lazy_suffix in H as (t1 & S1 & H).
      destruct (IH _ _ _ _ H) as (t & go' & gc' & St & Mt & G).
      exists t, go', gc'. split; [eapply suffix_trans; eassumption|].
      split; [exact Mt|]. cbn [forallb is_group negb andb]. exact G.
    + destruct (IH _ _ _ _ H) as (t & go' & gc' & St & Mt & _).
      exists t, go', gc'. split; [exact St|]. split; [exact Mt|].
      cbn. discriminate.
    + destruct (IH _ _ _ _ H) as (t & go' & gc' & St & Mt & _).
      exists t, go', gc'. split; [exact St|]. split; [exact Mt|].
      cbn. discriminate.
Qed.

Lemma match_here_no_group (r : list atom) (go gc s : str) (g : str * str) :
  forallb (fun a => negb (is_group a)) r = true ->
  match_here r go gc s = Some g -> g = (go, gc).
Proof.
  intros NG H. rewrite <- (app_nil_r r) in H.
  destruct (match_here_prefix r [] go gc s H) as (t & go' & gc' & _ & M & G).
  destruct (G NG) as [-> ->]. cbn in M. congruence.
Qed.

(** A character the pattern requires occurs in the text. *)
Lemma match_here_needs_char (pre rest : list atom) (c : N)
  (go gc s : str) (g : str * str) :
  match_here (pre ++ Chr (N.eqb c) :: rest) go gc s = Some g -> In c s.
Proof.
  intros H.
  destruct (match_here_prefix pre _ go gc s H) as (t & go' & gc' & St & M & _).
  cbn [match_here] in M. destruct t as [|x t]; [discriminate M|].
  destruct (c =? x) eqn:E; [|discriminate M].
  apply N.eqb_eq in E; subst x.
  eapply suffix_in; [exact St|left; reflexivity].
Qed.

Lemma re_search_match (r : list atom) (s g : str) :
  re_search r s = Some g ->
  exists t m, suffix t s /\ match_here r [] [] t = Some m /\
              g = group_text m.
Proof.
  induction s as [|c s IH]; cbn [re_search].
  - destruct (match_here r [] [] []) as [m|] eqn:E; [|discriminate].
    intros [= <-]. exists [], m. split; [apply suffix_refl|auto].
  - destruct (match_here r [] [] (c :: s)) as [m|] eqn:E.
    + intros [= <-]. exists (c :: s), m. split; [apply suffix_refl|auto].
    + intros H. destruct (IH H) as (t & m & St & M & G).
      exists t, m. split; [apply suffix_cons, St|auto].
Qed.

Lemma re_search_needs_char (pre rest : list atom) (c : N) (s g : str) :
  re_search (pre ++ Chr (N.eqb c) :: rest) s = Some g -> In c s.
Proof.
  intros H. destruct (re_search_match _ _ H) as (t & m & St & M & _).
  eapply suffix_in; [exact St|].
  eapply match_here_needs_char; eassumption.
Qed.

Lemma no_char_not_in (c : N) (s : str) :
  existsb (N.eqb c) s = false -> ~ In c s.
Proof.
  intros H I. assert (E : existsb (N.eqb c) s = true).
  { apply existsb_exists. exists c. split; [exact I|apply N.eqb_refl]. }
  congruence.
Qed.

(** Each of the three patterns of [is_json_command] requires an opening
    brace. *)
Lemma matches_command_pattern_brace (s : str) :
  matches_command_pattern s = true -> In LBRACE s.
Proof.
  unfold matches_command_pattern. cbn [existsb]. intros H.
  destruct (re_search RE_FENCED_JSON s) as [g|] eqn:E1.
  { exact (@re_search_needs_char
             (lit (FENCE ++ u "json") ++ [StarG py_isspace; GOpen])
             (StarL any_char :: Chr (N.eqb RBRACE) :: GClose
              :: StarG py_isspace :: lit FENCE) LBRACE s g E1). }
  destruct (re_search RE_FENCED s) as [g|] eqn:E2.
  { exact (@re_search_needs_char
             (lit FENCE ++ [StarG py_isspace; GOpen])
             (StarL any_char :: Chr (N.eqb RBRACE) :: GClose
              :: StarG py_isspace :: lit FENCE) LBRACE s g E2). }
  destruct (re_search RE_COMMAND_OBJECT s) as [g|] eqn:E3; [|discriminate H].
  exact (@re_search_needs_char [GOpen]
           (StarL any_char :: lit (q "command")
            ++ [StarL any_char; Chr (N.eqb RBRACE); GClose]) LBRACE s g E3).
Qed.

Lemma no_brace_not_command (s : str) :
  existsb (N.eqb LBRACE) s = false -> is_json_command (JStr s) = Ok false.
Proof.
  intros H. apply no_char_not_in in H. rewrite is_json_command_spec.
  destruct (json_loads s) as [v|e] eqn:E.
  - destruct v as [| | | | | |d]; try reflexivity.
    exfalso. apply H. eapply json_loads_object_brace; [exact E|].
    eexists; reflexivity.
  - destruct (matches_command_pattern s) eqn:P; [|reflexivity].
    exfalso. apply H, matches_command_pattern_brace, P.
Qed.

Lemma append_trim_save_state (d : list (str * slot)) (k : str) (n : nat)
  (x : json) (w w' : world) :
  (c1 <~ ctx_append (LDict d) k x ;;
   c2 <~ ctx_keep_last c1 k n ;;
   save_context c2) w = (Ok tt, w') ->
  store_only w w'.
Proof.
  intros H.
  assert (Hsave : forall c w1, store_only w w1 ->
                               store_only w (snd (save_context c w1))).
  { intros c w1 S. exact S. }
  unfold mbind at 1 in H. unfold ctx_append in H. cbn [ctx_getitem] in H.
  destruct (dict_get d k) as [s|] eqn:G; [|discriminate H].
  destruct s as [v0| |].
  - destruct v0 as [| | | | |l|]; try discriminate H.
    cbn [ctx_setitem] in H.
    unfold mbind at 1 in H. unfold ctx_keep_last in H.
    cbn [ctx_getitem] in H. rewrite dict_get_set_same in H.
    cbn [deref ctx_setitem] in H.
    match type of H with
    | save_context ?c ?w1 = _ =>
        replace w' with (snd (save_context c w1)) by (rewrite H; reflexivity)
    end.
    apply Hsave. repeat split.
  - unfold mbind at 1 in H. unfold ctx_keep_last in H.
    cbn [ctx_getitem] in H. rewrite G in H.
    cbn [deref ctx_setitem w_def_messages set_def_messages] in H.
    match type of H with
    | save_context ?c ?w1 = _ =>
        replace w' with (snd (save_context c w1)) by (rewrite H; reflexivity)
    end.
    apply Hsave. repeat split.
  - unfold mbind at 1 in H. unfold ctx_keep_last in H.
    cbn [ctx_getitem] in H. rewrite G in H.
    cbn [deref ctx_setitem w_def_chat set_def_chat] in H.
    match type of H with
    | save_context ?c ?w1 = _ =>
        replace w' with (snd (save_context c w1)) by (rewrite H; reflexivity)
    end.
    apply Hsave. repeat split.
Qed.

(** A message that is not a JSON command, added to a history that loads,
    is recorded and returned by the next load. *)
Lemma add_message_records (role : str) (content : json) (h : list json)
  (w : world) :
  is_json_command content = Ok false ->
  fst (get_chat_history w) = Ok (JArr h) ->
  exists w',
    add_message role content w = (Ok tt, w') /\
    get_messages w'
    = (Ok (JArr (lastn 9 h ++ [message role content])), w') /\
    store_only w w'.
Proof.
  intros Hc Hh.
  destruct (@history_inv K_CHAT get_chat_history w (JArr h))
    as (d & s & L & G & Hs & Hd); auto.
  destruct (@append_trim_save d K_CHAT 10 (message role content) s h w)
    as (w' & E & P); auto.
  exists w'. split; [|split].
  - unfold add_message.
    erewrite mbind_ok by (rewrite lift_eq, Hc; reflexivity).
    cbv iota. erewrite mbind_ok by exact L. exact E.
  - rewrite lastn_snoc in P by discriminate.
    unfold get_messages. apply persisted_chat_loads. exact P.
  - eapply append_trim_save_state. exact E.
Qed.

(** X5. Plain prose is recorded.  A message whose content has no opening
    brace and no opening bracket, and is no longer than the 4300
    characters that the interpreter accepts as the digits of one integer,
    is decoded within the limits of [json.loads] and is never taken for a
    JSON command; so adding it to a history that loads records it, as the
    last turn. *)
Theorem message_without_brace_is_recorded
  (role s : str) (h : list json) (w : world) :
  existsb (N.eqb LBRACE) s = false ->
  existsb (N.eqb LBRACKET) s = false ->
  (List.length s <= 4300)%nat ->
  fst (get_chat_history w) = Ok (JArr h) ->
  is_json_command (JStr s) = Ok false /\
  exists w',
    add_message role (JStr s) w = (Ok tt, w') /\
    get_messages w'
    = (Ok (JArr (lastn 9 h ++ [message role (JStr s)])), w').
Proof.
  intros Hb _ _ Hh. pose proof (no_brace_not_command s Hb) as Hc.
  split; [exact Hc|].
  destruct (@add_message_records role (JStr s) h w Hc Hh) as (w' & E & G & _).
  eauto.
Qed.


(** ** More on the response parser *)

(** What the fenced patterns capture starts with an opening brace. *)
Lemma braces_capture (post : list atom) (go gc s : str) (g : str * str) :
  forallb (fun a => negb (is_group a)) post = true ->
  match_here (GOpen :: Chr (N.eqb LBRACE) :: StarL any_char
              :: Chr (N.eqb RBRACE) :: GClose :: post) go gc s = Some g ->
  exists t, group_text g = LBRACE :: t.
Proof.
  intros NG H. cbn [match_here] in H.
  destruct s as [|c s1]; [discriminate H|].
  destruct (LBRACE =? c) eqn:E; [|discriminate H].
  apply N.eqb_eq in E; subst c.
  apply star_lazy_suffix in H as (t1 & S1 & H).
  cbn [match_here] in H. destruct t1 as [|x t2]; [discriminate H|].
  destruct (RBRACE =? x); [|discriminate H].
  apply (match_here_no_group _ _ _ _ NG) in H; subst g.
  unfold group_text. cbn [fst snd].
  apply suffix_length in S1. cbn [List.length] in *.
  replace (S (List.length s1) - List.length t2)%nat
    with (S (List.length s1 - List.length t2)) by lia.
  eexists. reflexivity.
Qed.

Lemma fenced_json_capture (s g : str) :
  re_search RE_FENCED_JSON_I s = Some g -> exists t, g = LBRACE :: t.
Proof.
  intros H. destruct (re_search_match _ _ H) as (t & m & _ & M & ->).
  change RE_FENCED_JSON_I
    with ((lit_ci (FENCE ++ u "json") ++ [StarG py_isspace])
          ++ GOpen :: Chr (N.eqb LBRACE) :: StarL any_char
             :: Chr (N.eqb RBRACE) :: GClose
             :: StarG py_isspace :: lit FENCE) in M.
  destruct (match_here_prefix _ _ _ _ _ M) as (t' & go' & gc' & _ & M' & _).
  eapply braces_capture; [|exact M']. reflexivity.
Qed.

Lemma from_first_head (c0 : N) (s t : str) :
  from_first c0 s = Some t -> exists r, t = c0 :: r.
Proof.
  induction s as [|c s IH]; [discriminate|].
  cbn [from_first]. destruct (c =? c0) eqn:E; [|exact IH].
  apply N.eqb_eq in E; subst c. intros [= <-]. eauto.
Qed.

Lemma brace_span_head (s b : str) :
  brace_span s = Some b -> exists t, b = LBRACE :: t.
Proof.
  unfold brace_span.
  destruct (from_first LBRACE s) as [[|c t]|] eqn:E; try discriminate.
  destruct (from_first_head _ _ E) as [r R]. injection R as -> ->.
  destruct (upto_last RBRACE r); [|discriminate].
  intros [= <-]. eauto.
Qed.

(** X6. What the parser returns is the value of the whole text or an
    object: when the reply is not JSON as a whole, a value found by the
    fenced or the brace strategy is always an object, never a list, a
    string or a number. *)
Theorem extracted_value_is_whole_text_or_object (text : str) (v : json) :
  _extract_json_from_text text = Some v ->
  json_loads text = Ok v \/
  (exists e, json_loads text = Raise e) /\ is_object v.
Proof.
  unfold _extract_json_from_text.
  destruct text as [|c t]; [discriminate|].
  destruct (json_loads (c :: t)) as [v0|e] eqn:E0.
  - intros [= <-]. left. reflexivity.
  - intros H. right. split; [eauto|].
    destruct (re_search RE_FENCED_JSON_I (c :: t)) as [g|] eqn:E1.
    + destruct (json_loads g) as [v1|e1] eqn:E2.
      * injection H as <-.
        destruct (fenced_json_capture _ E1) as [r ->].
        eapply json_loads_brace_object; exact E2.
      * rewrite re_search_braces in H.
        destruct (brace_span (c :: t)) as [b|] eqn:E3; [|discriminate H].
        destruct (json_loads b) as [v2|] eqn:E4; [|discriminate H].
        injection H as <-. destruct (brace_span_head _ E3) as [r ->].
        eapply json_loads_brace_object; exact E4.
    + rewrite re_search_braces in H.
      destruct (brace_span (c :: t)) as [b|] eqn:E3; [|discriminate H].
      destruct (json_loads b) as [v2|] eqn:E4; [|discriminate H].
      injection H as <-. destruct (brace_span_head _ E3) as [r ->].
      eapply json_loads_brace_object; exact E4.
Qed.

Lemma from_first_app (c0 : N) (pre r : str) :
  existsb (N.eqb c0) pre = false ->
  from_first c0 (pre ++ c0 :: r) = Some (c0 :: r).
Proof.
  induction pre as [|c pre IH]; cbn [app from_first existsb].
  - rewrite N.eqb_refl. reflexivity.
  - intros H. apply orb_false_elim in H as [H1 H2].
    rewrite N.eqb_sym, H1. apply IH, H2.
Qed.

Lemma upto_last_none (c0 : N) (s : str) :
  existsb (N.eqb c0) s = false -> upto_last c0 s = None.
Proof.
  induction s as [|c s IH]; [reflexivity|].
  cbn [existsb upto_last]. intros H. apply orb_false_elim in H as [H1 H2].
  rewrite (IH H2), N.eqb_sym, H1. reflexivity.
Qed.

Lemma upto_last_app (c0 : N) (a post : str) :
  existsb (N.eqb c0) post = false ->
  upto_last c0 (a ++ c0 :: post) = Some (a ++ [c0]).
Proof.
  intros H. induction a as [|c a IH]; cbn [app upto_last].
  - rewrite (upto_last_none _ _ H), N.eqb_refl. reflexivity.
  - rewrite IH. reflexivity.
Qed.

Lemma no_backtick_no_fence (s : str) :
  existsb (N.eqb 96) s = false -> re_search RE_FENCED_JSON_I s = None.
Proof.
  intros H. destruct (re_search RE_FENCED_JSON_I s) as [g|] eqn:E;
    [|reflexivity].
  exfalso. apply (no_char_not_in _ _ H).
  exact (@re_search_needs_char [] (tl RE_FENCED_JSON_I) 96 s g E).
Qed.

(** X7. An object wrapped in prose is found.  When the reply is not JSON
    as a whole and has no backtick, the prose before the object has no
    opening brace and the prose after it no closing brace, the parser
    returns what the object decodes to. *)
Theorem object_in_prose_is_extracted
  (before inside after : str) (v : json) (e : exn) :
  let object := LBRACE :: inside ++ [RBRACE] in
  let text := before ++ object ++ after in
  existsb (N.eqb LBRACE) before = false ->
  existsb (N.eqb RBRACE) after = false ->
  existsb (N.eqb 96) text = false ->
  json_loads text = Raise e ->
  json_loads object = Ok v ->
  _extract_json_from_text text = Some v.
Proof.
  intros object text Hb Ha Hf Hw Ho.
  assert (Hs : brace_span text = Some object).
  { unfold brace_span, text, object. cbn [app]. rewrite <- app_assoc.
    cbn [app]. rewrite (from_first_app _ _ _ Hb).
    rewrite (upto_last_app _ _ _ Ha). reflexivity. }
  unfold _extract_json_from_text.
  destruct text as [|c t] eqn:T.
  { unfold brace_span in Hs. discriminate Hs. }
  rewrite Hw, (no_backtick_no_fence _ Hf), re_search_braces, Hs, Ho.
  reflexivity.
Qed.


(** ** More on the dispatch and the shell *)

Lemma from_first_none (c0 : N) (s : str) :
  existsb (N.eqb c0) s = false -> from_first c0 s = None.
Proof.
  induction s as [|c s IH]; [reflexivity|].
  cbn [existsb from_first]. intros H. apply orb_false_elim in H as [H1 H2].
  rewrite N.eqb_sym, H1. apply IH, H2.
Qed.

Lemma no_brace_no_candidate (text : str) (e : exn) :
  existsb (N.eqb LBRACE) text = false ->
  json_loads text = Raise e ->
  _extract_json_from_text text = None.
Proof.
  intros Hb Hw. unfold _extract_json_from_text.
  destruct text as [|c t]; [reflexivity|]. rewrite Hw.
  assert (F : re_search RE_FENCED_JSON_I (c :: t) = None).
  { destruct (re_search RE_FENCED_JSON_I (c :: t)) as [g|] eqn:E;
      [|reflexivity].
    exfalso. apply (no_char_not_in _ _ Hb).
    exact (@re_search_needs_char
             (lit_ci (FENCE ++ u "json") ++ [StarG py_isspace; GOpen])
             (StarL any_char :: Chr (N.eqb RBRACE) :: GClose
              :: StarG py_isspace :: lit FENCE) LBRACE _ g E). }
  rewrite F, re_search_braces. unfold brace_span.
  rewrite (from_first_none _ _ Hb). reflexivity.
Qed.

(** Loading depends on the context store only. *)
Lemma get_chat_history_store (w w1 : world) :
  w_file w1 = w_file w -> w_def_messages w1 = w_def_messages w ->
  w_def_chat w1 = w_def_chat w ->
  fst (get_chat_history w1) = fst (get_chat_history w).
Proof.
  intros Hf Hm Hc. unfold get_chat_history, mbind, load_context.
  rewrite Hf. destruct (w_file w) as [| |data].
  - cbn. rewrite Hc. reflexivity.
  - cbn. rewrite Hc. reflexivity.
  - destruct (d1 <- backfill K_MESSAGES DefMessages (of_json data);;
              backfill K_CHAT DefChat d1) as [[d|x]|e]; try reflexivity.
    cbn [fst]. destruct (dict_get d K_CHAT) as [[v| |]|]; cbn [deref];
      rewrite ?Hm, ?Hc; reflexivity.
Qed.

(** X9. A reply that is a bare JSON scalar.  When the whole reply decodes
    to a value that Python takes for false ([null], [false], [0], an empty
    string, list or object) it is treated as plain text; when it decodes
    to [true] or to a number other than zero, the test [in] on it raises
    [TypeError] and nothing has been printed or recorded. *)
Theorem scalar_reply_is_text_or_type_error
  (depth : nat) (ai_out user_query : str) (v : json) (w : world) :
  json_loads ai_out = Ok v ->
  (py_truthy v = false ->
   process_ai_response (S depth) ai_out user_query w
   = plain_text_branch ai_out w) /\
  (py_truthy v = true ->
   (exists b, v = JBool b) \/ (exists z, v = JInt z) \/
   (exists f, v = JFloat f) ->
   process_ai_response (S depth) ai_out user_query w
   = (Raise (Exn TypeError []), w)).
Proof.
  intros H.
  assert (E : _extract_json_from_text ai_out = Some v).
  { unfold _extract_json_from_text. destruct ai_out; [discriminate H|].
    rewrite H. reflexivity. }
  cbn [process_ai_response]. rewrite E. split.
  - intros ->. reflexivity.
  - intros -> [[b ->]|[[z ->]|[f ->]]]; reflexivity.
Qed.

(** ** More on paths and plans *)

Lemma split_slash_nonempty (s : str) : split_slash s <> [].
Proof.
  destruct s as [|c s]; [discriminate|]. cbn [split_slash].
  destruct (c =? SLASH); [discriminate|].
  destruct (split_slash s); discriminate.
Qed.

Lemma split_slash_join (a b : str) :
  split_slash (a ++ SLASH :: b) = split_slash a ++ split_slash b.
Proof.
  induction a as [|c a IH]; [reflexivity|].
  cbn [app split_slash]. rewrite IH.
  destruct (c =? SLASH); [reflexivity|].
  pose proof (split_slash_nonempty a) as N.
  destruct (split_slash a); [contradiction|reflexivity].
Qed.

Lemma walk_app (l1 l2 : list str) :
  forall start, walk start (l1 ++ l2) = walk (walk start l1) l2.
Proof.
  induction l1 as [|c l1 IH]; intros start; [reflexivity|].
  cbn [app walk].
  destruct (str_eqb c [] || str_eqb c DOT); [apply IH|].
  destruct (str_eqb c DOTDOT); apply IH.
Qed.

Lemma walk_render (c : cpath) :
  forallb clean c = true -> walk [] (split_slash (render c)) = c.
Proof.
  intros H.
  pose proof (resolve_render {| fs_dirs := []; fs_files := [];
                                fs_cwd := []; fs_home := [] |} c H) as R.
  unfold resolve in R. rewrite isabs_render in R.
  destruct (render c); [discriminate R|]. congruence.
Qed.

Lemma endswith_slash_inv (a : str) :
  endswith_slash a = true -> exists a', a = a' ++ [SLASH].
Proof.
  unfold endswith_slash. destruct (rev a) as [|c r] eqn:E; [discriminate|].
  intros H. apply N.eqb_eq in H; subst c.
  exists (rev r). rewrite <- (rev_involutive a), E. reflexivity.
Qed.

(** Joining a relative path to a directory and walking the result is
    walking the directory and then the relative path. *)
Lemma walk_path_join (a b : str) (start : cpath) :
  a <> [] -> isabs b = false ->
  walk start (split_slash (path_join a b))
  = walk (walk start (split_slash a)) (split_slash b).
Proof.
  intros Na Hb.
  assert (J : path_join a b
              = if endswith_slash a then a ++ b else a ++ SLASH :: b).
  { unfold path_join. rewrite Hb. destruct a; [contradiction|reflexivity]. }
  rewrite J. destruct (endswith_slash a) eqn:E.
  - destruct (endswith_slash_inv _ E) as [a' ->].
    rewrite <- app_assoc. cbn [app].
    rewrite (split_slash_join a' b), (split_slash_join a' []).
    rewrite !walk_app. reflexivity.
  - rewrite split_slash_join, walk_app. reflexivity.
Qed.

Lemma resolve_under (f : fs) (dir : cpath) (p : str) :
  forallb clean dir = true -> isabs p = false ->
  resolve f (path_join (render dir) p) = Some (walk dir (split_slash p)).
Proof.
  intros Hc Hp. unfold resolve.
  assert (A : isabs (path_join (render dir) p) = true).
  { unfold path_join. rewrite Hp.
    destruct (render dir) eqn:R; [destruct dir; discriminate R|].
    rewrite <- R.
    destruct (endswith_slash (render dir)); apply isabs_app, isabs_render. }
  rewrite A.
  destruct (path_join (render dir) p) eqn:J; [discriminate A|].
  rewrite <- J, walk_path_join, walk_render; auto.
  destruct dir; discriminate.
Qed.

(** What a write step that goes through leaves. *)
Lemma write_step_inv (total : nat) (um : str) (idx : nat) (wstep : json)
  (p text : str) (w w1 : world) :
  write_of wstep = Some (JStr p, JStr text) ->
  plan_step total um idx wstep w = (Ok Next, w1) ->
  exists c,
    resolve (w_fs w1) (if isabs p then p else path_join (w_cwd w) p)
    = Some c /\
    file_get (fs_files (w_fs w1)) c = Some text /\ w_cwd w1 = w_cwd w.
Proof.
  intros Hw Hstep.
  rewrite (plan_step_write total um idx wstep w Hw) in Hstep.
  unfold write_file_step in Hstep.
  set (w0 := printed w _) in Hstep.
  unfold try_except in Hstep.
  destruct ((write_file_body (step_path w0 (JStr p)) (JStr text) ;;; ret Next)
              w0) as [[fl|e] wx] eqn:B.
  2:{ unfold mbind at 1 in Hstep. rewrite print_eq in Hstep.
      discriminate Hstep. }
  unfold mbind in B.
  destruct (write_file_body (step_path w0 (JStr p)) (JStr text) w0)
    as [[[]|e] wy] eqn:B1; [|discriminate B].
  rewrite ret_eq in B. injection B as <- <-. injection Hstep as ->.
  cbn [step_path] in B1.
  destruct (write_file_body_inv _ _ _ B1) as (c & R & G & _ & _ & C).
  exists c. auto.
Qed.

(** X11. A relative path of a file step is resolved against the directory
    of the session when the step runs: after a [cd] step that succeeds,
    the write step that follows, given a relative path, leaves the text in
    the file of that path under the new directory. *)
Theorem relative_path_follows_cd
  (total : nat) (user_message : str) (idx : nat) (cdstep wstep : json)
  (cmd p text : str) (w w2 : world) :
  command_of cdstep = Some cmd ->
  startswith (u "cd ") cmd = true ->
  isabs (w_cwd w) = true ->
  cd_succeeds w cmd = true ->
  write_of wstep = Some (JStr p, JStr text) ->
  isabs p = false ->
  run_steps total user_message idx [cdstep; wstep] w = (Ok Next, w2) ->
  exists arg dir,
    split_second cmd = Ok arg /\
    resolve (w_fs w) (cd_target w arg) = Some dir /\
    w_cwd w2 = render dir /\
    file_get (fs_files (w_fs w2)) (walk dir (split_slash p)) = Some text.
Proof.
  intros Hc Hcd Ha Hs Hw Hp Hrun.
  unfold cd_succeeds in Hs.
  destruct (split_second cmd) as [arg|] eqn:Harg; [|discriminate Hs].
  set (w0 := printed w [step_header idx total
                          ++ fmt (step_explanation idx cdstep)]).
  change (w_fs w) with (w_fs w0) in Hs.
  change (cd_target w arg) with (cd_target w0 arg) in Hs.
  destruct (os_chdir (w_fs w0) (cd_target w0 arg)) as [f|] eqn:Hch;
    [|discriminate Hs].
  destruct (handle_cd_success true cmd w0 Harg Hch)
    as (w1 & E & Hf & Hw1 & _).
  destruct (os_chdir_inv _ _ Hch) as (dir & Hr & _ & ->).
  cbn [fs_cwd] in Hw1.
  assert (Hclean : forallb clean dir = true).
  { eapply resolve_abs_clean; [|exact Hr]. apply cd_target_abs, Ha. }
  assert (Hstep1 : plan_step total user_message idx cdstep w = (Ok Next, w1)).
  { rewrite (plan_step_command total user_message idx cdstep w Hc), Hcd.
    fold w0. mstep E. reflexivity. }
  cbn [run_steps] in Hrun. erewrite mbind_ok in Hrun by exact Hstep1.
  cbn [run_steps] in Hrun. unfold mbind in Hrun.
  destruct (plan_step total user_message (S idx) wstep w1)
    as [[[|]|e] wx] eqn:Hstep2; try discriminate Hrun.
  rewrite ret_eq in Hrun. injection Hrun as ->.
  destruct (write_step_inv _ _ _ _ _ Hw Hstep2) as (c & R & G & C).
  rewrite Hp, Hw1 in R. rewrite resolve_under in R by assumption.
  injection R as <-.
  exists arg, dir. split; [reflexivity|]. split; [exact Hr|].
  split; [congruence|exact G].
Qed.


(** ** What running a command leaves alone *)

Lemma printed_nil (w : world) : printed w [] = w.
Proof.
  destruct w. unfold printed, set_console. cbn. rewrite app_nil_r.
  reflexivity.
Qed.

Lemma print_if_eq (b : bool) (line : str) (w : world) :
  (if b then print line else ret tt) w
  = (Ok tt, printed w (if b then [line] else [])).
Proof. destruct b; [reflexivity|]. rewrite printed_nil. reflexivity. Qed.



(** ** Replies that run nothing *)

Lemma nothing_ran_printed (w : world) (lines : list str) :
  nothing_ran w (printed w lines).
Proof. repeat split. Qed.

Lemma nothing_ran_trans (a b c : world) :
  nothing_ran a b -> nothing_ran b c -> nothing_ran a c.
Proof.
  unfold nothing_ran. intros (A1 & A2 & A3 & A4 & A5 & A6 & A7)
    (B1 & B2 & B3 & B4 & B5 & B6 & B7).
  repeat split; congruence.
Qed.

Lemma prints_only_ret (A : Type) (a : A) : prints_only (ret a).
Proof. intros w. exists (Ok a), []. rewrite printed_nil. reflexivity. Qed.

Lemma prints_only_lift (A : Type) (r : result A) : prints_only (lift r).
Proof. intros w. exists r, []. rewrite printed_nil. reflexivity. Qed.

Lemma prints_only_print (line : str) : prints_only (print line).
Proof. intros w. exists (Ok tt), [line]. reflexivity. Qed.

Lemma prints_only_bind (A B : Type) (m : M A) (k : A -> M B) :
  prints_only m -> (forall a, prints_only (k a)) -> prints_only (mbind m k).
Proof.
  intros Hm Hk w. unfold mbind.
  destruct (Hm w) as (r & l1 & ->). destruct r as [a|e].
  - destruct (Hk a (printed w l1)) as (r & l2 & ->).
    exists r, (l1 ++ l2). rewrite printed_printed. reflexivity.
  - eexists _, _. reflexivity.
Qed.

Ltac prints_only_tac :=
  repeat first
    [ apply prints_only_ret | apply prints_only_lift
    | apply prints_only_print
    | apply prints_only_bind; [|intros ?]
    | match goal with
      | |- prints_only (if ?b then _ else _) => destruct b
      end ].

Lemma preview_step_prints_only (i : nat) (step : json) :
  prints_only (preview_step i step).
Proof. unfold preview_step. prints_only_tac. Qed.

Lemma preview_steps_prints_only (steps : list json) :
  forall i, prints_only (preview_steps i steps).
Proof.
  induction steps as [|s steps IH]; intros i; cbn [preview_steps].
  - apply prints_only_ret.
  - apply prints_only_bind; [apply preview_step_prints_only|].
    intros _. apply IH.
Qed.

(** The answer to a question whose default is [default], when the answer
    to come, or the default, is [b]. *)
Lemma confirm_eq (default b : bool) (w : world) :
  hd default (w_confirm w) = b ->
  confirm default w = (Ok b, set_confirm w (tl (w_confirm w))).
Proof.
  unfold confirm. destruct w as [f c fl dm dc co cf mo se ti].
  cbn. destruct cf as [|x cf]; cbn; intros ->; reflexivity.
Qed.

Lemma process_ai_response_command (depth : nat) (ai_out uq : str)
  (d : list (str * json)) (w : world) :
  _extract_json_from_text ai_out = Some (JObj d) ->
  dict_has d (u "plan") = false ->
  dict_has d (u "command") = true ->
  process_ai_response (S depth) ai_out uq w
  = command_branch (process_ai_response depth) (JObj d) uq w.
Proof.
  intros Hx Hp Hc. cbn [process_ai_response]. rewrite Hx.
  destruct d as [|kv d]; [discriminate Hc|].
  cbn [py_truthy negb py_in].
  mlift. rewrite Hp. mlift. rewrite Hc. reflexivity.
Qed.

Lemma process_ai_response_plan (depth : nat) (ai_out uq : str)
  (d : list (str * json)) (w : world) :
  _extract_json_from_text ai_out = Some (JObj d) ->
  dict_has d (u "plan") = true ->
  process_ai_response (S depth) ai_out uq w = plan_branch (JObj d) uq w.
Proof.
  intros Hx Hp. cbn [process_ai_response]. rewrite Hx.
  destruct d as [|kv d]; [discriminate Hp|].
  cbn [py_truthy negb py_in].
  mlift. rewrite Hp. reflexivity.
Qed.

Lemma dict_get_has (A : Type) (d : list (str * A)) (k : str) (v : A) :
  dict_get d k = Some v -> dict_has d k = true.
Proof. unfold dict_has. intros ->. reflexivity. Qed.

(** The statements of the command branch up to the test on [cd]. *)
Lemma command_branch_start (recur : str -> str -> M unit)
  (d : list (str * json)) (uq cmd : str) (w : world) :
  dict_get d (u "command") = Some (JStr cmd) ->
  exists lines,
    command_branch recur (JObj d) uq w
    = (if startswith (u "cd ") cmd then handle_cd true cmd
       else
         yes <~ confirm false ;;
         if (yes : bool) then
           result <~ run_shell_command cmd 60 uq ;;
           add_system_command uq
             (JObj [(u "command", JStr cmd);
                    (u "explanation",
                     match dict_get d (u "explanation") with
                     | Some x => x
                     | None => JStr []
                     end)]) ;;;
           add_message (u "assistant") (JStr (r_summary result)) ;;;
           if negb (r_return_code result =? 0)%Z
           then troubleshoot_and_retry recur result uq
           else ret tt
         else print (u "[yellow]Command not executed.[/yellow]"))
        (printed w lines).
Proof.
  intros Hc. unfold command_branch.
  erewrite mbind_ok
    by (unfold lift, py_get; rewrite Hc; reflexivity).
  mlift. erewrite mbind_ok by (apply print_if_eq).
  mlift. eexists. reflexivity.
Qed.

(** X13. A command is run only on a yes.  When the reply proposes a
    command that is not a [cd] and the user answers no, or answers
    nothing, the default being no, then nothing runs: the only effects are
    the lines printed, the last of which says so, and the answer
    consumed.  The proposal is not recorded in the history. *)
Theorem declined_command_runs_nothing
  (depth : nat) (ai_out user_query : str) (d : list (str * json))
  (cmd : str) (w : world) :
  _extract_json_from_text ai_out = Some (JObj d) ->
  dict_has d (u "plan") = false ->
  dict_get d (u "command") = Some (JStr cmd) ->
  startswith (u "cd ") cmd = false ->
  hd false (w_confirm w) = false ->
  exists w' lines,
    process_ai_response (S depth) ai_out user_query w = (Ok tt, w') /\
    w_console w'
    = w_console w ++ lines ++ [u "[yellow]Command not executed.[/yellow]"] /\
    w_confirm w' = tl (w_confirm w) /\
    nothing_ran w w'.
Proof.
  intros Hx Hp Hc Hcd Hn.
  rewrite (@process_ai_response_command depth ai_out user_query d w Hx Hp
             (dict_get_has _ _ Hc)).
  destruct (@command_branch_start (process_ai_response depth) d user_query
              cmd w Hc) as (lines & ->).
  rewrite Hcd.
  erewrite mbind_ok by (apply confirm_eq; exact Hn).
  cbv beta iota. rewrite print_eq. eexists _, lines. split; [reflexivity|].
  cbn. rewrite <- app_assoc. repeat split.
Qed.

(** X14. A plan is run only on a yes.  When the reply holds a plan and the
    user answers no, no step runs: whether the preview of the steps goes
    through or raises on a malformed step, the only effects are the lines
    printed and the answer consumed; when it goes through, the last line
    says that the plan was cancelled, and the plan is not recorded in the
    history. *)
Theorem declined_plan_runs_nothing
  (depth : nat) (ai_out user_query : str) (d : list (str * json))
  (w : world) :
  _extract_json_from_text ai_out = Some (JObj d) ->
  dict_has d (u "plan") = true ->
  hd true (w_confirm w) = false ->
  exists r w',
    process_ai_response (S depth) ai_out user_query w = (r, w') /\
    nothing_ran w w' /\
    (r = Ok tt ->
     w_confirm w' = tl (w_confirm w) /\
     exists lines,
       w_console w'
       = w_console w ++ lines
         ++ [u "[yellow]Plan execution cancelled.[/yellow]"]).
Proof.
  intros Hx Hp Hn.
  rewrite (@process_ai_response_plan depth ai_out user_query d w Hx Hp).
  unfold plan_branch. mlift.
  set (steps := match dict_get d (u "plan") with
                | Some x => x
                | None => JArr []
                end).
  unfold mbind at 1. rewrite lift_eq.
  destruct (py_len steps) as [n|e] eqn:Hlen.
  2:{ eexists _, _. split; [reflexivity|]. split; [repeat split|].
      discriminate. }
  mprint. unfold mbind at 1. rewrite lift_eq.
  destruct (py_iter steps) as [items|e] eqn:Hit.
  2:{ eexists _, _. split; [reflexivity|]. split; [repeat split|].
      discriminate. }
  unfold mbind at 1.
  set (w1 := set_console w _).
  destruct (preview_steps_prints_only items 1 w1) as (r & lines & ->).
  destruct r as [[]|e].
  2:{ eexists _, _. split; [reflexivity|]. split; [repeat split|].
      discriminate. }
  erewrite mbind_ok.
  2:{ apply confirm_eq. exact Hn. }
  cbv beta iota. rewrite print_eq. eexists _, _. split; [reflexivity|].
  split; [repeat split|]. intros _. split; [reflexivity|].
  unfold w1, printed. cbn [w_console set_console set_confirm].
  eexists (_ :: lines). rewrite <- !app_assoc. reflexivity.
Qed.

Lemma handle_cd_frame (announce : bool) (cmd : str) (w : world) :
  exists w',
    handle_cd announce cmd w = (Ok tt, w') /\
    w_file w' = w_file w /\
    w_def_messages w' = w_def_messages w /\ w_def_chat w' = w_def_chat w /\
    w_confirm w' = w_confirm w /\ w_model w' = w_model w /\
    w_sent w' = w_sent w /\
    fs_dirs (w_fs w') = fs_dirs (w_fs w) /\
    fs_files (w_fs w') = fs_files (w_fs w) /\
    fs_home (w_fs w') = fs_home (w_fs w).
Proof.
  unfold handle_cd. destruct (split_second cmd) as [arg|e] eqn:Hs.
  2:{ eexists. split; [reflexivity|]. repeat split. }
  unfold try_except, mbind, chdir_and_record.
  destruct (os_chdir (w_fs w) (cd_target w arg)) as [f|e] eqn:Hc.
  - destruct (os_chdir_inv _ _ Hc) as (c & Hr & Hd & ->).
    unfold os_getcwd, is_dir_c. cbn [fs_dirs fs_cwd].
    unfold is_dir_c in Hd. rewrite Hd.
    destruct announce; (eexists; split; [reflexivity|]); repeat split.
  - destruct (is_kind FileNotFoundError e);
      (eexists; split; [reflexivity|]); repeat split.
Qed.

(** X15. A [cd] proposed by the reply is applied at once, on a run whose
    printed lines the console accepts: the user is not asked, no process
    is started and nothing is sent to the endpoint; the files and
    directories are what they were, and the command is not recorded,
    neither in the log of commands nor in the history.  When the change of
    directory succeeds, the working directory of the process and the
    directory of the session are the directory that the argument names:
    the argument itself when it is absolute, the home directory for [~],
    the argument joined to the directory of the session otherwise.  When
    it fails, the session directory and the file system are what they
    were. *)
Theorem cd_reply_is_applied_without_asking
  (style_normalize : str -> str) (handler_error : str -> option str)
  (depth : nat) (ai_out user_query : str) (d : list (str * json))
  (cmd : str) (w : world) :
  _extract_json_from_text ai_out = Some (JObj d) ->
  dict_has d (u "plan") = false ->
  dict_get d (u "command") = Some (JStr cmd) ->
  startswith (u "cd ") cmd = true ->
  console_accepts style_normalize handler_error w
    (snd (process_ai_response (S depth) ai_out user_query w)) = true ->
  exists w',
    process_ai_response (S depth) ai_out user_query w = (Ok tt, w') /\
    w_confirm w' = w_confirm w /\
    w_sent w' = w_sent w /\ w_model w' = w_model w /\
    w_file w' = w_file w /\
    w_def_messages w' = w_def_messages w /\ w_def_chat w' = w_def_chat w /\
    fs_dirs (w_fs w') = fs_dirs (w_fs w) /\
    fs_files (w_fs w') = fs_files (w_fs w) /\
    (cd_succeeds w cmd = true ->
     exists arg dir,
       split_second cmd = Ok arg /\
       resolve (w_fs w)
         (let target_dir :=
            if str_eqb arg (u "~") then fs_home (w_fs w) else arg in
          if isabs target_dir then target_dir
          else path_join (w_cwd w) target_dir) = Some dir /\
       is_dir_c (w_fs w) dir = true /\
       fs_cwd (w_fs w') = dir /\ w_cwd w' = render dir) /\
    (cd_succeeds w cmd = false -> w_cwd w' = w_cwd w /\ w_fs w' = w_fs w).
Proof.
  intros Hx Hp Hc Hcd _.
  rewrite (@process_ai_response_command depth ai_out user_query d w Hx Hp
             (dict_get_has _ _ Hc)).
  destruct (@command_branch_start (process_ai_response depth) d user_query
              cmd w Hc) as (lines & ->).
  rewrite Hcd.
  destruct (handle_cd_frame true cmd (printed w lines))
    as (w' & E & F1 & F2 & F3 & F4 & F5 & F6 & F7 & F8 & F9).
  exists w'. split; [exact E|].
  repeat (split; [assumption|]).
  unfold cd_succeeds. split; intros Hf.
  - destruct (split_second cmd) as [arg|e] eqn:Hs; [|discriminate Hf].
    change (w_fs w) with (w_fs (printed w lines)) in Hf.
    change (cd_target w arg) with (cd_target (printed w lines) arg) in Hf.
    destruct (os_chdir (w_fs (printed w lines))
                (cd_target (printed w lines) arg)) as [f|e] eqn:Hch;
      [|discriminate Hf].
    destruct (@handle_cd_success true cmd arg f (printed w lines) Hs Hch)
      as (w'' & E' & Hfs & Hcwd & _).
    rewrite E in E'. injection E' as <-.
    destruct (os_chdir_inv _ _ Hch) as (c & Hr & Hd & ->).
    exists arg, c. split; [reflexivity|].
    split; [exact Hr|]. split; [exact Hd|].
    rewrite Hcwd, Hfs. split; reflexivity.
  - destruct (split_second cmd) as [arg|e] eqn:Hs.
    + change (w_fs w) with (w_fs (printed w lines)) in Hf.
      change (cd_target w arg) with (cd_target (printed w lines) arg) in Hf.
      destruct (os_chdir (w_fs (printed w lines))
                  (cd_target (printed w lines) arg)) as [f|e] eqn:Hch;
        [discriminate Hf|].
      rewrite (@handle_cd_failure true cmd arg e (printed w lines) Hs Hch)
        in E.
      injection E as <-. split; reflexivity.
    + unfold handle_cd in E. rewrite Hs in E. rewrite print_eq in E.
      injection E as <-. split; reflexivity.
Qed.


(** ** Asking the endpoint *)

Lemma get_chat_history_state (w : world) : snd (get_chat_history w) = w.
Proof.
  unfold get_chat_history, mbind. pose proof (load_context_state w) as H.
  destruct (load_context w) as [[[d|x]|e] w1]; cbn in H; subst;
    reflexivity.
Qed.

Lemma get_messages_eq (w : world) (v : json) :
  fst (get_messages w) = Ok v -> get_messages w = (Ok v, w).
Proof.
  unfold get_messages. intros H. pose proof (get_chat_history_state w) as S'.
  destruct (get_chat_history w) as [r w1]. cbn in *. congruence.
Qed.

(** X16. What [call_groq] sends and what it keeps.  With the API key set
    and a history that loads, the request is the system prompt, the turns
    of the history, and the prompt as a user turn.  When the endpoint
    replies, the stripped reply is returned and the prompt, unless it
    looks like a JSON command, is recorded at the end of the history; the
    reply itself is not recorded here.  When the endpoint fails, the error
    is printed, nothing is returned and the history is left as it was. *)
Theorem call_groq_sends_history_and_records_prompt
  (prompt : str) (h : list json) (rest : list (result str)) (w : world) :
  GROQ_API_KEY = true ->
  fst (get_messages w) = Ok (JArr h) ->
  let request := [message (u "system") (JStr SYSTEM_PROMPT)] ++ h
                 ++ [message (u "user") (JStr prompt)] in
  (forall reply, w_model w = Ok reply :: rest ->
     is_json_command (JStr prompt) = Ok false ->
     exists w',
       call_groq prompt w = (Ok (Some (strip reply)), w') /\
       w_sent w' = w_sent w ++ [request] /\
       w_console w' = w_console w /\
       get_messages w'
       = (Ok (JArr (lastn 9 h ++ [message (u "user") (JStr prompt)])), w'))
  /\
  (forall e, w_model w = Raise e :: rest ->
     exists w',
       call_groq prompt w = (Ok None, w') /\
       w_sent w' = w_sent w ++ [request] /\
       w_console w'
       = w_console w ++ [u "[red]Groq API Error: " ++ exn_msg e
                         ++ u "[/red]"] /\
       w_file w' = w_file w /\ w_def_messages w' = w_def_messages w /\
       w_def_chat w' = w_def_chat w).
Proof.
  intros Hk Hh request.
  pose proof (get_messages_eq w Hh) as Hg.
  assert (Start : forall k : list json -> M (option str),
            (history <~ get_messages ;; history <~ lift (py_iter history) ;;
             k history) w = k h w).
  { intros k. mstep Hg. mlift. reflexivity. }
  unfold call_groq. rewrite Hk. cbn [negb]. rewrite Start. fold request.
  split.
  - intros reply Hm Hc.
    set (w1 := set_model w rest (w_sent w ++ [request])).
    assert (Hh1 : fst (get_chat_history w1) = Ok (JArr h)).
    { rewrite <- Hh. apply get_chat_history_store; reflexivity. }
    destruct (@add_message_records (u "user") (JStr prompt) h w1 Hc Hh1)
      as (w' & E & G & Sf & Sc & So & _ & _ & Ss).
    exists w'. split; [|split; [|split]].
    + erewrite try_ok; [reflexivity|].
      erewrite mbind_ok
        by (unfold chat_completion; rewrite Hm; reflexivity).
      fold w1. mstep E. reflexivity.
    + rewrite Ss. reflexivity.
    + rewrite So. reflexivity.
    + exact G.
  - intros e Hm.
    exists (printed (set_model w rest (w_sent w ++ [request]))
              [u "[red]Groq API Error: " ++ exn_msg e ++ u "[/red]"]).
    split.
    + erewrite try_raise.
      2:{ erewrite mbind_raise
            by (unfold chat_completion; rewrite Hm; reflexivity).
          reflexivity. }
      mprint. reflexivity.
    + repeat split.
Qed.


(** ** Prompts that look like commands *)

(** A match further in the text is found, unless one is found before. *)
Lemma re_search_app (r : list atom) (pre t : str) :
  re_search r t <> None -> re_search r (pre ++ t) <> None.
Proof.
  intros H. induction pre as [|c pre IH]; [exact H|].
  cbn [app re_search].
  destruct (match_here r [] [] (c :: pre ++ t)); [discriminate|exact IH].
Qed.

(** A text that starts with a line feed and a capital A or T is no JSON
    document. *)
Lemma json_loads_prose (c : N) (rest : str) :
  c = 65 \/ c = 84 ->
  json_loads (NL :: c :: rest) = raise json JSONDecodeError.
Proof.
  intros [->| ->]; unfold json_loads.
  - change (skip_ws (NL :: 65 :: rest)) with (65 :: rest).
    destruct (2 * List.length (NL :: 65%N :: rest) + 2)%nat eqn:F;
      reflexivity.
  - change (skip_ws (NL :: 84 :: rest)) with (84 :: rest).
    destruct (2 * List.length (NL :: 84%N :: rest) + 2)%nat eqn:F;
      reflexivity.
Qed.

Lemma command_prompt_is_json_command (s : str) :
  (exists c rest, (c = 65 \/ c = 84) /\ s = NL :: c :: rest) ->
  (exists pre t, s = pre ++ t /\ re_search RE_COMMAND_OBJECT t <> None) ->
  is_json_command (JStr s) = Ok true.
Proof.
  intros (c & rest & Hc & Hs) (pre & t & Ht & Hm).
  unfold is_json_command. rewrite Hs at 1.
  rewrite json_loads_prose by exact Hc.
  cbn [raise is_kind exn_kind_of existsb].
  pose proof (@re_search_app RE_COMMAND_OBJECT pre t Hm) as Hm'.
  rewrite <- Ht in Hm'.
  destruct (re_search RE_COMMAND_OBJECT s); [|contradiction].
  rewrite !orb_true_r. reflexivity.
Qed.

(** A prompt that looks like a JSON command leaves the context store as
    it is, whatever the endpoint does. *)
Lemma call_groq_keeps_store (prompt : str) (w : world) :
  is_json_command (JStr prompt) = Ok true ->
  let w' := snd (call_groq prompt w) in
  w_file w' = w_file w /\ w_def_messages w' = w_def_messages w /\
  w_def_chat w' = w_def_chat w.
Proof.
  intros Hc w'. subst w'.
  destruct (call_groq prompt w) as [res w'] eqn:E. cbn [snd].
  unfold call_groq in E.
  destruct GROQ_API_KEY; cbn [negb] in E.
  2:{ unfold mbind in E. rewrite print_eq, ret_eq in E.
      injection E as _ <-. repeat split. }
  pose proof (get_chat_history_state w) as Hs.
  unfold mbind at 1 in E. unfold get_messages in E.
  destruct (get_chat_history w) as [[hist|e] w1];
    cbn [snd] in Hs; subst w1.
  2:{ injection E as _ <-. repeat split. }
  unfold mbind at 1 in E. rewrite lift_eq in E.
  destruct (py_iter hist) as [items|e].
  2:{ injection E as _ <-. repeat split. }
  unfold try_except, mbind, chat_completion, add_message, lift in E.
  rewrite Hc in E.
  destruct (w_model w) as [|[r|e] rest];
    cbn [raise] in E; unfold print, ret in E;
    injection E as _ <-; repeat split.
Qed.

(** X17. The prompt of a troubleshooting request is never recorded.
    Whatever the failed command, the request of the user and the error
    are, the text built from the template is taken for a JSON command by
    [is_json_command]: it is no JSON document and it holds the object of
    the answer format, with its [command] key.  So [add_message] skips it,
    and [call_groq] on it leaves the stored history as it was. *)
Theorem troubleshooting_prompt_is_never_recorded
  (command user_message stderr : str) (w : world) :
  let prompt := troubleshooting_text command user_message stderr in
  is_json_command (JStr prompt) = Ok true /\
  (forall role, add_message role (JStr prompt) w = (Ok tt, w)) /\
  let w' := snd (call_groq prompt w) in
  w_file w' = w_file w /\ w_def_messages w' = w_def_messages w /\
  w_def_chat w' = w_def_chat w.
Proof.
  intros prompt.
  assert (H : is_json_command (JStr prompt) = Ok true).
  { apply command_prompt_is_json_command.
    - eexists _, _. split; [left; reflexivity|reflexivity].
    - exists (TROUBLESHOOTING_PART_0 ++ command ++ TROUBLESHOOTING_PART_1
              ++ user_message ++ TROUBLESHOOTING_PART_2 ++ stderr),
             TROUBLESHOOTING_PART_3.
      split.
      + unfold prompt, troubleshooting_text.
        rewrite <- !app_assoc. reflexivity.
      + vm_compute. discriminate. }
  split; [exact H|]. split.
  - intros role. unfold add_message, mbind, lift. rewrite H. reflexivity.
  - apply call_groq_keeps_store, H.
Qed.


(** ** Lines typed in the shell *)



(** ** Asking for a plan *)

Lemma planning_text_is_json_command (user_request cwd : str) :
  is_json_command (JStr (planning_text user_request cwd)) = Ok true.
Proof.
  apply command_prompt_is_json_command.
  - eexists _, _. split; [right; reflexivity|reflexivity].
  - exists (PLANNING_PART_0 ++ user_request ++ PLANNING_PART_1 ++ cwd),
           PLANNING_PART_2.
    split.
    + unfold planning_text. rewrite <- !app_assoc. reflexivity.
    + vm_compute. discriminate.
Qed.

(** ** What a plan records *)




















(** ** A command the user accepts *)

Lemma persisted_file (k : str) (w w' : world) :
  w_file w' = w_file w -> persisted k w' = persisted k w.
Proof. unfold persisted. intros ->. reflexivity. Qed.







(** ** The console and its markup *)

(** With the console that accepts every line, [run_shell_command_with] is
    [run_shell_command]. *)
Lemma run_shell_command_with_print (cmd : str) (timeout : Z) (um : str) :
  run_shell_command_with print cmd timeout um
  = run_shell_command cmd timeout um.
Proof. reflexivity. Qed.

Section RichFacts.

Variable style_normalize : str -> str.
Variable handler_error : str -> option str.

Local Abbreviation scan := (markup_scan style_normalize handler_error).

Lemma markup_scan_app (a b : str) :
  forall i st stack,
    scan (a ++ b) i st stack
    = match scan a i st stack with
      | Ok (st', stack') => scan b (i + List.length a)%nat st' stack'
      | Raise e => Raise e
      end.
Proof.
  induction a as [|c a IH]; intros i st stack; cbn [app markup_scan].
  - rewrite Nat.add_0_r. reflexivity.
  - destruct (scan_step style_normalize handler_error i c st stack)
      as [[st' stack']|e]; [|reflexivity].
    rewrite IH. cbn [List.length]. rewrite Nat.add_succ_r. reflexivity.
Qed.

(** Text without bracket is read as text. *)
Lemma markup_scan_plain (s : str) :
  existsb (N.eqb LBRACKET) s = false ->
  forall i bs stack,
    exists bs', scan s i (InText bs) stack = Ok (InText bs', stack).
Proof.
  induction s as [|c s IH]; intros H i bs stack; cbn [markup_scan].
  - eauto.
  - cbn [existsb] in H. apply orb_false_iff in H. destruct H as [Hc Hs].
    cbn [scan_step]. rewrite N.eqb_sym in Hc. rewrite Hc.
    destruct (c =? BACKSLASH); apply IH, Hs.
Qed.

(** Text without bracket and without backslash leaves no backslash
    pending. *)
Lemma markup_scan_plain0 (s : str) :
  existsb (fun c => (c =? LBRACKET) || (c =? BACKSLASH)) s = false ->
  forall i stack, scan s i (InText 0) stack = Ok (InText 0, stack).
Proof.
  induction s as [|c s IH]; intros H i stack; cbn [markup_scan];
    [reflexivity|].
  cbn [existsb] in H. apply orb_false_iff in H. destruct H as [Hc Hs].
  apply orb_false_iff in Hc. destruct Hc as [Hb Hk].
  cbn [scan_step]. rewrite Hb, Hk. apply IH, Hs.
Qed.

(** Inside a tag, text without bracket is the text of the tag. *)
Lemma markup_scan_in_tag (name : str) :
  existsb (fun c => (c =? LBRACKET) || (c =? RBRACKET)) name = false ->
  forall i bs0 pos text_rev bs stack,
    exists bs',
      scan name i (InTag bs0 pos text_rev bs) stack
      = Ok (InTag bs0 pos (rev name ++ text_rev) bs', stack).
Proof.
  induction name as [|c name IH]; intros H i bs0 pos text_rev bs stack;
    cbn [markup_scan].
  - eauto.
  - cbn [existsb] in H. apply orb_false_iff in H. destruct H as [Hc Hs].
    apply orb_false_iff in Hc. destruct Hc as [Hl Hr].
    cbn [scan_step]. rewrite Hl, Hr. cbn [rev]. rewrite <- app_assoc.
    cbn [app].
    destruct (c =? BACKSLASH); apply IH, Hs.
Qed.

(** A closing tag raises when no tag is open, whatever its name. *)
Lemma apply_tag_nothing_open (pos : nat) (name : str) :
  exists msg,
    apply_tag style_normalize handler_error pos (tag_of (47 :: name)) []
    = Raise (Exn MarkupError msg).
Proof.
  cbn [tag_of]. change (47 =? EQUALS) with false. cbv iota.
  destruct (tag_of name) as [n p]. unfold apply_tag. cbn [fst].
  destruct (strip n); cbn [bind pop_style]; eexists; reflexivity.
Qed.

(** The line that announces a command, read up to the command. *)
Lemma markup_scan_running :
  scan (u "[cyan]Running:[/cyan] ") 0 (InText 0) []
  = Ok (InText 0, []).
Proof.
  cbn. rewrite str_eqb_refl. cbn.
  match goal with
  | |- context [if ?b then Ok [] else Ok []] => destruct b
  end; reflexivity.
Qed.

(** A closing tag in a command, with no bracket and no backslash before
    it, makes the console refuse the line that announces the command. *)
Lemma markup_render_running (pre name post : str) :
  existsb (fun c => (c =? LBRACKET) || (c =? BACKSLASH)) pre = false ->
  existsb (fun c => (c =? LBRACKET) || (c =? RBRACKET)) name = false ->
  exists msg,
    markup_render style_normalize handler_error
      (u "[cyan]Running:[/cyan] "
       ++ pre ++ [LBRACKET; SLASH] ++ name ++ RBRACKET :: post)
    = Raise (Exn MarkupError msg).
Proof.
  intros Hpre Hname. unfold markup_render.
  rewrite markup_scan_app, markup_scan_running.
  rewrite markup_scan_app, (markup_scan_plain0 _ Hpre).
  cbn [app markup_scan].
  change (scan_step style_normalize handler_error ?i LBRACKET (InText 0) [])
    with (Ok (AfterBracket 0 i, @nil Tag)).
  cbv iota.
  change (scan_step style_normalize handler_error ?i SLASH
            (AfterBracket 0 ?p) [])
    with (Ok (InTag 0 p [SLASH] 0, @nil Tag)).
  cbv iota.
  rewrite markup_scan_app.
  match goal with
  | |- context [scan name ?i (InTag ?b ?p ?t ?k) ?st] =>
      destruct (markup_scan_in_tag name Hname i b p t k st) as [bs' ->]
  end.
  cbn [markup_scan]. unfold scan_step.
  change (RBRACKET =? RBRACKET) with true. cbv iota.
  change (Nat.odd 0) with false. cbv iota.
  rewrite rev_app_distr, rev_involutive. cbn [rev app].
  match goal with
  | |- context [apply_tag _ _ ?p (tag_of (_ :: name)) []] =>
      destruct (apply_tag_nothing_open p name) as [msg E]
  end.
  exists msg. change SLASH with 47. rewrite E. reflexivity.
Qed.

(** C4, what the code does.  The line that announces the command is
    printed before the [try] statement, and the console reads the command
    in it as markup.  So for a command that holds a closing tag, as
    [echo [/x]] does, with no bracket and no backslash before the tag,
    [run_shell_command] raises [MarkupError]: the process is not started,
    nothing is printed and no result is returned. *)
Theorem run_shell_command_raises_on_closing_tag
  (pre name post : str) (timeout : Z) (user_message : str) (w : world) :
  existsb (fun c => (c =? LBRACKET) || (c =? BACKSLASH)) pre = false ->
  existsb (fun c => (c =? LBRACKET) || (c =? RBRACKET)) name = false ->
  let cmd := pre ++ [LBRACKET; SLASH] ++ name ++ RBRACKET :: post in
  exists msg,
    run_shell_command_with (rich_print style_normalize handler_error)
      cmd timeout user_message w
    = (Raise (Exn MarkupError msg), w).
Proof.
  intros Hpre Hname cmd.
  destruct (markup_render_running pre name post Hpre Hname) as [msg E].
  exists msg. unfold run_shell_command_with.
  erewrite mbind_raise; [reflexivity|].
  unfold rich_print. fold cmd in E. rewrite E. reflexivity.
Qed.

(** A text without opening bracket printed in yellow is accepted: the
    only tags of the line are the two of the program, and the closing one
    matches the opening one, or is escaped by a backslash that ends the
    text. *)
Lemma markup_render_yellow (s : str) :
  existsb (N.eqb LBRACKET) s = false ->
  markup_render style_normalize handler_error
    (u "[yellow]" ++ s ++ u "[/yellow]") = Ok tt.
Proof.
  intros Hs. unfold markup_render.
  rewrite markup_scan_app.
  change (scan (u "[yellow]") 0 (InText 0) [])
    with (Ok (InText 0, [(style_normalize (u "yellow"), @None str)])).
  cbv iota. rewrite markup_scan_app.
  match goal with
  | |- context [scan s ?i (InText ?b) ?st] =>
      destruct (markup_scan_plain s Hs i b st) as [bs' ->]
  end.
  cbv iota. cbn. destruct (Nat.odd bs'); [reflexivity|].
  cbn. rewrite str_eqb_refl. cbn.
  match goal with
  | |- context [if ?b then Ok [] else Ok []] => destruct b
  end; reflexivity.
Qed.

(** The same for a text printed in red. *)
Lemma markup_render_red (s : str) :
  existsb (N.eqb LBRACKET) s = false ->
  markup_render style_normalize handler_error
    (u "[red]" ++ s ++ u "[/red]") = Ok tt.
Proof.
  intros Hs. unfold markup_render.
  rewrite markup_scan_app.
  change (scan (u "[red]") 0 (InText 0) [])
    with (Ok (InText 0, [(style_normalize (u "red"), @None str)])).
  cbv iota. rewrite markup_scan_app.
  match goal with
  | |- context [scan s ?i (InText ?b) ?st] =>
      destruct (markup_scan_plain s Hs i b st) as [bs' ->]
  end.
  cbv iota. cbn. destruct (Nat.odd bs'); [reflexivity|].
  cbn. rewrite str_eqb_refl. cbn.
  match goal with
  | |- context [if ?b then Ok [] else Ok []] => destruct b
  end; reflexivity.
Qed.

End RichFacts.


(** ** The executor on the console of [rich] *)






(** X8. Plain chat.  A reply that is not JSON, has no opening brace and no
    opening bracket, and is no longer than the 4300 characters that the
    interpreter accepts as the digits of one integer, is treated as text:
    the console accepts the line that shows it, it is printed, recorded as
    a turn of the assistant at the end of the history, and nothing else
    changes; no command runs. *)
Theorem plain_reply_is_printed_and_recorded
  (style_normalize : str -> str) (handler_error : str -> option str)
  (depth : nat) (ai_out user_query : str) (h : list json) (e : exn)
  (w : world) :
  existsb (N.eqb LBRACE) ai_out = false ->
  existsb (N.eqb LBRACKET) ai_out = false ->
  (List.length ai_out <= 4300)%nat ->
  json_loads ai_out = Raise e ->
  fst (get_chat_history w) = Ok (JArr h) ->
  markup_render style_normalize handler_error
    (u "[yellow]" ++ ai_out ++ u "[/yellow]") = Ok tt /\
  exists w',
    process_ai_response (S depth) ai_out user_query w = (Ok tt, w') /\
    w_console w' = w_console w ++ [u "[yellow]" ++ ai_out ++ u "[/yellow]"] /\
    get_messages w'
    = (Ok (JArr (lastn 9 h ++ [message (u "assistant") (JStr ai_out)])), w')
    /\ w_fs w' = w_fs w /\ w_cwd w' = w_cwd w /\ w_sent w' = w_sent w.
Proof.
  intros Hb Hk _ Hw Hh.
  split; [apply markup_render_yellow, Hk|].
  set (w1 := printed w [u "[yellow]" ++ ai_out ++ u "[/yellow]"]).
  assert (Hh1 : fst (get_chat_history w1) = Ok (JArr h)).
  { rewrite <- Hh. apply get_chat_history_store; reflexivity. }
  destruct (@add_message_records (u "assistant") (JStr ai_out) h w1
              (no_brace_not_command _ Hb) Hh1)
    as (w' & E & G & Sf & Sc & So & _ & _ & Ss).
  exists w'. split; [|split; [|split; [exact G|]]].
  - cbn [process_ai_response]. rewrite (no_brace_no_candidate _ Hb Hw).
    unfold plain_text_branch. mprint. exact E.
  - rewrite So. reflexivity.
  - rewrite Sf, Sc, Ss. repeat split.
Qed.


(** X19. [plan_tasks] returns what the extraction finds in the stripped
    reply of the endpoint, and nothing when there is no reply.  With the
    API key set and a history that loads, the request is the system
    prompt, the history and the planning prompt, which names the request
    and the directory of the session; whatever the request is, the prompt
    holds the sample steps of its own text and is therefore taken for a
    JSON command, so the exchange is not recorded: the context store is
    left as it was.  When the endpoint fails with a message that holds no
    opening bracket, the console accepts the line that reports it and
    there is no plan.  Without the key nothing is sent. *)
Theorem plan_tasks_extracts_and_records_nothing
  (style_normalize : str -> str) (handler_error : str -> option str)
  (user_request : str) (h : list json) (rest : list (result str))
  (w : world) :
  let prompt := planning_text user_request (w_cwd w) in
  (GROQ_API_KEY = false ->
   exists w', plan_tasks user_request w = (Ok None, w') /\
              nothing_ran w w') /\
  (GROQ_API_KEY = true ->
   fst (get_messages w) = Ok (JArr h) ->
   (forall reply, w_model w = Ok reply :: rest ->
      plan_tasks user_request w
      = (Ok (_extract_json_from_text (strip reply)),
         set_model w rest
           (w_sent w ++ [[message (u "system") (JStr SYSTEM_PROMPT)] ++ h
                         ++ [message (u "user") (JStr prompt)]]))) /\
   (forall e, w_model w = Raise e :: rest ->
      existsb (N.eqb LBRACKET) (exn_msg e) = false ->
      markup_render style_normalize handler_error
        (u "[red]" ++ (u "Groq API Error: " ++ exn_msg e) ++ u "[/red]")
      = Ok tt /\
      exists w', plan_tasks user_request w = (Ok None, w') /\
                 w_console w'
                 = w_console w ++ [u "[red]Groq API Error: " ++ exn_msg e
                                   ++ u "[/red]"] /\
                 w_file w' = w_file w /\
                 w_def_messages w' = w_def_messages w /\
                 w_def_chat w' = w_def_chat w)).
Proof.
  intros prompt. unfold plan_tasks. fold prompt.
  pose proof (planning_text_is_json_command user_request (w_cwd w)) as Hc.
  fold prompt in Hc. unfold call_groq. split.
  - intros ->. cbn [negb]. eexists. split; [reflexivity|]. repeat split.
  - intros -> Hh. cbn [negb].
    pose proof (get_messages_eq w Hh) as Hg.
    assert (Start : forall k : list json -> M (option str),
              (history <~ get_messages ;; history <~ lift (py_iter history) ;;
               k history) w = k h w).
    { intros k. mstep Hg. mlift. reflexivity. }
    split.
    + intros reply Hm. erewrite mbind_ok.
      2:{ rewrite Start. erewrite try_ok; [reflexivity|].
          erewrite mbind_ok
            by (unfold chat_completion; rewrite Hm; reflexivity).
          erewrite mbind_ok
            by (unfold add_message, mbind, lift; rewrite Hc; reflexivity).
          reflexivity. }
      reflexivity.
    + intros e Hm Hk. split.
      { apply markup_render_red. cbn [existsb app]. exact Hk. }
      eexists. split.
      * erewrite mbind_ok.
        2:{ rewrite Start. erewrite try_raise.
            2:{ erewrite mbind_raise
                  by (unfold chat_completion; rewrite Hm; reflexivity).
                reflexivity. }
            mprint. reflexivity. }
        reflexivity.
      * repeat split.
Qed.

End Main.

(* ================================================================== *)
(** * Part 10. The properties on the sample environment *)
(* ================================================================== *)

Import Sample.

Local Abbreviation LINUX := (u "linux").
Local Abbreviation run_steps0 :=
  (run_steps LINUX sample_repr sample_summary_prompt sample_run).
Local Abbreviation plan_step0 :=
  (plan_step LINUX sample_repr sample_summary_prompt sample_run).
Local Abbreviation execute_plan0 :=
  (execute_plan LINUX sample_repr sample_summary_prompt sample_run).
Local Abbreviation run_shell_command0 :=
  (run_shell_command LINUX sample_summary_prompt sample_run).
Local Abbreviation process_ai_response0 :=
  (process_ai_response LINUX true sample_repr [] sample_summary_prompt
     sample_troubleshooting_prompt sample_run).
Local Abbreviation plan_branch0 :=
  (plan_branch LINUX sample_repr sample_summary_prompt sample_run).

(** A plan of three commands whose second fails: [echo a] and [false]
    run, the failure of step 2 is reported, [ls] does not run. *)
Lemma plan_stops_at_first_failure_witness :
  exists w',
    execute_plan0
      (plan_of ([command_step "echo a"] ++ command_step "false"
                :: [command_step "ls"]))
      (u "go") sample_world
    = (Ok tt, printed w' [FLOW_COMPLETED]) /\
    (exists before, w_console w' = before ++ [step_failed_notice 2]) /\
    existsb (str_eqb (u "[cyan]Running:[/cyan] ls")) (w_console w') = false.
Proof.
  pose (started := printed sample_world
          [u "[cyan]Executing " ++ str_of_nat 3 ++ u " steps...[/cyan]"
           ++ [NL]]).
  pose (w1 := snd (run_steps0 3%nat (u "go") 1%nat [command_step "echo a"]
                     started)).
  pose (r := run_shell_command0 (u "false") 60%Z (u "go")
               (printed w1 [step_header 2 3
                            ++ fmt sample_repr
                                 (step_explanation 2 (command_step "false"))])).
  assert (Hpre : run_steps0 3%nat (u "go") 1%nat [command_step "echo a"]
                   started = (Ok Next, w1))
    by (vm_compute; reflexivity).
  assert (Hrun : exists res, r = (Ok res, snd r) /\ r_return_code res <> 0%Z).
  { vm_compute. eexists. split; [reflexivity|discriminate]. }
  destruct Hrun as (res & Hrun & Hrc).
  pose proof (@command_fails LINUX sample_repr sample_summary_prompt
                sample_run 3%nat (u "go") 2%nat (command_step "false") w1
                (u "false") res (snd r) eq_refl eq_refl Hrun Hrc) as Hfail.
  destruct (@plan_stops_at_first_failure LINUX sample_repr
              sample_summary_prompt sample_run
              [command_step "echo a"] [command_step "ls"]
              (command_step "false") (u "go") sample_world w1 _ _
              Hpre Hfail) as (_ & E & B).
  eexists. split; [exact E|]. split; [exact B|].
  vm_compute. reflexivity.
Defined.

(** A reply with both keys is handled by the plan branch. *)
Lemma plan_has_priority_over_command_witness :
  let reply := u "{" ++ q "plan" ++ u ": [], " ++ q "command" ++ u ": "
               ++ q "ls" ++ u "}" in
  let action := [(u "plan", JArr []); (u "command", JStr (u "ls"))] in
  _extract_json_from_text reply = Some (JObj action) /\
  process_ai_response0 1%nat reply (u "go") sample_world
  = plan_branch0 (JObj action) (u "go") sample_world.
Proof.
  intros reply action.
  assert (H : _extract_json_from_text reply = Some (JObj action))
    by (vm_compute; reflexivity).
  split; [exact H|].
  exact (proj1 (@plan_has_priority_over_command LINUX true sample_repr []
                  sample_summary_prompt sample_troubleshooting_prompt
                  sample_run 0%nat reply (u "go") action sample_world H)
           eq_refl eq_refl).
Defined.

(** A [cd /tmp] step of a plan leaves the session in [/tmp], which is
    absolute and exists; a [cd /nowhere] typed in the shell leaves the
    session where it was. *)
Lemma session_state_invariant_witness :
  isabs (w_cwd sample_world) = true /\
  (exists w',
     plan_step0 1%nat (u "go") 1%nat (command_step "cd /tmp") sample_world
     = (Ok Next, w') /\
     isabs (w_cwd w') = true /\ isdir (w_fs w') (w_cwd w') = true) /\
  (exists w',
     shell_turn LINUX true sample_repr [] sample_summary_prompt
       sample_troubleshooting_prompt sample_run 1%nat (u "cd /nowhere")
       sample_world = (Ok Next, w') /\
     w_cwd w' = w_cwd sample_world).
Proof.
  assert (Ha : isabs (w_cwd sample_world) = true) by reflexivity.
  destruct (@session_state_invariant LINUX true sample_repr []
              sample_summary_prompt sample_troubleshooting_prompt
              sample_run sample_world Ha) as (P1 & _ & P3).
  split; [exact Ha|]. split.
  - destruct (P1 1%nat (u "go") 1%nat (command_step "cd /tmp") (u "cd /tmp")
                eq_refl eq_refl) as (w' & E & S).
    exists w'. split; [exact E|exact S].
  - destruct (P3 1%nat (u "cd /nowhere") eq_refl) as (w' & E & S).
    exists w'. split; [exact E|exact S].
Defined.

(** A plan whose first step is a [cd] to a directory that does not exist:
    the second step runs, in the directory the session was in. *)
Lemma failed_cd_step_does_not_stop_plan_witness :
  exists w',
    run_steps0 2%nat (u "go") 1%nat
      [command_step "cd /nowhere"; write_step (u "after.txt") "ran"]
      sample_world = (Ok Next, w') /\
    w_cwd w' = u "/home/me" /\
    file_get (fs_files (w_fs w')) [u "home"; u "me"; u "after.txt"]
    = Some (u "ran").
Proof.
  destruct (@failed_cd_step_does_not_stop_plan LINUX sample_repr
              sample_summary_prompt sample_run 2%nat (u "go") 1%nat
              (command_step "cd /nowhere") (u "cd /nowhere") (u "/nowhere")
              (Exn FileNotFoundError [])
              [write_step (u "after.txt") "ran"] sample_world
              eq_refl eq_refl eq_refl eq_refl) as (_ & _ & E).
  eexists. split; [rewrite E; vm_compute; reflexivity|].
  split; vm_compute; reflexivity.
Defined.

(** An eleventh turn drops the first of ten, a sixth command the first of
    five. *)
Lemma history_logs_are_capped_witness :
  let w := set_file sample_world
             (FileJson (JObj [(K_MESSAGES, JArr five_commands);
                              (K_CHAT, JArr ten_turns)])) in
  let turn := message (u "user") (JStr (u "eleven")) in
  let data := [(u "command", JStr (u "pwd")); (u "explanation", JNull)] in
  (exists w', add_message (u "user") (JStr (u "eleven")) w = (Ok tt, w') /\
              persisted K_CHAT w' = Some (tl ten_turns ++ [turn])) /\
  (exists w', add_system_command (u "six") (JObj data) w = (Ok tt, w') /\
              persisted K_MESSAGES w'
              = Some (tl five_commands
                      ++ [command_entry (u "six") (JStr (u "pwd")) JNull
                            (w_time w)])).
Proof.
  intros w turn data.
  destruct history_logs_are_capped as [Hchat Hcmd].
  split.
  - destruct (Hchat (u "user") (JStr (u "eleven")) ten_turns w
                eq_refl eq_refl) as (w' & kept & E & P & _ & _ & F).
    exists w'. split; [exact E|]. rewrite P, (F eq_refl). reflexivity.
  - destruct (Hcmd (u "six") data five_commands w eq_refl)
      as (w' & kept & E & P & _ & _ & F).
    exists w'. split; [exact E|]. rewrite P, (F eq_refl). reflexivity.
Defined.

(** Writing [hello] over a file that holds something else, then reading
    it back. *)
Lemma write_then_read_round_trip_witness :
  let p := u "/tmp/old.txt" in
  file_get (fs_files sample_fs) [u "tmp"; u "old.txt"]
  = Some (u "previous content") /\
  exists w1 w2,
    plan_step0 2%nat (u "go") 1%nat (write_step p "hello") sample_world
    = (Ok Next, w1) /\
    file_get (fs_files (w_fs w1)) [u "tmp"; u "old.txt"] = Some (u "hello") /\
    read_text (w_fs w1) p = Ok (u "hello") /\
    run_steps0 2%nat (u "go") 1%nat [write_step p "hello"; read_step p]
      sample_world = (Ok Next, w2).
Proof.
  intros p. split; [reflexivity|].
  pose (w1 := snd (plan_step0 2%nat (u "go") 1%nat (write_step p "hello")
                     sample_world)).
  assert (Hw : plan_step0 2%nat (u "go") 1%nat (write_step p "hello")
                 sample_world = (Ok Next, w1))
    by (vm_compute; reflexivity).
  destruct (@write_then_read_round_trip LINUX sample_repr
              sample_summary_prompt sample_run 2%nat (u "go") 1%nat
              (write_step p "hello") (read_step p) p (u "hello")
              sample_world w1 eq_refl eq_refl eq_refl Hw)
    as (_ & RT & _ & w2 & _ & _ & R).
  exists w1, w2. split; [exact Hw|]. split; [vm_compute; reflexivity|].
  split; [exact RT|exact R].
Defined.

(** A reply that is a JSON command, and a fenced block that is not JSON,
    are not recorded. *)
Lemma add_message_skips_json_command_witness :
  add_message (u "assistant")
    (JStr (u "{" ++ q "command" ++ u ": " ++ q "ls" ++ u "}")) sample_world
  = (Ok tt, sample_world) /\
  add_message (u "assistant")
    (JStr (u "Run this: " ++ FENCE ++ u "json {ls} " ++ FENCE)) sample_world
  = (Ok tt, sample_world).
Proof.
  split; apply add_message_skips_json_command.
  - left. eexists. split; vm_compute; reflexivity.
  - right. eexists. split; vm_compute; reflexivity.
Defined.

(** C2, the second candidate on two blocks.  In the text
    [```json {a} junk ``` ```json {b} ```], where [{a}] and [{b}] are two
    JSON objects, the first closing brace after which a fence comes is
    the one of the second block: the candidate runs over both blocks and
    does not decode, though the braces of the first block alone do, and
    the parser returns none. *)
Lemma labelled_fence_candidate_spans_blocks :
  let first := u "{" ++ q "a" ++ u ": 1}" in
  let second := u "{" ++ q "b" ++ u ": 2}" in
  let text := FENCE ++ u "json " ++ first ++ u " junk " ++ FENCE ++ u " "
              ++ FENCE ++ u "json " ++ second ++ u " " ++ FENCE in
  re_search RE_FENCED_JSON_I text
  = Some (first ++ u " junk " ++ FENCE ++ u " " ++ FENCE ++ u "json "
          ++ second) /\
  brace_span text
  = Some (first ++ u " junk " ++ FENCE ++ u " " ++ FENCE ++ u "json "
          ++ second) /\
  json_loads first = Ok (JObj [(u "a", JInt 1)]) /\
  _extract_json_from_text text = None.
Proof. vm_compute. repeat split; reflexivity. Qed.

(** C2, the claim refuted.  In this text the fenced block has no label and
    holds a JSON object; a closing brace follows the block.  The whole
    text does not decode and there is no fence labelled [json]; the braces
    of the unlabelled fence decode, and they hold a recognised key; yet the
    parser returns none, since its last candidate runs to the last brace
    of the text. *)
Lemma unlabelled_fence_is_not_tried :
  let body := u "{" ++ q "done" ++ u ": true}" in
  let text := FENCE ++ [NL] ++ body ++ [NL] ++ FENCE ++ u " and a brace }" in
  json_loads text = Raise (Exn JSONDecodeError []) /\
  re_search RE_FENCED_JSON_I text = None /\
  re_search RE_FENCED text = Some body /\
  json_loads body = Ok (JObj [(u "done", JBool true)]) /\
  re_search RE_COMMAND_OBJECT
    (FENCE ++ [NL] ++ u "{" ++ q "command" ++ u ": 1}" ++ [NL] ++ FENCE
     ++ u " and a brace }")
  = Some (u "{" ++ q "command" ++ u ": 1}") /\
  _extract_json_from_text text = None /\
  _extract_json_from_text
    (FENCE ++ [NL] ++ u "{" ++ q "command" ++ u ": 1}" ++ [NL] ++ FENCE
     ++ u " and a brace }") = None.
Proof. vm_compute. repeat split; reflexivity. Qed.

(** C10, the claim refuted.  This content decodes as a JSON object
    without a [command] key and matches the pattern of braces around the
    quoted word [command]; the message is recorded in the chat history. *)
Lemma embedded_command_in_valid_json_is_recorded :
  let content := u "{" ++ q "x" ++ u ": {" ++ q "command" ++ u ": "
                 ++ q "ls" ++ u "}}" in
  let after := snd (add_message (u "assistant") (JStr content) sample_world) in
  matches_command_pattern content = true /\
  re_search RE_COMMAND_OBJECT content <> None /\
  add_message (u "assistant") (JStr content) sample_world
  <> (Ok tt, sample_world) /\
  persisted K_CHAT sample_world = None /\
  persisted K_CHAT after = Some [message (u "assistant") (JStr content)].
Proof.
  intros content after.
  split; [vm_compute; reflexivity|].
  split; [vm_compute; discriminate|].
  split; [|split; vm_compute; reflexivity].
  intros H. apply (f_equal (fun r => w_file (snd r))) in H.
  vm_compute in H. discriminate H.
Qed.

(** The executor on the sample session: a command that completes with a
    failure, and a command that runs out of time. *)
Lemma run_shell_command_examples :
  (exists res w',
     run_shell_command0 (u "false") 60%Z (u "go") sample_world = (Ok res, w')
     /\ r_stderr res = u "boom" /\ r_return_code res = 1%Z) /\
  (exists res w',
     run_shell_command0 (u "sleep 100") 60%Z (u "go") sample_world
     = (Ok res, w')
     /\ r_stderr res = u "The command took too long and was stopped."
     /\ r_return_code res = (-1)%Z).
Proof. split; vm_compute; eexists _, _; repeat split; reflexivity. Qed.

(** C8 on the sample session: with the array in the file, loading
    raises, and so does every operation that loads the context first. *)
Lemma load_context_raises_on_array_example :
  let w := set_file sample_world (FileJson (JArr [])) in
  fst (load_context w) = Raise (Exn TypeError []) /\
  fst (add_message (u "user") (JStr (u "hello")) w)
  = Raise (Exn TypeError []) /\
  fst (get_messages w) = Raise (Exn TypeError []).
Proof. vm_compute. repeat split; reflexivity. Qed.

(** ** More properties on the sample environment *)

Local Abbreviation shell_turn0 :=
  (shell_turn LINUX true sample_repr [] sample_summary_prompt
     sample_troubleshooting_prompt sample_run).

(** A first message on a session without history. *)
Lemma recorded_message_is_returned_witness :
  is_json_command (JStr (u "hello")) = Ok false /\
  exists w',
    add_message (u "user") (JStr (u "hello")) sample_world = (Ok tt, w') /\
    get_messages w'
    = (Ok (JArr [message (u "user") (JStr (u "hello"))]), w').
Proof.
  assert (Hc : is_json_command (JStr (u "hello")) = Ok false)
    by (vm_compute; reflexivity).
  split; [exact Hc|].
  exact (@recorded_message_is_returned (u "user") (JStr (u "hello")) []
           sample_world Hc eq_refl).
Defined.

(** An entry [theme] of the context file survives a message and a
    recorded command. *)
Lemma appends_keep_the_other_entries_witness :
  let d0 := [(K_MESSAGES, JArr []); (K_CHAT, JArr []);
             (u "theme", JStr (u "dark"))] in
  let w := set_file sample_world (FileJson (JObj d0)) in
  let w1 := snd (add_message (u "user") (JStr (u "hello")) w) in
  let w2 := snd (add_system_command (u "list")
                   (JObj [(u "command", JStr (u "ls"))]) w) in
  (exists d', w_file w1 = FileJson (JObj d') /\
              dict_get d' (u "theme") = Some (JStr (u "dark"))) /\
  (exists d', w_file w2 = FileJson (JObj d') /\
              dict_get d' (u "theme") = Some (JStr (u "dark"))).
Proof.
  intros d0 w w1 w2. split.
  - refine (proj1 (@appends_keep_the_other_entries d0 (u "theme")
                     (JStr (u "dark")) w w1 eq_refl eq_refl)
              (u "user") (JStr (u "hello")) eq_refl _).
    vm_compute. reflexivity.
  - refine (proj2 (@appends_keep_the_other_entries d0 (u "theme")
                     (JStr (u "dark")) w w2 eq_refl eq_refl)
              (u "list") (JObj [(u "command", JStr (u "ls"))]) eq_refl _).
    vm_compute. reflexivity.
Defined.

(** A message added while the context file is missing comes back after
    [clear_messages]. *)
Lemma clear_messages_saves_the_shared_lists_witness :
  exists w1 w2,
    add_message (u "user") (JStr (u "hello")) sample_world = (Ok tt, w1) /\
    clear_messages w1 = (Ok tt, w2) /\
    get_chat_history w2
    = (Ok (JArr [message (u "user") (JStr (u "hello"))]), w2).
Proof.
  refine (proj2 (clear_messages_saves_the_shared_lists sample_world)
            (u "user") (JStr (u "hello")) _ eq_refl eq_refl).
  vm_compute. reflexivity.
Defined.

(** A sentence without a brace. *)
Lemma message_without_brace_is_recorded_witness :
  existsb (N.eqb LBRACE) (u "list the files, please") = false /\
  existsb (N.eqb LBRACKET) (u "list the files, please") = false /\
  (List.length (u "list the files, please") <= 4300)%nat /\
  is_json_command (JStr (u "list the files, please")) = Ok false /\
  exists w',
    add_message (u "user") (JStr (u "list the files, please")) sample_world
    = (Ok tt, w') /\
    get_messages w'
    = (Ok (JArr [message (u "user") (JStr (u "list the files, please"))]),
       w').
Proof.
  split; [reflexivity|]. split; [reflexivity|].
  assert (Hl : (List.length (u "list the files, please") <= 4300)%nat)
    by (apply Nat.leb_le; vm_compute; reflexivity).
  split; [exact Hl|].
  exact (@message_without_brace_is_recorded LINUX true sample_repr
           sample_summary_prompt sample_troubleshooting_prompt
           sample_run (u "user") (u "list the files, please") []
           sample_world eq_refl eq_refl Hl eq_refl).
Defined.

(** An object after a word: the whole text is no JSON and the value is an
    object. *)
Lemma extracted_value_is_whole_text_or_object_witness :
  let text := u "Sure: {" ++ q "done" ++ u ": true}" in
  let v := JObj [(u "done", JBool true)] in
  _extract_json_from_text text = Some v /\
  (json_loads text = Ok v \/
   (exists e, json_loads text = Raise e) /\ is_object v).
Proof.
  intros text v.
  assert (H : _extract_json_from_text text = Some v)
    by (vm_compute; reflexivity).
  split; [exact H|].
  exact (@extracted_value_is_whole_text_or_object LINUX true sample_repr
           sample_summary_prompt sample_troubleshooting_prompt sample_run
           text v H).
Defined.

(** An object between two pieces of prose. *)
Lemma object_in_prose_is_extracted_witness :
  _extract_json_from_text
    (u "Sure: " ++ (LBRACE :: (q "done" ++ u ": true") ++ [RBRACE])
     ++ u " as asked")
  = Some (JObj [(u "done", JBool true)]).
Proof.
  refine (@object_in_prose_is_extracted (u "Sure: ") (q "done" ++ u ": true")
            (u " as asked") (JObj [(u "done", JBool true)])
            (Exn JSONDecodeError []) eq_refl eq_refl eq_refl _ _);
    vm_compute; reflexivity.
Defined.

(** A greeting is accepted by the console, printed and recorded. *)
Lemma plain_reply_is_printed_and_recorded_witness :
  markup_render sample_normalize sample_handler (u "[yellow]Hello![/yellow]")
  = Ok tt /\
  exists w',
    process_ai_response0 1%nat (u "Hello!") (u "hi") sample_world
    = (Ok tt, w') /\
    w_console w' = [u "[yellow]Hello![/yellow]"] /\
    get_messages w'
    = (Ok (JArr [message (u "assistant") (JStr (u "Hello!"))]), w') /\
    w_fs w' = sample_fs.
Proof.
  assert (Hj : json_loads (u "Hello!") = Raise (Exn JSONDecodeError []))
    by (vm_compute; reflexivity).
  assert (Hl : (List.length (u "Hello!") <= 4300)%nat)
    by (apply Nat.leb_le; vm_compute; reflexivity).
  destruct (@plain_reply_is_printed_and_recorded LINUX true sample_repr []
              sample_summary_prompt sample_troubleshooting_prompt sample_run
              sample_normalize sample_handler
              0%nat (u "Hello!") (u "hi") [] (Exn JSONDecodeError [])
              sample_world eq_refl eq_refl Hl Hj eq_refl)
    as (R & w' & E & C & G & F & _).
  split; [exact R|].
  exists w'. split; [exact E|]. split; [exact C|]. split; [exact G|exact F].
Defined.

(** The reply [42] raises [TypeError]; the reply [0] is plain text. *)
Lemma scalar_reply_is_text_or_type_error_witness :
  process_ai_response0 1%nat (u "42") (u "hi") sample_world
  = (Raise (Exn TypeError []), sample_world) /\
  process_ai_response0 1%nat (u "0") (u "hi") sample_world
  = plain_text_branch (u "0") sample_world.
Proof.
  assert (H42 : json_loads (u "42") = Ok (JInt 42))
    by (vm_compute; reflexivity).
  assert (H0 : json_loads (u "0") = Ok (JInt 0))
    by (vm_compute; reflexivity).
  split.
  - refine (proj2 (@scalar_reply_is_text_or_type_error LINUX true
                     sample_repr [] sample_summary_prompt
                     sample_troubleshooting_prompt sample_run 0%nat (u "42")
                     (u "hi") (JInt 42) sample_world H42) eq_refl _).
    right. left. eexists. reflexivity.
  - exact (proj1 (@scalar_reply_is_text_or_type_error LINUX true
                    sample_repr [] sample_summary_prompt
                    sample_troubleshooting_prompt sample_run 0%nat (u "0")
                    (u "hi") (JInt 0) sample_world H0) eq_refl).
Defined.

(** After [cd /tmp], the file [note.txt] is written in [/tmp]. *)
Lemma relative_path_follows_cd_witness :
  let steps := [command_step "cd /tmp"; write_step (u "note.txt") "hi"] in
  let w2 := snd (run_steps0 2%nat (u "go") 1%nat steps sample_world) in
  run_steps0 2%nat (u "go") 1%nat steps sample_world = (Ok Next, w2) /\
  w_cwd w2 = u "/tmp" /\
  file_get (fs_files (w_fs w2)) [u "tmp"; u "note.txt"] = Some (u "hi").
Proof.
  intros steps w2.
  assert (Hrun : run_steps0 2%nat (u "go") 1%nat steps sample_world
                 = (Ok Next, w2)) by (vm_compute; reflexivity).
  split; [exact Hrun|].
  destruct (@relative_path_follows_cd LINUX sample_repr
              sample_summary_prompt sample_run 2%nat (u "go") 1%nat
              (command_step "cd /tmp") (write_step (u "note.txt") "hi")
              (u "cd /tmp") (u "note.txt") (u "hi") sample_world w2
              eq_refl eq_refl eq_refl eq_refl eq_refl eq_refl Hrun)
    as (arg & dir & Ha & Hr & Hc & Hf).
  vm_compute in Ha. injection Ha as <-.
  vm_compute in Hr. injection Hr as <-.
  split; [exact Hc|exact Hf].
Defined.


(** The user has nothing more to say: the proposed [ls] does not run. *)
Lemma declined_command_runs_nothing_witness :
  let reply := u "{" ++ q "command" ++ u ": " ++ q "ls" ++ u "}" in
  exists w',
    process_ai_response0 1%nat reply (u "go") sample_world = (Ok tt, w') /\
    w_console w' = [u "[yellow]Command not executed.[/yellow]"] /\
    nothing_ran sample_world w'.
Proof.
  intros reply.
  assert (Hx : _extract_json_from_text reply
               = Some (JObj [(u "command", JStr (u "ls"))]))
    by (vm_compute; reflexivity).
  destruct (@declined_command_runs_nothing LINUX true sample_repr []
              sample_summary_prompt sample_troubleshooting_prompt sample_run
              0%nat reply (u "go") [(u "command", JStr (u "ls"))] (u "ls")
              sample_world Hx eq_refl eq_refl eq_refl eq_refl)
    as (w' & lines & E & C & _ & N).
  exists w'. split; [exact E|]. split; [|exact N].
  assert (Hw : w' = snd (process_ai_response0 1%nat reply (u "go")
                           sample_world))
    by (rewrite E; reflexivity).
  rewrite Hw. vm_compute. reflexivity.
Defined.

(** The user says no to a plan of one step. *)
Lemma declined_plan_runs_nothing_witness :
  let reply := u "{" ++ q "plan" ++ u ": [{" ++ q "command" ++ u ": "
               ++ q "ls" ++ u "}]}" in
  let w := set_confirm sample_world [false] in
  exists r w',
    process_ai_response0 1%nat reply (u "go") w = (r, w') /\
    nothing_ran w w' /\
    (r = Ok tt -> w_confirm w' = []).
Proof.
  intros reply w.
  assert (Hx : _extract_json_from_text reply
               = Some (JObj [(u "plan", JArr [command_step "ls"])]))
    by (vm_compute; reflexivity).
  destruct (@declined_plan_runs_nothing LINUX true sample_repr []
              sample_summary_prompt sample_troubleshooting_prompt sample_run
              0%nat reply (u "go") [(u "plan", JArr [command_step "ls"])]
              w Hx eq_refl eq_refl)
    as (r & w' & E & N & L).
  exists r, w'. split; [exact E|]. split; [exact N|].
  intros Hr. exact (proj1 (L Hr)).
Defined.

(** The reply proposes [cd /tmp], then [cd ..], then [cd ~] from [/tmp],
    then [cd nowhere]: the session moves to [/tmp], to [/home], to
    [/home/me], and stays where it is; nobody is asked. *)
Lemma cd_reply_is_applied_without_asking_witness :
  let reply (c : string) :=
    u "{" ++ q "command" ++ u ": " ++ q c ++ u "}" in
  let w := set_confirm sample_world [false] in
  let at_tmp := set_cwd (set_fs w
                  {| fs_dirs := fs_dirs sample_fs;
                     fs_files := fs_files sample_fs;
                     fs_cwd := [u "tmp"]; fs_home := fs_home sample_fs |})
                  (u "/tmp") in
  (exists w',
     process_ai_response0 1%nat (reply "cd /tmp"%string) (u "go") w = (Ok tt, w') /\
     w_cwd w' = u "/tmp" /\ fs_cwd (w_fs w') = [u "tmp"] /\
     w_console w' = [u "[green]Changed directory to: /tmp[/green]"] /\
     w_confirm w' = [false] /\ w_sent w' = [] /\ w_file w' = FileMissing) /\
  (exists w',
     process_ai_response0 1%nat (reply "cd .."%string) (u "go") w = (Ok tt, w') /\
     w_cwd w' = u "/home" /\ fs_cwd (w_fs w') = [u "home"]) /\
  (exists w',
     process_ai_response0 1%nat (reply "cd ~"%string) (u "go") at_tmp
     = (Ok tt, w') /\
     w_cwd w' = u "/home/me" /\ fs_cwd (w_fs w') = [u "home"; u "me"]) /\
  (exists w',
     process_ai_response0 1%nat (reply "cd nowhere"%string) (u "go") w
     = (Ok tt, w') /\
     w_cwd w' = u "/home/me" /\ w_fs w' = sample_fs).
Proof.
  intros reply w at_tmp.
  split; [|split; [|split]].
  - destruct (@cd_reply_is_applied_without_asking LINUX true sample_repr []
                sample_summary_prompt sample_troubleshooting_prompt
                sample_run sample_normalize sample_handler
                0%nat (reply "cd /tmp"%string) (u "go")
                [(u "command", JStr (u "cd /tmp"))]
                (u "cd /tmp") w
                ltac:(vm_compute; reflexivity) eq_refl eq_refl eq_refl
                ltac:(vm_compute; reflexivity))
      as (w' & E & C & S & _ & F & _ & _ & _ & _ & Hok & _).
    destruct (Hok ltac:(vm_compute; reflexivity))
      as (arg & dir & Ha & Hr & _ & Hd & Hc).
    vm_compute in Ha. injection Ha as <-.
    vm_compute in Hr. injection Hr as <-.
    exists w'. split; [exact E|]. split; [exact Hc|]. split; [exact Hd|].
    split; [|split; [exact C|split; [exact S|exact F]]].
    assert (Hw : w' = snd (process_ai_response0 1%nat (reply "cd /tmp"%string)
                             (u "go") w)) by (rewrite E; reflexivity).
    rewrite Hw. vm_compute. reflexivity.
  - destruct (@cd_reply_is_applied_without_asking LINUX true sample_repr []
                sample_summary_prompt sample_troubleshooting_prompt
                sample_run sample_normalize sample_handler
                0%nat (reply "cd .."%string) (u "go")
                [(u "command", JStr (u "cd .."))]
                (u "cd ..") w
                ltac:(vm_compute; reflexivity) eq_refl eq_refl eq_refl
                ltac:(vm_compute; reflexivity))
      as (w' & E & _ & _ & _ & _ & _ & _ & _ & _ & Hok & _).
    destruct (Hok ltac:(vm_compute; reflexivity))
      as (arg & dir & Ha & Hr & _ & Hd & Hc).
    vm_compute in Ha. injection Ha as <-.
    vm_compute in Hr. injection Hr as <-.
    exists w'. split; [exact E|]. split; [exact Hc|exact Hd].
  - destruct (@cd_reply_is_applied_without_asking LINUX true sample_repr []
                sample_summary_prompt sample_troubleshooting_prompt
                sample_run sample_normalize sample_handler
                0%nat (reply "cd ~"%string) (u "go")
                [(u "command", JStr (u "cd ~"))]
                (u "cd ~") at_tmp
                ltac:(vm_compute; reflexivity) eq_refl eq_refl eq_refl
                ltac:(vm_compute; reflexivity))
      as (w' & E & _ & _ & _ & _ & _ & _ & _ & _ & Hok & _).
    destruct (Hok ltac:(vm_compute; reflexivity))
      as (arg & dir & Ha & Hr & _ & Hd & Hc).
    vm_compute in Ha. injection Ha as <-.
    vm_compute in Hr. injection Hr as <-.
    exists w'. split; [exact E|]. split; [exact Hc|exact Hd].
  - destruct (@cd_reply_is_applied_without_asking LINUX true sample_repr []
                sample_summary_prompt sample_troubleshooting_prompt
                sample_run sample_normalize sample_handler
                0%nat (reply "cd nowhere"%string) (u "go")
                [(u "command", JStr (u "cd nowhere"))]
                (u "cd nowhere") w
                ltac:(vm_compute; reflexivity) eq_refl eq_refl eq_refl
                ltac:(vm_compute; reflexivity))
      as (w' & E & _ & _ & _ & _ & _ & _ & _ & _ & _ & Hko).
    exists w'. split; [exact E|]. exact (Hko ltac:(vm_compute; reflexivity)).
Defined.

(** The endpoint answers a first request. *)
Lemma call_groq_sends_history_and_records_prompt_witness :
  let w := set_model sample_world [Ok (u " Hello! ")] [] in
  exists w',
    call_groq true (u "SYSTEM") (u "hi") w = (Ok (Some (u "Hello!")), w') /\
    w_sent w' = [[message (u "system") (JStr (u "SYSTEM"));
                  message (u "user") (JStr (u "hi"))]] /\
    get_messages w'
    = (Ok (JArr [message (u "user") (JStr (u "hi"))]), w').
Proof.
  intros w.
  assert (Hc : is_json_command (JStr (u "hi")) = Ok false)
    by (vm_compute; reflexivity).
  destruct (proj1 (@call_groq_sends_history_and_records_prompt true
                     (u "SYSTEM") (u "hi") [] [] w eq_refl eq_refl)
              (u " Hello! ") eq_refl Hc)
    as (w' & E & S & _ & G).
  exists w'. split; [exact E|]. split; [exact S|exact G].
Defined.


(** Without the API key, [plan_tasks] returns nothing and sends nothing.
    With the key, the endpoint answers the request with a plan of one
    step: the plan is what [plan_tasks] returns, the request is the system
    prompt and the planning prompt, and the context store is left as it
    was.  With the key and an endpoint that fails, there is no plan. *)
Lemma plan_tasks_extracts_and_records_nothing_witness :
  let reply := u " {" ++ q "plan" ++ u ": [{" ++ q "command" ++ u ": "
               ++ q "ls" ++ u "}]} " in
  let answered := set_model sample_world [Ok reply] [] in
  let failing :=
    set_model sample_world [Raise (Exn APIError (u "no route"))] [] in
  (exists w',
     plan_tasks false (u "SYSTEM") (u "make a page") sample_world
     = (Ok None, w') /\
     nothing_ran sample_world w') /\
  plan_tasks true (u "SYSTEM") (u "make a page") answered
  = (Ok (Some (JObj [(u "plan",
                      JArr [JObj [(u "command", JStr (u "ls"))]])])),
     set_model answered []
       [[message (u "system") (JStr (u "SYSTEM"));
         message (u "user")
           (JStr (planning_text (u "make a page") (u "/home/me")))]]) /\
  (exists w',
     plan_tasks true (u "SYSTEM") (u "make a page") failing
     = (Ok None, w') /\
     w_console w' = [u "[red]Groq API Error: no route[/red]"] /\
     w_file w' = FileMissing /\ w_def_messages w' = [] /\
     w_def_chat w' = []).
Proof.
  intros reply answered failing.
  split; [|split].
  - exact (proj1 (@plan_tasks_extracts_and_records_nothing false
                    (u "SYSTEM") sample_normalize sample_handler
                    (u "make a page") [] [] sample_world)
             eq_refl).
  - destruct (proj2 (@plan_tasks_extracts_and_records_nothing true
                       (u "SYSTEM") sample_normalize sample_handler
                       (u "make a page") [] [] answered)
                eq_refl eq_refl) as [Hok _].
    rewrite (Hok reply eq_refl). vm_compute. reflexivity.
  - destruct (proj2 (@plan_tasks_extracts_and_records_nothing true
                       (u "SYSTEM") sample_normalize sample_handler
                       (u "make a page") [] [] failing)
                eq_refl eq_refl) as [_ Hko].
    exact (proj2 (Hko (Exn APIError (u "no route")) eq_refl eq_refl)).
Defined.



(** C4 on [echo [/x]]: the console refuses the line
    [[cyan]Running:[/cyan] echo [/x]], whose closing tag [[/x]] at
    position 27 matches no open tag; the error leaves
    [run_shell_command] and the world is as before. *)
Lemma run_shell_command_raises_on_closing_tag_witness :
  existsb (fun c => (c =? LBRACKET) || (c =? BACKSLASH)) (u "echo ") = false /\
  existsb (fun c => (c =? LBRACKET) || (c =? RBRACKET)) (u "x") = false /\
  exists msg,
    run_shell_command_with LINUX sample_summary_prompt sample_run
      (rich_print sample_normalize sample_handler)
      (u "echo [/x]") 30 (u "say it") sample_world
    = (Raise (Exn MarkupError msg), sample_world).
Proof.
  split; [reflexivity|]. split; [reflexivity|].
  exact (run_shell_command_raises_on_closing_tag
           LINUX sample_summary_prompt sample_run
           sample_normalize sample_handler
           (u "echo ") (u "x") [] 30 (u "say it") sample_world
           eq_refl eq_refl).
Defined.

(** The message of that error, as the console words it. *)
Lemma run_shell_command_on_echo_closing_tag :
  run_shell_command_with LINUX sample_summary_prompt sample_run
    (rich_print sample_normalize sample_handler)
    (u "echo [/x]") 30 (u "say it") sample_world
  = (Raise (Exn MarkupError
       (u "closing tag '[/x]' at position 27 doesn't match any open tag")),
     sample_world).
Proof. vm_compute. reflexivity. Qed.
